(** * Water-Cycle: the cycle clock, the particle pools and the terrain field

    A shallow embedding of the simulation logic of the three variants of the
    water-cycle demo:

    - [OldScript]  : src/old-script.js       (class WaterCycleSimulation, with
                     the four-phase cycle state machine);
    - [Part000]    : src/unnamed/part_000    (class WaterCycleSim);
    - [Part001]    : src/unnamed/part_001    (class WaterCycleSimulation, with
                     climate parameters and the closed-form terrain).

    Conventions of the embedding.

    - A JavaScript number is an exact rational ([Q]): rounding, NaN and the
      infinities of IEEE doubles (and the narrowing of a Float32Array store)
      are not modelled.  Only the terrain formulas, which call [Math.sin] and
      [Math.cos], are stated over the reals ([R]).  What a statement says of
      a stored value is therefore the formula of the assignment, and a range
      is closed at each bound the rounded value can reach.
    - A Float32Array is a [list Q]; a write outside the array is dropped, as a
      typed array does, and a read outside it yields 0 (JavaScript yields
      undefined); the loops of the source never leave the array.
    - [this] is an explicit state record, threaded through an execution monad
      that also carries a thrown exception together with the heap at the
      moment it was thrown (mutations made before a throw persist).
    - The host is a record of oracles: the successive results of
      [Math.random()], the map p |-> [Math.sin(p * Math.PI)], and the downward
      ray cast against the terrain mesh. *)

From Stdlib Require Import QArith Qround ZArith Lia Lqa List.
From Stdlib Require Import Reals Lra.
From stdpp Require Import base list.

Local Open Scope Q_scope.

(** ** JavaScript execution: state and exceptions *)

Inductive Exn : Type :=
| TypeError.

Inductive Completion (St A : Type) : Type :=
| Normal (a : A) (s : St)
| Throw (e : Exn) (s : St).

Arguments Normal {St A} a s.
Arguments Throw {St A} e s.

Definition Exec (St A : Type) : Type := St -> Completion St A.

Definition finalState {St A} (c : Completion St A) : St :=
  match c with
  | Normal _ s => s
  | Throw _ s => s
  end.

Definition completes {St A} (c : Completion St A) : bool :=
  match c with
  | Normal _ _ => true
  | Throw _ _ => false
  end.

(** The exception a computation ended with, if it threw. *)
Definition thrown {St A} (c : Completion St A) : option Exn :=
  match c with
  | Normal _ _ => None
  | Throw e _ => Some e
  end.

Definition ret {St A} (a : A) : Exec St A := fun s => Normal a s.

Definition bind {St A B} (m : Exec St A) (k : A -> Exec St B) : Exec St B :=
  fun s =>
    match m s with
    | Normal a s' => k a s'
    | Throw e s' => Throw e s'
    end.

Definition gets {St A} (f : St -> A) : Exec St A := fun s => Normal (f s) s.

Definition modify {St} (f : St -> St) : Exec St unit := fun s => Normal tt (f s).

Definition throw {St A} (e : Exn) : Exec St A := fun s => Throw e s.

Declare Scope exec_scope.
Delimit Scope exec_scope with exec.
Notation "x <- m ;; k" := (bind m (fun x => k))
  (at level 100, m at next level, right associativity) : exec_scope.
Notation "m ;; k" := (bind m (fun _ => k))
  (at level 100, k at level 200, right associativity) : exec_scope.

Local Open Scope exec_scope.

(** [for (let i = start; i < start + n; i++) body(i)] *)
Fixpoint forRange {St} (start n : nat) (body : nat -> Exec St unit) : Exec St unit :=
  match n with
  | O => ret tt
  | S n' => body start ;; forRange (S start) n' body
  end.

(** [when c m] is [if (c) { m }]. *)
Definition when {St} (c : bool) (m : Exec St unit) : Exec St unit :=
  if c then m else ret tt.

(** [keeps view m]: whatever [m] does, and whether it returns or throws, the
    [view] of the state is the same afterwards. *)
Definition keeps {St V A} (view : St -> V) (m : Exec St A) : Prop :=
  forall s, view (finalState (m s)) = view s.

(** [returns m]: [m] never throws. *)
Definition returns {St A} (m : Exec St A) : Prop :=
  forall s, completes (m s) = true.

(** ** Numbers *)

(** [a > b] on JavaScript numbers. *)
Definition Qgtb (a b : Q) : bool :=
  match a ?= b with
  | Gt => true
  | _ => false
  end.

(** [a < b] on JavaScript numbers. *)
Definition Qltb (a b : Q) : bool := Qgtb b a.

(** ** The part of three.js the simulation relies on *)

Module THREE.

Record Vector3 : Type := { x : Q; y : Q; z : Q }.

(** [new THREE.Vector3()] *)
Definition origin : Vector3 := {| x := 0; y := 0; z := 0 |}.

(** [array[i]] of a Float32Array. *)
Definition read (a : list Q) (i : nat) : Q := default 0 (a !! i).

(** A BufferAttribute of item size 3 over the array [a]. *)
Definition count (a : list Q) : nat := (length a / 3)%nat.

Definition getX (a : list Q) (i : nat) : Q := read a (i * 3).
Definition getY (a : list Q) (i : nat) : Q := read a (i * 3 + 1).
Definition getZ (a : list Q) (i : nat) : Q := read a (i * 3 + 2).

Definition setX (i : nat) (v : Q) (a : list Q) : list Q := <[(i * 3)%nat := v]> a.
Definition setY (i : nat) (v : Q) (a : list Q) : list Q := <[(i * 3 + 1)%nat := v]> a.
Definition setZ (i : nat) (v : Q) (a : list Q) : list Q := <[(i * 3 + 2)%nat := v]> a.

End THREE.

Arguments THREE.read : simpl never.
Arguments THREE.count : simpl never.
Arguments THREE.getX : simpl never.
Arguments THREE.getY : simpl never.
Arguments THREE.getZ : simpl never.
Arguments THREE.setX : simpl never.
Arguments THREE.setY : simpl never.
Arguments THREE.setZ : simpl never.

(** Particle [i] of a position array: its x, y and z. *)
Definition particle (a : list Q) (i : nat) : Q * Q * Q :=
  (THREE.getX a i, THREE.getY a i, THREE.getZ a i).

(** [arr[Math.floor(r * arr.length)]]: [None] stands for [undefined]. *)
Definition pick {A} (arr : list A) (r : Q) : option A :=
  let idx := Qfloor (r * inject_Z (Z.of_nat (length arr))) in
  if (idx <? 0)%Z then None else arr !! Z.to_nat idx.

(** ** The host: what the scripts call and do not define *)

Record Host : Type := {
  (** the n-th result of [Math.random()] since the page was loaded *)
  Math_random : nat -> Q;
  (** p |-> [Math.sin(p * Math.PI)] *)
  sinPi : Q -> Q;
  (** the ray cast from (x, 50, z) straight down against the terrain mesh:
      [point.y] of the first intersection, [None] when there is none *)
  intersectTerrain : Q -> Q -> option Q
}.

(** What [Math.random()] promises: a number in [0, 1). *)
Definition unitDraw (r : Q) : Prop := 0 <= r < 1.

Definition fair (h : Host) : Prop := forall n, unitDraw (Math_random h n).

(** A concrete host for the examples: every [Math.random()] returns 1/2, the
    terrain is flat at height 0, and p |-> 4 p (1 - p) stands in for
    [Math.sin(p * Math.PI)]. *)
Definition flatHost : Host :=
  {| Math_random := fun _ => 0.5;
     sinPi := fun p => 4 * p * (1 - p);
     intersectTerrain := fun _ _ => Some 0 |}.

Arguments Qgtb : simpl never.
Arguments Qltb : simpl never.
Arguments pick : simpl never.

(** * src/old-script.js *)

Module OldScript.

Inductive CycleState : Type :=
| EVAPORATION
| CONDENSATION
| PRECIPITATION
| COLLECTION.

(** [a === b] on the state strings. *)
Definition CycleState_eqb (a b : CycleState) : bool :=
  match a, b with
  | EVAPORATION, EVAPORATION
  | CONDENSATION, CONDENSATION
  | PRECIPITATION, PRECIPITATION
  | COLLECTION, COLLECTION => true
  | _, _ => false
  end.

(** [this.cycleDurations], in seconds. *)
Definition cycleDurations (c : CycleState) : Q :=
  match c with
  | EVAPORATION => 15
  | CONDENSATION => 10
  | PRECIPITATION => 20
  | COLLECTION => 8
  end.

Record Params : Type := { temperature : Q; windSpeed : Q }.

(** A THREE.Points: the position attribute, [userData.velocities] and the
    opacity of its material. *)
Record Points : Type := {
  position : list Q;
  velocities : list Q;
  opacity : Q
}.

Definition withPosition (a : list Q) (p : Points) : Points :=
  {| position := a; velocities := velocities p; opacity := opacity p |}.

Definition withOpacity (o : Q) (p : Points) : Points :=
  {| position := position p; velocities := velocities p; opacity := o |}.

(** The fields of [this] the simulation logic reads or writes.  All cloud
    sprites share one SpriteMaterial, hence a single [cloudOpacity].
    [stageLog] records the calls of [updateCycleStage] (newest first): the
    phase each call announced to the page.  [randomCalls] counts the calls
    of [Math.random()]. *)
Record Sim : Type := {
  isPlaying : bool;
  params : Params;
  cycleState : CycleState;
  cycleTimer : Q;
  clouds : list THREE.Vector3;
  cloudOpacity : Q;
  evaporation : Points;
  rain : Points;
  runoff : Points;
  stageLog : list CycleState;
  randomCalls : nat
}.

Definition withIsPlaying (v : bool) (s : Sim) : Sim :=
  {| isPlaying := v; params := params s; cycleState := cycleState s;
     cycleTimer := cycleTimer s; clouds := clouds s; cloudOpacity := cloudOpacity s;
     evaporation := evaporation s; rain := rain s; runoff := runoff s;
     stageLog := stageLog s; randomCalls := randomCalls s |}.

Definition withParams (v : Params) (s : Sim) : Sim :=
  {| isPlaying := isPlaying s; params := v; cycleState := cycleState s;
     cycleTimer := cycleTimer s; clouds := clouds s; cloudOpacity := cloudOpacity s;
     evaporation := evaporation s; rain := rain s; runoff := runoff s;
     stageLog := stageLog s; randomCalls := randomCalls s |}.

Definition withCycleState (v : CycleState) (s : Sim) : Sim :=
  {| isPlaying := isPlaying s; params := params s; cycleState := v;
     cycleTimer := cycleTimer s; clouds := clouds s; cloudOpacity := cloudOpacity s;
     evaporation := evaporation s; rain := rain s; runoff := runoff s;
     stageLog := stageLog s; randomCalls := randomCalls s |}.

Definition withCycleTimer (v : Q) (s : Sim) : Sim :=
  {| isPlaying := isPlaying s; params := params s; cycleState := cycleState s;
     cycleTimer := v; clouds := clouds s; cloudOpacity := cloudOpacity s;
     evaporation := evaporation s; rain := rain s; runoff := runoff s;
     stageLog := stageLog s; randomCalls := randomCalls s |}.

Definition withClouds (v : list THREE.Vector3) (s : Sim) : Sim :=
  {| isPlaying := isPlaying s; params := params s; cycleState := cycleState s;
     cycleTimer := cycleTimer s; clouds := v; cloudOpacity := cloudOpacity s;
     evaporation := evaporation s; rain := rain s; runoff := runoff s;
     stageLog := stageLog s; randomCalls := randomCalls s |}.

Definition withCloudOpacity (v : Q) (s : Sim) : Sim :=
  {| isPlaying := isPlaying s; params := params s; cycleState := cycleState s;
     cycleTimer := cycleTimer s; clouds := clouds s; cloudOpacity := v;
     evaporation := evaporation s; rain := rain s; runoff := runoff s;
     stageLog := stageLog s; randomCalls := randomCalls s |}.

Definition withEvaporation (v : Points) (s : Sim) : Sim :=
  {| isPlaying := isPlaying s; params := params s; cycleState := cycleState s;
     cycleTimer := cycleTimer s; clouds := clouds s; cloudOpacity := cloudOpacity s;
     evaporation := v; rain := rain s; runoff := runoff s;
     stageLog := stageLog s; randomCalls := randomCalls s |}.

Definition withRain (v : Points) (s : Sim) : Sim :=
  {| isPlaying := isPlaying s; params := params s; cycleState := cycleState s;
     cycleTimer := cycleTimer s; clouds := clouds s; cloudOpacity := cloudOpacity s;
     evaporation := evaporation s; rain := v; runoff := runoff s;
     stageLog := stageLog s; randomCalls := randomCalls s |}.

Definition withRunoff (v : Points) (s : Sim) : Sim :=
  {| isPlaying := isPlaying s; params := params s; cycleState := cycleState s;
     cycleTimer := cycleTimer s; clouds := clouds s; cloudOpacity := cloudOpacity s;
     evaporation := evaporation s; rain := rain s; runoff := v;
     stageLog := stageLog s; randomCalls := randomCalls s |}.

Definition withStageLog (v : list CycleState) (s : Sim) : Sim :=
  {| isPlaying := isPlaying s; params := params s; cycleState := cycleState s;
     cycleTimer := cycleTimer s; clouds := clouds s; cloudOpacity := cloudOpacity s;
     evaporation := evaporation s; rain := rain s; runoff := runoff s;
     stageLog := v; randomCalls := randomCalls s |}.

Definition withRandomCalls (v : nat) (s : Sim) : Sim :=
  {| isPlaying := isPlaying s; params := params s; cycleState := cycleState s;
     cycleTimer := cycleTimer s; clouds := clouds s; cloudOpacity := cloudOpacity s;
     evaporation := evaporation s; rain := rain s; runoff := runoff s;
     stageLog := stageLog s; randomCalls := v |}.

(** [Math.random()] *)
Definition random (h : Host) : Exec Sim Q :=
  r <- gets (fun s => Math_random h (randomCalls s)) ;;
  modify (fun s => withRandomCalls (S (randomCalls s)) s) ;;
  ret r.

(** The constructor's field initialisers, before [init()] runs. *)
Definition newSim : Sim :=
  {| isPlaying := true;
     params := {| temperature := 15; windSpeed := 10 |};
     cycleState := EVAPORATION;
     cycleTimer := 0;
     clouds := [];
     cloudOpacity := 0.6;
     evaporation := {| position := []; velocities := []; opacity := 0 |};
     rain := {| position := []; velocities := []; opacity := 0 |};
     runoff := {| position := []; velocities := []; opacity := 0 |};
     stageLog := [];
     randomCalls := 0 |}.

(** [updateCycleStage()]: the page is told which phase is current (stage
    text, active indicator, info section, label glows). *)
Definition updateCycleStage : Exec Sim unit :=
  modify (fun s => withStageLog (cycleState s :: stageLog s) s).

Definition createClouds (h : Host) : Exec Sim unit :=
  modify (withClouds []) ;;
  modify (withCloudOpacity 0.6) ;;
  forRange 0 25 (fun _ =>
    r1 <- random h ;;
    r2 <- random h ;;
    r3 <- random h ;;
    _scale <- random h ;;
    modify (fun s =>
      withClouds (clouds s ++ [ {| THREE.x := (r1 - 0.5) * 150;
                                   THREE.y := 30 + r2 * 15;
                                   THREE.z := (r3 - 0.5) * 150 |} ]) s)).

(** The body of [createEvaporationParticles], for [count] particles. *)
Definition createEvaporationParticlesN (h : Host) (count : nat) : Exec Sim unit :=
  modify (withEvaporation
            {| position := replicate (count * 3) 0;
               velocities := replicate (count * 3) 0;
               opacity := 0 |}) ;;
  forRange 0 count (fun i =>
    let i3 := (i * 3)%nat in
    r1 <- random h ;;
    r2 <- random h ;;
    r3 <- random h ;;
    r4 <- random h ;;
    r5 <- random h ;;
    modify (fun s =>
      let p := evaporation s in
      withEvaporation
        {| position := <[(i3 + 2)%nat := (r2 - 0.5) * 150]>
                         (<[(i3 + 1)%nat := 0.5]>
                            (<[i3 := (r1 - 0.5) * 150]> (position p)));
           velocities := <[(i3 + 2)%nat := (r5 - 0.5) * 0.1]>
                           (<[(i3 + 1)%nat := r4 * 0.2 + 0.1]>
                              (<[i3 := (r3 - 0.5) * 0.1]> (velocities p)));
           opacity := opacity p |} s)).

Definition createEvaporationParticles (h : Host) : Exec Sim unit :=
  createEvaporationParticlesN h 500.

(** The body of [createRainParticles], for [count] particles. *)
Definition createRainParticlesN (h : Host) (count : nat) : Exec Sim unit :=
  modify (withRain
            {| position := replicate (count * 3) 0;
               velocities := replicate (count * 3) 0;
               opacity := 0 |}) ;;
  forRange 0 count (fun i =>
    let i3 := (i * 3)%nat in
    r1 <- random h ;;
    r2 <- random h ;;
    r3 <- random h ;;
    r4 <- random h ;;
    modify (fun s =>
      let p := rain s in
      withRain
        {| position := <[(i3 + 2)%nat := (r3 - 0.5) * 200]>
                         (<[(i3 + 1)%nat := 30 + r2 * 20]>
                            (<[i3 := (r1 - 0.5) * 200]> (position p)));
           velocities := <[(i3 + 2)%nat := 0]>
                           (<[(i3 + 1)%nat := - (r4 * 0.5 + 0.5)]>
                              (<[i3 := 0]> (velocities p)));
           opacity := opacity p |} s)).

Definition createRainParticles (h : Host) : Exec Sim unit :=
  createRainParticlesN h 5000.

Definition createRunoffParticles : Exec Sim unit :=
  modify (withRunoff
            {| position := replicate (2000 * 3) 0; velocities := []; opacity := 0 |}).

(** [positions.<setter>(...)] on the evaporation pool. *)
Definition onEvaporation (f : Sim -> list Q -> list Q) : Exec Sim unit :=
  modify (fun s =>
    withEvaporation (withPosition (f s (position (evaporation s))) (evaporation s)) s).

(** [positions.<setter>(...)] on the rain pool. *)
Definition onRain (f : Sim -> list Q -> list Q) : Exec Sim unit :=
  modify (fun s => withRain (withPosition (f s (position (rain s))) (rain s)) s).

Definition updateEvaporation (h : Host) (isActive : bool) (progress : Q) : Exec Sim unit :=
  modify (fun s =>
    withEvaporation
      (withOpacity (if isActive then sinPi h progress * 0.5 else 0) (evaporation s)) s) ;;
  if negb isActive then ret tt
  else
    n <- gets (fun s => THREE.count (position (evaporation s))) ;;
    forRange 0 n (fun i =>
      onEvaporation (fun s a =>
        THREE.setY i
          (THREE.getY a i
           + THREE.read (velocities (evaporation s)) (i * 3 + 1)
             * (1 + temperature (params s) / 15)) a) ;;
      yi <- gets (fun s => THREE.getY (position (evaporation s)) i) ;;
      when (Qgtb yi 30) (onEvaporation (fun _ a => THREE.setY i 0.5 a))).

Definition updateCondensation (h : Host) (isActive : bool) (progress : Q) : Exec Sim unit :=
  let opacity := 0.6 + sinPi h progress * 0.4 in
  modify (fun s =>
    match clouds s with
    | [] => s
    | _ :: _ => withCloudOpacity opacity s
    end).

(** "Reset particle to a cloud position": the block both branches of the
    collision test of [updatePrecipitation] run.  Reading [cloud.position]
    of an [undefined] cloud throws. *)
Definition resetToCloud (h : Host) (i : nat) : Exec Sim unit :=
  r <- random h ;;
  children <- gets clouds ;;
  match pick children r with
  | None => throw TypeError
  | Some cloud =>
      r1 <- random h ;;
      onRain (fun _ a => THREE.setX i (THREE.x cloud + (r1 - 0.5) * 10) a) ;;
      onRain (fun _ a => THREE.setY i (THREE.y cloud) a) ;;
      r2 <- random h ;;
      onRain (fun _ a => THREE.setZ i (THREE.z cloud + (r2 - 0.5) * 10) a)
  end.

(** The test [intersects.length > 0 && positions.getY(i) < intersects[0].point.y]. *)
Definition belowTerrain (hit : option Q) (yi : Q) : bool :=
  match hit with
  | Some ty => Qltb yi ty
  | None => false
  end.

Definition updatePrecipitation (h : Host) (isActive : bool) (progress : Q) : Exec Sim unit :=
  modify (fun s =>
    withRain (withOpacity (if isActive then sinPi h progress * 0.7 else 0) (rain s)) s) ;;
  if negb isActive then ret tt
  else
    n <- gets (fun s => THREE.count (position (rain s))) ;;
    forRange 0 n (fun i =>
      let i3 := (i * 3)%nat in
      onRain (fun s a => THREE.setX i (THREE.getX a i + windSpeed (params s) / 50) a) ;;
      onRain (fun s a =>
        THREE.setY i (THREE.getY a i + THREE.read (velocities (rain s)) (i3 + 1)) a) ;;
      hit <- gets (fun s =>
               intersectTerrain h (THREE.getX (position (rain s)) i)
                                  (THREE.getZ (position (rain s)) i)) ;;
      yi <- gets (fun s => THREE.getY (position (rain s)) i) ;;
      if belowTerrain hit yi then resetToCloud h i
      else if Qltb yi (-10) then resetToCloud h i
      else ret tt).

Definition updateCollection (isActive : bool) (progress : Q) : Exec Sim unit :=
  ret tt.

Definition updateWaterCycle (h : Host) (delta : Q) : Exec Sim unit :=
  modify (fun s => withCycleTimer (cycleTimer s + delta) s) ;;
  currentDuration <- gets (fun s => cycleDurations (cycleState s)) ;;
  timer <- gets cycleTimer ;;
  when (Qgtb timer currentDuration)
    (modify (withCycleTimer 0) ;;
     modify (fun s =>
       match cycleState s with
       | EVAPORATION => withCycleState CONDENSATION s
       | CONDENSATION => withCycleState PRECIPITATION s
       | PRECIPITATION => withCycleState COLLECTION s
       | COLLECTION => withCycleState EVAPORATION s
       end) ;;
     updateCycleStage) ;;
  progress <- gets (fun s => cycleTimer s / currentDuration) ;;
  st <- gets cycleState ;;
  updateEvaporation h (CycleState_eqb st EVAPORATION) progress ;;
  st <- gets cycleState ;;
  updateCondensation h (CycleState_eqb st CONDENSATION) progress ;;
  st <- gets cycleState ;;
  updatePrecipitation h (CycleState_eqb st PRECIPITATION) progress ;;
  st <- gets cycleState ;;
  updateCollection (CycleState_eqb st COLLECTION) progress.

(** The value the local [progress] of [updateWaterCycle(delta)] takes when
    the call starts in [s] (see [updateWaterCycle_runs]). *)
Definition localProgress (delta : Q) (s : Sim) : Q :=
  let timer := cycleTimer s + delta in
  let currentDuration := cycleDurations (cycleState s) in
  (if Qgtb timer currentDuration then 0 else timer) / currentDuration.

(** The clock's [progress()] read-out: elapsed / duration(currentPhase). *)
Definition progress (s : Sim) : Q := cycleTimer s / cycleDurations (cycleState s).

(** One frame: [delta] is what [this.clock.getDelta()] returned. *)
Definition animate (h : Host) (delta : Q) : Exec Sim unit :=
  playing <- gets isPlaying ;;
  if negb playing then ret tt
  else
    updateWaterCycle h delta ;;
    modify (fun s =>
      withClouds
        (map (fun cloud =>
                let x' := THREE.x cloud + delta * windSpeed (params s) / 5 in
                {| THREE.x := if Qgtb x' 100 then -100 else x';
                   THREE.y := THREE.y cloud;
                   THREE.z := THREE.z cloud |})
             (clouds s)) s).

Definition togglePlayPause : Exec Sim unit :=
  modify (fun s => withIsPlaying (negb (isPlaying s)) s).

Definition resetSimulation : Exec Sim unit :=
  modify (fun s =>
    withParams {| temperature := 15; windSpeed := windSpeed (params s) |} s) ;;
  modify (fun s =>
    withParams {| temperature := temperature (params s); windSpeed := 10 |} s) ;;
  modify (withCycleState EVAPORATION) ;;
  modify (withCycleTimer 0) ;;
  updateCycleStage.

(** [createTrees()]: the [THREE.GLTFLoader] it instantiates is the stub the
    file installs at its end, whose prototype has [load], [setPath] and
    [parse] but no [loadAsync]; the call [loader.loadAsync(...)] throws a
    TypeError before the method has touched the scene. *)
Definition createTrees : Exec Sim unit := throw TypeError.

(** [init()].  Renderer, camera, lights, listeners, sky, terrain and water
    are scene only.  [await this.createTrees()] rethrows the TypeError of
    [createTrees], so the steps written after it (the clouds, the pools, the
    first [animate()] and the stage announcement) are not reached. *)
Definition init (h : Host) : Exec Sim unit :=
  createTrees ;;
  createClouds h ;;
  createEvaporationParticles h ;;
  createRainParticles h ;;
  createRunoffParticles ;;
  updateCycleStage.

(** The temperature and wind sliders' input handlers. *)
Definition onTemperatureInput (v : Q) : Exec Sim unit :=
  modify (fun s => withParams {| temperature := v; windSpeed := windSpeed (params s) |} s).

Definition onWindInput (v : Q) : Exec Sim unit :=
  modify (fun s => withParams {| temperature := temperature (params s); windSpeed := v |} s).

(** *** Read-outs and stages of [updateWaterCycle], for the proofs *)

(** The clock: phase, elapsed time, and the announcements made so far. *)
Definition clockOf (s : Sim) : CycleState * Q * list CycleState :=
  (cycleState s, cycleTimer s, stageLog s).

(** The four particle passes of [updateWaterCycle], fed with [p] as the
    local [progress]. *)
Definition particlePasses (h : Host) (p : Q) : Exec Sim unit :=
  st <- gets cycleState ;;
  updateEvaporation h (CycleState_eqb st EVAPORATION) p ;;
  st <- gets cycleState ;;
  updateCondensation h (CycleState_eqb st CONDENSATION) p ;;
  st <- gets cycleState ;;
  updatePrecipitation h (CycleState_eqb st PRECIPITATION) p ;;
  st <- gets cycleState ;;
  updateCollection (CycleState_eqb st COLLECTION) p.

(** The state right after the transition block of [updateWaterCycle(delta)]
    started in [s]. *)
Definition afterTransition (delta : Q) (s : Sim) : Sim :=
  let s1 := withCycleTimer (cycleTimer s + delta) s in
  if Qgtb (cycleTimer s1) (cycleDurations (cycleState s)) then
    let s2 := withCycleTimer 0 s1 in
    let s3 :=
      match cycleState s2 with
      | EVAPORATION => withCycleState CONDENSATION s2
      | CONDENSATION => withCycleState PRECIPITATION s2
      | PRECIPITATION => withCycleState COLLECTION s2
      | COLLECTION => withCycleState EVAPORATION s2
      end in
    withStageLog (cycleState s3 :: stageLog s3) s3
  else s1.

(** The fixed cyclic order of the phases, and the phase after [c] in it. *)
Definition cycleOrder : list CycleState :=
  [EVAPORATION; CONDENSATION; PRECIPITATION; COLLECTION].

Definition phaseIndex (c : CycleState) : nat :=
  match c with
  | EVAPORATION => 0
  | CONDENSATION => 1
  | PRECIPITATION => 2
  | COLLECTION => 3
  end.

Definition nextInCycle (c : CycleState) : CycleState :=
  nth ((phaseIndex c + 1) mod 4) cycleOrder EVAPORATION.




(** *** Concrete states, for the examples *)

(** The simulation as [init()] leaves it on [flatHost]. *)
Definition startSim : Sim := finalState (init flatHost newSim).

(** The scene and the pools as the steps of [init()] written after
    [createTrees] create them, with pools of two particles each, small enough
    to evaluate. *)
Definition miniSim : Sim :=
  finalState
    ((createClouds flatHost ;;
      createEvaporationParticlesN flatHost 2 ;;
      createRainParticlesN flatHost 2 ;;
      createRunoffParticles ;;
      updateCycleStage) newSim).

(** [miniSim] after the clouds are gone and a rain drop has come down to
    half a unit above the flat ground, falling one unit per frame. *)
Definition droughtSim : Sim :=
  withClouds []
    (withRain {| position := [0; 0.5; 0]; velocities := [0; -1; 0]; opacity := 0 |}
       miniSim).

(** *** Particles of the evaporation pool *)

(** The altitude of evaporation particle [i] after the move of a pass, before
    the ceiling test. *)
Definition risenY (s : Sim) (i : nat) : Q :=
  THREE.getY (position (evaporation s)) i
  + THREE.read (velocities (evaporation s)) (i * 3 + 1)
    * (1 + temperature (params s) / 15).

(** The points [createEvaporationParticles] can put a particle at. *)
Definition evaporationSpawn (o : Q * Q * Q) : Prop :=
  let '(x, y, z) := o in
  exists r1 r2,
    unitDraw r1 /\ unitDraw r2
    /\ x == (r1 - 0.5) * 150 /\ y == 0.5 /\ z == (r2 - 0.5) * 150.

(** [miniSim] one second into the evaporation phase. *)
Definition risenSim : Sim := finalState (updateWaterCycle flatHost 1 miniSim).

(** *** Rain drops and clouds: read-outs for the proofs *)

(** Rain drop [i] after the move of a pass, before the collision test. *)
Definition movedRain (s : Sim) (i : nat) : Q * Q * Q :=
  let a := position (rain s) in
  (THREE.getX a i + windSpeed (params s) / 50,
   THREE.getY a i + THREE.read (velocities (rain s)) (i * 3 + 1),
   THREE.getZ a i).

(** Where the reset block puts a rain drop: at the altitude of a cloud, within
    5 of it in x and z. *)
Definition cloudSpawn (s : Sim) (o : Q * Q * Q) : Prop :=
  exists cloud r1 r2,
    In cloud (clouds s)
    /\ unitDraw r1 /\ unitDraw r2
    /\ o = (THREE.x cloud + (r1 - 0.5) * 10, THREE.y cloud,
            THREE.z cloud + (r2 - 0.5) * 10).

(** What an active precipitation pass of host [h] may do to rain drop [i]:
    reset it to a cloud when the move took it below the terrain hit or below
    -10, leave it where the move took it otherwise. *)
Definition rainOutcome (h : Host) (s s' : Sim) (i : nat) : Prop :=
  let '(x1, y1, z1) := movedRain s i in
  if belowTerrain (intersectTerrain h x1 z1) y1 || Qltb y1 (-10)
  then cloudSpawn s (particle (position (rain s')) i)
  else particle (position (rain s')) i = movedRain s i.

(** The states after each of a sequence of [animate] frames, one delta per
    frame. *)
Fixpoint runAnimate (h : Host) (deltas : list Q) (s : Sim) : list Sim :=
  match deltas with
  | [] => []
  | d :: rest =>
      let s' := finalState (animate h d s) in
      s' :: runAnimate h rest s'
  end.

(** Whether every frame of a sequence of [animate] frames completes. *)
Fixpoint allComplete (h : Host) (deltas : list Q) (s : Sim) : bool :=
  match deltas with
  | [] => true
  | d :: rest =>
      completes (animate h d s) && allComplete h rest (finalState (animate h d s))
  end.


(** A cloud as [createClouds] places it, from three draws. *)
Definition cloudPlaced (c : THREE.Vector3) : Prop :=
  exists r1 r2 r3,
    unitDraw r1 /\ unitDraw r2 /\ unitDraw r3
    /\ c = {| THREE.x := (r1 - 0.5) * 150;
              THREE.y := 30 + r2 * 15;
              THREE.z := (r3 - 0.5) * 150 |}.

(** The box the clouds are created in. *)
Definition cloudInRange (c : THREE.Vector3) : Prop :=
  -75 <= THREE.x c <= 75 /\ 30 <= THREE.y c <= 45 /\ -75 <= THREE.z c <= 75.

(** The position and the velocity [createRainParticles] gives a drop, from
    four draws. *)
Definition rainSpawn (o v : Q * Q * Q) : Prop :=
  exists r1 r2 r3 r4,
    unitDraw r1 /\ unitDraw r2 /\ unitDraw r3 /\ unitDraw r4
    /\ o = ((r1 - 0.5) * 200, 30 + r2 * 20, (r3 - 0.5) * 200)
    /\ v = (0, - (r4 * 0.5 + 0.5), 0).

(** The box the drops are created in, and the range of their fall. *)
Definition rainInRange (o v : Q * Q * Q) : Prop :=
  let '(x, y, z) := o in
  let '(_, vy, _) := v in
  -100 <= x <= 100 /\ 30 <= y <= 50 /\ -100 <= z <= 100 /\ -1 <= vy <= -0.5.

(** The velocity [createEvaporationParticles] gives a particle, from three
    draws. *)
Definition evaporationVelocity (v : Q * Q * Q) : Prop :=
  exists r3 r4 r5,
    unitDraw r3 /\ unitDraw r4 /\ unitDraw r5
    /\ v = ((r3 - 0.5) * 0.1, r4 * 0.2 + 0.1, (r5 - 0.5) * 0.1).

(** *** More concrete states, for the examples *)

(** [miniSim] with one rain drop half a unit above the flat ground, falling
    one unit per frame: the next active pass takes it below the ground. *)
Definition showerSim : Sim :=
  withRain {| position := [0; 0.5; 0]; velocities := [0; -1; 0]; opacity := 0 |} miniSim.

(** [miniSim] with one evaporation particle just below the ceiling of 30,
    rising 0.2 per frame at temperature 0 and twice as fast at 15. *)
Definition ceilingSim : Sim :=
  withEvaporation
    {| position := [10; 29.9; -20]; velocities := [0; 0.2; 0]; opacity := 0 |} miniSim.

End OldScript.

(** * src/unnamed/part_000 *)

Module Part000.

Record Params : Type := { temperature : Q; humidity : Q; windSpeed : Q }.

(** A lake mesh: its position and [userData.w], [userData.h]. *)
Record WaterBody : Type := { at_ : THREE.Vector3; w : Q; h : Q }.

(** A THREE.Points: the position attribute, [userData.vel] and the opacity
    of its material. *)
Record Points : Type := {
  position : list Q;
  vel : list Q;
  opacity : Q
}.

Definition withPosition (a : list Q) (p : Points) : Points :=
  {| position := a; vel := vel p; opacity := opacity p |}.

Definition withOpacity (o : Q) (p : Points) : Points :=
  {| position := position p; vel := vel p; opacity := o |}.

(** [shownTranspiration] and [shownEvaporation] are the rates written to
    the page (before [toFixed(1)]). *)
Record Sim : Type := {
  isPlaying : bool;
  params : Params;
  waterBodies : list WaterBody;
  treeEmitters : list THREE.Vector3;
  transpiration : Points;
  evaporation : Points;
  shownTranspiration : Q;
  shownEvaporation : Q;
  randomCalls : nat
}.

Definition withParams (v : Params) (s : Sim) : Sim :=
  {| isPlaying := isPlaying s; params := v; waterBodies := waterBodies s;
     treeEmitters := treeEmitters s; transpiration := transpiration s;
     evaporation := evaporation s; shownTranspiration := shownTranspiration s;
     shownEvaporation := shownEvaporation s; randomCalls := randomCalls s |}.

Definition withTranspiration (v : Points) (s : Sim) : Sim :=
  {| isPlaying := isPlaying s; params := params s; waterBodies := waterBodies s;
     treeEmitters := treeEmitters s; transpiration := v;
     evaporation := evaporation s; shownTranspiration := shownTranspiration s;
     shownEvaporation := shownEvaporation s; randomCalls := randomCalls s |}.

Definition withEvaporation (v : Points) (s : Sim) : Sim :=
  {| isPlaying := isPlaying s; params := params s; waterBodies := waterBodies s;
     treeEmitters := treeEmitters s; transpiration := transpiration s;
     evaporation := v; shownTranspiration := shownTranspiration s;
     shownEvaporation := shownEvaporation s; randomCalls := randomCalls s |}.

Definition withShown (t e : Q) (s : Sim) : Sim :=
  {| isPlaying := isPlaying s; params := params s; waterBodies := waterBodies s;
     treeEmitters := treeEmitters s; transpiration := transpiration s;
     evaporation := evaporation s; shownTranspiration := t;
     shownEvaporation := e; randomCalls := randomCalls s |}.

Definition withRandomCalls (v : nat) (s : Sim) : Sim :=
  {| isPlaying := isPlaying s; params := params s; waterBodies := waterBodies s;
     treeEmitters := treeEmitters s; transpiration := transpiration s;
     evaporation := evaporation s; shownTranspiration := shownTranspiration s;
     shownEvaporation := shownEvaporation s; randomCalls := v |}.

(** [Math.random()] *)
Definition random (host : Host) : Exec Sim Q :=
  r <- gets (fun s => Math_random host (randomCalls s)) ;;
  modify (fun s => withRandomCalls (S (randomCalls s)) s) ;;
  ret r.

(** The three lakes of [createWaterBodies]. *)
Definition createWaterBodies : list WaterBody :=
  [ {| at_ := {| THREE.x := -22; THREE.y := 0.08; THREE.z := -12 |}; w := 18; h := 12 |};
    {| at_ := {| THREE.x := 16; THREE.y := 0.08; THREE.z := 10 |}; w := 14; h := 10 |};
    {| at_ := {| THREE.x := 2; THREE.y := 0.08; THREE.z := -4 |}; w := 9; h := 8 |} ].

Definition onTranspiration (f : Sim -> list Q -> list Q) : Exec Sim unit :=
  modify (fun s =>
    withTranspiration (withPosition (f s (position (transpiration s))) (transpiration s)) s).

Definition onEvaporation (f : Sim -> list Q -> list Q) : Exec Sim unit :=
  modify (fun s =>
    withEvaporation (withPosition (f s (position (evaporation s))) (evaporation s)) s).

(** "Reset" of a transpiration particle: a random tree emitter, or a fresh
    [THREE.Vector3] when the entry is [undefined]. *)
Definition respawnAtEmitter (host : Host) (i : nat) : Exec Sim unit :=
  r <- random host ;;
  emitters <- gets treeEmitters ;;
  let p := default THREE.origin (pick emitters r) in
  r1 <- random host ;;
  onTranspiration (fun _ a => THREE.setX i (THREE.x p + (r1 - 0.5) * 2) a) ;;
  r2 <- random host ;;
  onTranspiration (fun _ a => THREE.setY i (THREE.y p + r2 * 3) a) ;;
  r3 <- random host ;;
  onTranspiration (fun _ a => THREE.setZ i (THREE.z p + (r3 - 0.5) * 2) a).

(** "Reset" of an evaporation particle onto a random lake; the caller has
    checked [this.waterBodies.length]. *)
Definition respawnOnWater (host : Host) (i : nat) : Exec Sim unit :=
  r <- random host ;;
  bodies <- gets waterBodies ;;
  match pick bodies r with
  | None => throw TypeError
  | Some wb =>
      r1 <- random host ;;
      onEvaporation (fun _ a => THREE.setX i (THREE.x (at_ wb) + (r1 - 0.5) * w wb) a) ;;
      onEvaporation (fun _ a => THREE.setY i 0.12 a) ;;
      r2 <- random host ;;
      onEvaporation (fun _ a => THREE.setZ i (THREE.z (at_ wb) + (r2 - 0.5) * h wb) a)
  end.

Definition tempF (p : Params) : Q := (temperature p - 10) / 30.
Definition humidF (p : Params) : Q := 1 - (humidity p - 20) / 70.
Definition windF (p : Params) : Q := windSpeed p / 20.
Definition transp (p : Params) : Q := (tempF p * 0.7 + humidF p * 0.3) * 2.5.
Definition evap (p : Params) : Q := (tempF p * 0.8 + windF p * 0.2) * 3.0.

(** The transpiration loop of [updateParticles(dt)]. *)
Definition updateTranspiration (host : Host) (dt : Q) : Exec Sim unit :=
  n <- gets (fun s => THREE.count (position (transpiration s))) ;;
  forRange 0 n (fun i =>
    onTranspiration (fun s a =>
      THREE.setY i
        (THREE.getY a i + THREE.read (vel (transpiration s)) (i * 3 + 1) * dt * transp (params s))
        a) ;;
    onTranspiration (fun s a =>
      THREE.setX i
        (THREE.getX a i
         + THREE.read (vel (transpiration s)) (i * 3 + 0)
         + windSpeed (params s) * 0.01 * dt) a) ;;
    yi <- gets (fun s => THREE.getY (position (transpiration s)) i) ;;
    when (Qgtb yi 30) (respawnAtEmitter host i)).

(** The evaporation loop of [updateParticles(dt)]. *)
Definition updateEvaporation (host : Host) (dt : Q) : Exec Sim unit :=
  n <- gets (fun s => THREE.count (position (evaporation s))) ;;
  forRange 0 n (fun i =>
    onEvaporation (fun s a =>
      THREE.setY i
        (THREE.getY a i + THREE.read (vel (evaporation s)) (i * 3 + 1) * dt * evap (params s))
        a) ;;
    onEvaporation (fun s a =>
      THREE.setX i
        (THREE.getX a i
         + THREE.read (vel (evaporation s)) (i * 3 + 0)
         + windSpeed (params s) * 0.01 * dt) a) ;;
    yi <- gets (fun s => THREE.getY (position (evaporation s)) i) ;;
    nonempty <- gets (fun s => negb (Nat.eqb (length (waterBodies s)) 0)) ;;
    when (Qgtb yi 25 && nonempty) (respawnOnWater host i)).

Definition updateParticles (host : Host) (dt : Q) : Exec Sim unit :=
  modify (fun s => withShown (transp (params s)) (evap (params s)) s) ;;
  updateTranspiration host dt ;;
  modify (fun s =>
    withTranspiration (withOpacity (0.3 + humidF (params s) * 0.3) (transpiration s)) s) ;;
  updateEvaporation host dt ;;
  modify (fun s =>
    withEvaporation (withOpacity (0.2 + humidF (params s) * 0.3) (evaporation s)) s).

(** The reset button's handler. *)
Definition onReset : Exec Sim unit :=
  modify (withParams {| temperature := 25; humidity := 50; windSpeed := 5 |}).

(** *** Read-outs for the proofs *)

(** Transpiration particle [i] after the move of a pass, before the ceiling
    test. *)
Definition movedTranspiration (dt : Q) (s : Sim) (i : nat) : Q * Q * Q :=
  let a := position (transpiration s) in
  let v := vel (transpiration s) in
  (THREE.getX a i + THREE.read v (i * 3 + 0) + windSpeed (params s) * 0.01 * dt,
   THREE.getY a i + THREE.read v (i * 3 + 1) * dt * transp (params s),
   THREE.getZ a i).

(** Evaporation particle [i] after the move of a pass, before the ceiling
    test. *)
Definition movedEvaporation (dt : Q) (s : Sim) (i : nat) : Q * Q * Q :=
  let a := position (evaporation s) in
  let v := vel (evaporation s) in
  (THREE.getX a i + THREE.read v (i * 3 + 0) + windSpeed (params s) * 0.01 * dt,
   THREE.getY a i + THREE.read v (i * 3 + 1) * dt * evap (params s),
   THREE.getZ a i).

(** Where a transpiration particle can be put back: in the box of a tree
    emitter, or of the origin when there is no emitter.  It is the formula
    [createParticles] places the pool with. *)
Definition transpirationSpawn (s : Sim) (o : Q * Q * Q) : Prop :=
  exists p r1 r2 r3,
    (In p (treeEmitters s) \/ (treeEmitters s = [] /\ p = THREE.origin))
    /\ unitDraw r1 /\ unitDraw r2 /\ unitDraw r3
    /\ o = (THREE.x p + (r1 - 0.5) * 2, THREE.y p + r2 * 3, THREE.z p + (r3 - 0.5) * 2).

(** Where an evaporation particle can be put back: on the surface of a lake,
    by the formula [createParticles] places the pool with. *)
Definition evaporationSpawn (s : Sim) (o : Q * Q * Q) : Prop :=
  exists wb r1 r2,
    In wb (waterBodies s)
    /\ unitDraw r1 /\ unitDraw r2
    /\ o = (THREE.x (at_ wb) + (r1 - 0.5) * w wb, 0.12,
            THREE.z (at_ wb) + (r2 - 0.5) * h wb).

(** What a pass may do to transpiration particle [i]: recycle it when the
    move took it above 30, leave it where the move took it otherwise. *)
Definition transpirationOutcome (dt : Q) (s s' : Sim) (i : nat) : Prop :=
  let '(_, y1, _) := movedTranspiration dt s i in
  if Qgtb y1 30
  then transpirationSpawn s (particle (position (transpiration s')) i)
  else particle (position (transpiration s')) i = movedTranspiration dt s i.

(** The same for evaporation particle [i], with the ceiling at 25 and no
    recycling without a lake. *)
Definition evaporationOutcome (dt : Q) (s s' : Sim) (i : nat) : Prop :=
  let '(_, y1, _) := movedEvaporation dt s i in
  if Qgtb y1 25 && negb (Nat.eqb (length (waterBodies s)) 0)
  then evaporationSpawn s (particle (position (evaporation s')) i)
  else particle (position (evaporation s')) i = movedEvaporation dt s i.

(** What the transpiration loop leaves alone. *)
Definition besidesTranspiration (t : Sim) :=
  (params t, waterBodies t, treeEmitters t, evaporation t,
   vel (transpiration t), opacity (transpiration t),
   length (position (transpiration t))).

(** What the evaporation loop leaves alone. *)
Definition besidesEvaporation (t : Sim) :=
  (params t, waterBodies t, treeEmitters t, transpiration t,
   vel (evaporation t), opacity (evaporation t),
   length (position (evaporation t))).

(** The states after [n] frames of [updateParticles(dt)]. *)
Fixpoint afterFrames (host : Host) (dt : Q) (n : nat) (s : Sim) : Sim :=
  match n with
  | O => s
  | S n' => afterFrames host dt n' (finalState (updateParticles host dt s))
  end.

(** A frame lasts 1/60 s. *)
Definition frameTime : Q := 1 # 60.

(** The coldest and most humid setting of the sliders (temperature 10,
    humidity 90, where [transp] is 0), the default wind, and one transpiration
    particle just above the emitter at (-10, 8, 5), drifting in x. *)
Definition stillSim : Sim :=
  {| isPlaying := true;
     params := {| temperature := 10; humidity := 90; windSpeed := 5 |};
     waterBodies := createWaterBodies;
     treeEmitters := [ {| THREE.x := -10; THREE.y := 8; THREE.z := 5 |} ];
     transpiration := {| position := [-10; 9.5; 5]; vel := [0.02; 0.2; 0]; opacity := 0.55 |};
     evaporation := {| position := []; vel := []; opacity := 0.5 |};
     shownTranspiration := 0;
     shownEvaporation := 0;
     randomCalls := 0 |}.


(** *** [createParticles] *)

(** [for (let i = 0; i < count; i++)] over the two arrays being filled,
    which are locals of [createParticles] until the loop is over: [k] counts
    the particles already placed, [n] those still to place. *)
Fixpoint fillPoints (step : nat -> Points -> Exec Sim Points) (k n : nat) (p : Points)
  : Exec Sim Points :=
  match n with
  | O => ret p
  | S n' =>
      p' <- step k p ;;
      fillPoints step (S k) n' p'
  end.

(** The loop body of the transpiration half at [i]. *)
Definition seedTranspiration (host : Host) (i : nat) (p : Points) : Exec Sim Points :=
  r <- random host ;;
  emitters <- gets treeEmitters ;;
  let e := default THREE.origin (pick emitters r) in
  r1 <- random host ;;
  r2 <- random host ;;
  r3 <- random host ;;
  r4 <- random host ;;
  r5 <- random host ;;
  r6 <- random host ;;
  ret {| position :=
           <[(i * 3 + 2)%nat := THREE.z e + (r3 - 0.5) * 2]>
             (<[(i * 3 + 1)%nat := THREE.y e + r2 * 3]>
                (<[(i * 3 + 0)%nat := THREE.x e + (r1 - 0.5) * 2]> (position p)));
         vel :=
           <[(i * 3 + 2)%nat := (r6 - 0.5) * 0.08]>
             (<[(i * 3 + 1)%nat := r5 * 0.2 + 0.1]>
                (<[(i * 3 + 0)%nat := (r4 - 0.5) * 0.08]> (vel p)));
         opacity := opacity p |}.

(** The loop body of the evaporation half at [i]: the position is written
    only when there is a lake. *)
Definition seedEvaporation (host : Host) (i : nat) (p : Points) : Exec Sim Points :=
  bodies <- gets waterBodies ;;
  pos <- (if negb (Nat.eqb (length bodies) 0) then
            r <- random host ;;
            match pick bodies r with
            | None => throw TypeError
            | Some wb =>
                r1 <- random host ;;
                r2 <- random host ;;
                ret (<[(i * 3 + 2)%nat := THREE.z (at_ wb) + (r2 - 0.5) * h wb]>
                       (<[(i * 3 + 1)%nat := 0.12]>
                          (<[(i * 3 + 0)%nat := THREE.x (at_ wb) + (r1 - 0.5) * w wb]>
                             (position p))))
            end
          else ret (position p)) ;;
  r3 <- random host ;;
  r4 <- random host ;;
  r5 <- random host ;;
  ret {| position := pos;
         vel :=
           <[(i * 3 + 2)%nat := (r5 - 0.5) * 0.05]>
             (<[(i * 3 + 1)%nat := r4 * 0.15 + 0.05]>
                (<[(i * 3 + 0)%nat := (r3 - 0.5) * 0.05]> (vel p)));
         opacity := opacity p |}.

(** Two zeroed [Float32Array]s for [count] particles under a material of
    the given opacity. *)
Definition blankPoints (count : nat) (o : Q) : Points :=
  {| position := replicate (count * 3) 0; vel := replicate (count * 3) 0; opacity := o |}.

(** The body of [createParticles], for [tCount] transpiration and [eCount]
    evaporation particles. *)
Definition createParticlesN (host : Host) (tCount eCount : nat) : Exec Sim unit :=
  t <- fillPoints (seedTranspiration host) 0 tCount (blankPoints tCount 0.55) ;;
  modify (withTranspiration t) ;;
  e <- fillPoints (seedEvaporation host) 0 eCount (blankPoints eCount 0.5) ;;
  modify (withEvaporation e).

Definition createParticles (host : Host) : Exec Sim unit :=
  createParticlesN host 600 600.

(** What the draws of [createParticles] leave alone in the simulation. *)
Definition besidesDraws (s : Sim) :=
  (isPlaying s, params s, waterBodies s, treeEmitters s, transpiration s, evaporation s,
   shownTranspiration s, shownEvaporation s).

(** Particle [k] of a pool: position and velocity. *)
Definition seeded (p : Points) (k : nat) : (Q * Q * Q) * (Q * Q * Q) :=
  (particle (position p) k, particle (vel p) k).

(** Particle [k] is within the arrays of the pool. *)
Definition inPoints (p : Points) (k : nat) : Prop :=
  (k * 3 + 2 < length (position p))%nat /\ (k * 3 + 2 < length (vel p))%nat.

(** A transpiration particle as [createParticles] places it, from draws of
    its own: the emitter's box for the position, three draws for the
    velocity. *)
Definition transpirationSeed (s : Sim) (p : (Q * Q * Q) * (Q * Q * Q)) : Prop :=
  let '(o, v) := p in
  transpirationSpawn s o
  /\ exists r4 r5 r6,
       unitDraw r4 /\ unitDraw r5 /\ unitDraw r6
       /\ v = ((r4 - 0.5) * 0.08, r5 * 0.2 + 0.1, (r6 - 0.5) * 0.08).

(** An evaporation particle as [createParticles] places it: on a lake, or
    left at the origin when there is no lake; three draws for the velocity. *)
Definition evaporationSeed (s : Sim) (p : (Q * Q * Q) * (Q * Q * Q)) : Prop :=
  let '(o, v) := p in
  (if Nat.eqb (length (waterBodies s)) 0 then o = (0, 0, 0) else evaporationSpawn s o)
  /\ exists r3 r4 r5,
       unitDraw r3 /\ unitDraw r4 /\ unitDraw r5
       /\ v = ((r3 - 0.5) * 0.05, r4 * 0.15 + 0.05, (r5 - 0.5) * 0.05).

(** A particle whose velocity points upward. *)
Definition rising (p : (Q * Q * Q) * (Q * Q * Q)) : Prop :=
  let '(_, (_, vy, _)) := p in 0 < vy.

(** The settings the sliders of the page allow. *)
Definition onSliders (p : Params) : Prop :=
  10 <= temperature p <= 40 /\ 20 <= humidity p <= 90 /\ 0 <= windSpeed p <= 20.

End Part000.

(** * src/unnamed/part_001 *)

Module Part001.

Record ClimateParams : Type := {
  temperature : Q;
  temperatureChange : Q;
  precipitationIntensity : Q;
  evaporationRate : Q;
  iceMelting : Q;
  seaLevel : Q
}.

(** One particle system: the position array and its [userData]. *)
Record System : Type := {
  positions : list Q;
  velocities : list Q;
  lifetimes : list Q;
  maxLifetime : Q
}.

(** [this.particles] *)
Record Particles : Type := {
  evaporation : list System;
  transpiration : list System;
  precipitation : list System;
  runoff : list System
}.

(** The fields of [this] the simulation logic reads or writes; page text,
    the sun's glow and the ice caps' scale are display only and left out. *)
Record Sim : Type := {
  climateParams : ClimateParams;
  isPlaying : bool;
  animationSpeed : Q;
  trees : list THREE.Vector3;
  particles : Particles;
  randomCalls : nat
}.

Definition withClimateParams (v : ClimateParams) (s : Sim) : Sim :=
  {| climateParams := v; isPlaying := isPlaying s; animationSpeed := animationSpeed s;
     trees := trees s; particles := particles s; randomCalls := randomCalls s |}.

Definition withParticles (v : Particles) (s : Sim) : Sim :=
  {| climateParams := climateParams s; isPlaying := isPlaying s;
     animationSpeed := animationSpeed s; trees := trees s; particles := v;
     randomCalls := randomCalls s |}.

Definition withRandomCalls (v : nat) (s : Sim) : Sim :=
  {| climateParams := climateParams s; isPlaying := isPlaying s;
     animationSpeed := animationSpeed s; trees := trees s; particles := particles s;
     randomCalls := v |}.

Definition withIsPlaying (v : bool) (s : Sim) : Sim :=
  {| climateParams := climateParams s; isPlaying := v;
     animationSpeed := animationSpeed s; trees := trees s; particles := particles s;
     randomCalls := randomCalls s |}.

(** [Math.random()] *)
Definition random (host : Host) : Exec Sim Q :=
  r <- gets (fun s => Math_random host (randomCalls s)) ;;
  modify (fun s => withRandomCalls (S (randomCalls s)) s) ;;
  ret r.

(** The constructor's climate parameters; also what [resetSimulation] stores. *)
Definition defaultClimate : ClimateParams :=
  {| temperature := 15;
     temperatureChange := 0;
     precipitationIntensity := 1.0;
     evaporationRate := 1.0;
     iceMelting := 0;
     seaLevel := 0 |}.

(** The constructor's field initialisers, before [init()] runs. *)
Definition newSim : Sim :=
  {| climateParams := defaultClimate;
     isPlaying := true;
     animationSpeed := 1.0;
     trees := [];
     particles := {| evaporation := []; transpiration := [];
                     precipitation := []; runoff := [] |};
     randomCalls := 0 |}.

(** *** The handlers of [setupControls] *)

Definition onTemperatureInput (v : Q) : Exec Sim unit :=
  modify (fun s =>
    let c := climateParams s in
    withClimateParams
      {| temperature := temperature c; temperatureChange := v;
         precipitationIntensity := precipitationIntensity c;
         evaporationRate := evaporationRate c; iceMelting := iceMelting c;
         seaLevel := seaLevel c |} s) ;;
  modify (fun s =>
    let c := climateParams s in
    withClimateParams
      {| temperature := 15 + temperatureChange c; temperatureChange := temperatureChange c;
         precipitationIntensity := precipitationIntensity c;
         evaporationRate := evaporationRate c; iceMelting := iceMelting c;
         seaLevel := seaLevel c |} s).

Definition onPrecipitationInput (v : Q) : Exec Sim unit :=
  modify (fun s =>
    let c := climateParams s in
    withClimateParams
      {| temperature := temperature c; temperatureChange := temperatureChange c;
         precipitationIntensity := v;
         evaporationRate := evaporationRate c; iceMelting := iceMelting c;
         seaLevel := seaLevel c |} s).

Definition onEvaporationInput (v : Q) : Exec Sim unit :=
  modify (fun s =>
    let c := climateParams s in
    withClimateParams
      {| temperature := temperature c; temperatureChange := temperatureChange c;
         precipitationIntensity := precipitationIntensity c;
         evaporationRate := v; iceMelting := iceMelting c;
         seaLevel := seaLevel c |} s).

Definition onIceMeltingInput (v : Q) : Exec Sim unit :=
  modify (fun s =>
    let c := climateParams s in
    withClimateParams
      {| temperature := temperature c; temperatureChange := temperatureChange c;
         precipitationIntensity := precipitationIntensity c;
         evaporationRate := evaporationRate c; iceMelting := v;
         seaLevel := seaLevel c |} s).

Definition togglePlayPause : Exec Sim unit :=
  modify (fun s => withIsPlaying (negb (isPlaying s)) s).

Definition resetSimulation : Exec Sim unit :=
  modify (withClimateParams defaultClimate).

Definition loadClimateScenario : Exec Sim unit :=
  modify (fun s =>
    let c := climateParams s in
    withClimateParams
      {| temperature := 18.5; temperatureChange := 3.5;
         precipitationIntensity := 1.5;
         evaporationRate := 1.7; iceMelting := 1.5;
         seaLevel := seaLevel c |} s).

(** Everything the page can do to the climate parameters. *)
Inductive ClimateOp : Type :=
| TemperatureInput (v : Q)
| PrecipitationInput (v : Q)
| EvaporationInput (v : Q)
| IceMeltingInput (v : Q)
| ResetSimulation
| LoadClimateScenario.

Definition runClimateOp (op : ClimateOp) : Exec Sim unit :=
  match op with
  | TemperatureInput v => onTemperatureInput v
  | PrecipitationInput v => onPrecipitationInput v
  | EvaporationInput v => onEvaporationInput v
  | IceMeltingInput v => onIceMeltingInput v
  | ResetSimulation => resetSimulation
  | LoadClimateScenario => loadClimateScenario
  end.

(** *** The transpiration pass of [updateParticles] *)

(** The body of [for (let i = 0; i < positions.length; i += 3)] at
    [i = k * 3], on one transpiration system.  The random draws are made
    on the simulation; the system is threaded explicitly. *)
Definition transpirationStep (host : Host) (k : nat) (sys : System) : Exec Sim System :=
  let i := (k * 3)%nat in
  let i1 := k in
  let pos := positions sys in
  let pos := <[i := THREE.read pos i + THREE.read (velocities sys) i]> pos in
  let pos := <[(i + 1)%nat := THREE.read pos (i + 1) + THREE.read (velocities sys) (i + 1)]> pos in
  let pos := <[(i + 2)%nat := THREE.read pos (i + 2) + THREE.read (velocities sys) (i + 2)]> pos in
  speed <- gets animationSpeed ;;
  let life := <[i1 := THREE.read (lifetimes sys) i1 + speed]> (lifetimes sys) in
  if Qgtb (THREE.read life i1) (maxLifetime sys) || Qgtb (THREE.read pos (i + 1)) 20 then
    r <- random host ;;
    ts <- gets trees ;;
    match pick ts r with
    | Some tree =>
        r1 <- random host ;;
        r2 <- random host ;;
        ret {| positions :=
                 <[(i + 2)%nat := THREE.z tree + (r2 - 0.5) * 4]>
                   (<[(i + 1)%nat := THREE.y tree + 4]>
                      (<[i := THREE.x tree + (r1 - 0.5) * 4]> pos));
               velocities := velocities sys;
               lifetimes := <[i1 := 0]> life;
               maxLifetime := maxLifetime sys |}
    | None =>
        ret {| positions := pos; velocities := velocities sys;
               lifetimes := life; maxLifetime := maxLifetime sys |}
    end
  else
    ret {| positions := pos; velocities := velocities sys;
           lifetimes := life; maxLifetime := maxLifetime sys |}.

(** The loop over one system: [k] counts the particles already done,
    [n] those still to do. *)
Fixpoint transpirationLoop (host : Host) (k n : nat) (sys : System) : Exec Sim System :=
  match n with
  | O => ret sys
  | S n' =>
      sys' <- transpirationStep host k sys ;;
      transpirationLoop host (S k) n' sys'
  end.

(** Number of iterations of [for (let i = 0; i < len; i += 3)]. *)
Definition strides (len : nat) : nat := ((len + 2) / 3)%nat.

Definition updateTranspirationSystem (host : Host) (sys : System) : Exec Sim System :=
  transpirationLoop host 0 (strides (length (positions sys))) sys.

(** [this.particles.transpiration.forEach(system => ...)] *)
Fixpoint forEachSystem (f : System -> Exec Sim System) (l : list System)
  : Exec Sim (list System) :=
  match l with
  | [] => ret []
  | sys :: rest =>
      sys' <- f sys ;;
      rest' <- forEachSystem f rest ;;
      ret (sys' :: rest')
  end.

Definition updateTranspiration (host : Host) : Exec Sim unit :=
  systems <- gets (fun s => transpiration (particles s)) ;;
  systems' <- forEachSystem (updateTranspirationSystem host) systems ;;
  modify (fun s =>
    let p := particles s in
    withParticles
      {| evaporation := evaporation p; transpiration := systems';
         precipitation := precipitation p; runoff := runoff p |} s).

(** *** Read-outs for the proofs *)

(** The climate record is consistent when the temperature is the base
    temperature of 15 degrees plus the change. *)
Definition consistent (c : ClimateParams) : Prop :=
  temperature c == 15 + temperatureChange c.

(** The state after a sequence of page operations. *)
Fixpoint runClimateOps (ops : list ClimateOp) (s : Sim) : Sim :=
  match ops with
  | [] => s
  | op :: rest => runClimateOps rest (finalState (runClimateOp op s))
  end.

(** Where a transpiration particle can be put back: in the box of a tree, by
    the formula [createTranspirationSystem] places a system with. *)
Definition transpirationSpawn (ts : list THREE.Vector3) (o : Q * Q * Q) : Prop :=
  exists tree r1 r2,
    In tree ts
    /\ unitDraw r1 /\ unitDraw r2
    /\ o = (THREE.x tree + (r1 - 0.5) * 4, THREE.y tree + 4, THREE.z tree + (r2 - 0.5) * 4).

(** What the loop body may do to a particle at [(x, y, z)] with velocity
    [(vx, vy, vz)] and lifetime [life]: when the lifetime has run out or the
    move took it above 20, and there is a tree, put it back at a tree with
    lifetime 0; otherwise leave it where the move took it, a tick older. *)
Definition outcomeOf (o v : Q * Q * Q) (life maxLife speed : Q)
    (ts : list THREE.Vector3) (o' : Q * Q * Q) (life' : Q) : Prop :=
  let '(x, y, z) := o in
  let '(vx, vy, vz) := v in
  if (Qgtb (life + speed) maxLife || Qgtb (y + vy) 20) && negb (Nat.eqb (length ts) 0)
  then transpirationSpawn ts o' /\ life' = 0
  else o' = (x + vx, y + vy, z + vz) /\ life' = life + speed.

(** Particle [k] is within the arrays of the system. *)
Definition inSystem (sys : System) (k : nat) : Prop :=
  (k * 3 + 2 < length (positions sys))%nat /\ (k < length (lifetimes sys))%nat.

Definition transpirationOutcome (speed : Q) (ts : list THREE.Vector3)
    (sys sys' : System) (k : nat) : Prop :=
  outcomeOf (particle (positions sys) k) (particle (velocities sys) k)
    (THREE.read (lifetimes sys) k) (maxLifetime sys) speed ts
    (particle (positions sys') k) (THREE.read (lifetimes sys') k).

(** Two systems of the same shape: same velocities and lifetime limit, arrays
    of the same lengths. *)
Definition sameShape (sys sys' : System) : Prop :=
  velocities sys' = velocities sys
  /\ maxLifetime sys' = maxLifetime sys
  /\ length (positions sys') = length (positions sys)
  /\ length (lifetimes sys') = length (lifetimes sys).

(** What the draws and reads of the transpiration pass leave alone in the
    simulation. *)
Definition besidesDraws (s : Sim) :=
  (climateParams s, isPlaying s, animationSpeed s, trees s, particles s).

(** What the transpiration pass makes of one system, under animation speed
    [speed] and trees [ts]. *)
Definition systemOutcome (speed : Q) (ts : list THREE.Vector3) (sys sys' : System) : Prop :=
  sameShape sys sys'
  /\ forall j, inSystem sys j -> transpirationOutcome speed ts sys sys' j.


(** *** The evaporation pass of [updateParticles] *)

(** The body of [for (let i = 0; i < positions.length; i += 3)] at
    [i = k * 3], on one evaporation system. *)
Definition evaporationStep (host : Host) (k : nat) (sys : System) : Exec Sim System :=
  let i := (k * 3)%nat in
  let i1 := k in
  rate <- gets (fun s => evaporationRate (climateParams s)) ;;
  let pos := positions sys in
  let pos := <[i := THREE.read pos i + THREE.read (velocities sys) i * rate]> pos in
  let pos :=
    <[(i + 1)%nat := THREE.read pos (i + 1) + THREE.read (velocities sys) (i + 1) * rate]>
      pos in
  let pos :=
    <[(i + 2)%nat := THREE.read pos (i + 2) + THREE.read (velocities sys) (i + 2) * rate]>
      pos in
  speed <- gets animationSpeed ;;
  let life := <[i1 := THREE.read (lifetimes sys) i1 + speed]> (lifetimes sys) in
  if Qgtb (THREE.read life i1) (maxLifetime sys) || Qgtb (THREE.read pos (i + 1)) 25 then
    r1 <- random host ;;
    r2 <- random host ;;
    ret {| positions :=
             <[(i + 2)%nat := (r2 - 0.5) * 50]>
               (<[(i + 1)%nat := 0.5]>
                  (<[i := (r1 - 0.5) * 50]> pos));
           velocities := velocities sys;
           lifetimes := <[i1 := 0]> life;
           maxLifetime := maxLifetime sys |}
  else
    ret {| positions := pos; velocities := velocities sys;
           lifetimes := life; maxLifetime := maxLifetime sys |}.

Fixpoint evaporationLoop (host : Host) (k n : nat) (sys : System) : Exec Sim System :=
  match n with
  | O => ret sys
  | S n' =>
      sys' <- evaporationStep host k sys ;;
      evaporationLoop host (S k) n' sys'
  end.

Definition updateEvaporationSystem (host : Host) (sys : System) : Exec Sim System :=
  evaporationLoop host 0 (strides (length (positions sys))) sys.

Definition updateEvaporation (host : Host) : Exec Sim unit :=
  systems <- gets (fun s => evaporation (particles s)) ;;
  systems' <- forEachSystem (updateEvaporationSystem host) systems ;;
  modify (fun s =>
    let p := particles s in
    withParticles
      {| evaporation := systems'; transpiration := transpiration p;
         precipitation := precipitation p; runoff := runoff p |} s).

(** Where an evaporation particle is put back: on the plane y = 0.5, within
    25 of the centre, by the formula [createEvaporationSystem] places the
    system with. *)
Definition evaporationSpawn (o : Q * Q * Q) : Prop :=
  exists r1 r2,
    unitDraw r1 /\ unitDraw r2 /\ o = ((r1 - 0.5) * 50, 0.5, (r2 - 0.5) * 50).

(** What the loop body may do to an evaporation particle at [(x, y, z)] with
    velocity [(vx, vy, vz)] and lifetime [life]: when the lifetime has run
    out or the move took it above 25, put it back on the plane with lifetime
    0; otherwise leave it where the move took it, a tick older. *)
Definition evaporationOutcomeOf (o v : Q * Q * Q) (life maxLife rate speed : Q)
    (o' : Q * Q * Q) (life' : Q) : Prop :=
  let '(x, y, z) := o in
  let '(vx, vy, vz) := v in
  if Qgtb (life + speed) maxLife || Qgtb (y + vy * rate) 25
  then evaporationSpawn o' /\ life' = 0
  else o' = (x + vx * rate, y + vy * rate, z + vz * rate) /\ life' = life + speed.

Definition evaporationOutcome (rate speed : Q) (sys sys' : System) (k : nat) : Prop :=
  evaporationOutcomeOf (particle (positions sys) k) (particle (velocities sys) k)
    (THREE.read (lifetimes sys) k) (maxLifetime sys) rate speed
    (particle (positions sys') k) (THREE.read (lifetimes sys') k).

(** What the evaporation pass makes of one system, under evaporation rate
    [rate] and animation speed [speed]. *)
Definition evaporationSystemOutcome (rate speed : Q) (sys sys' : System) : Prop :=
  sameShape sys sys'
  /\ forall j, inSystem sys j -> evaporationOutcome rate speed sys sys' j.

(** Every particle of the system is within its lifetime and at or below the
    altitude [ceiling]. *)
Definition withinLimits (ceiling : Q) (sys : System) : Prop :=
  forall j, inSystem sys j ->
    THREE.read (lifetimes sys) j <= maxLifetime sys
    /\ THREE.getY (positions sys) j <= ceiling.

(** The simulation after [n] evaporation passes. *)
Fixpoint afterEvaporationPasses (host : Host) (n : nat) (s : Sim) : Sim :=
  match n with
  | O => s
  | S n' => afterEvaporationPasses host n' (finalState (updateEvaporation host s))
  end.

(** *** [createEvaporationSystem] and [createTranspirationSystem] *)

(** The arrays a [create...System] function allocates for [count]
    particles, before its loop fills them. *)
Definition blankSystem (count : nat) (maxLife : Q) : System :=
  {| positions := replicate (count * 3) 0;
     velocities := replicate (count * 3) 0;
     lifetimes := replicate count 0;
     maxLifetime := maxLife |}.

(** [for (let i = 0; i < particleCount; i++)] over the arrays being filled:
    [k] counts the particles already placed, [n] those still to place. *)
Fixpoint seedLoop (step : nat -> System -> Exec Sim System) (k n : nat) (sys : System)
  : Exec Sim System :=
  match n with
  | O => ret sys
  | S n' =>
      sys' <- step k sys ;;
      seedLoop step (S k) n' sys'
  end.

(** The loop body of [createEvaporationSystem] at [i = k]. *)
Definition seedEvaporation (host : Host) (k : nat) (sys : System) : Exec Sim System :=
  let i3 := (k * 3)%nat in
  r1 <- random host ;;
  r2 <- random host ;;
  r3 <- random host ;;
  r4 <- random host ;;
  r5 <- random host ;;
  r6 <- random host ;;
  ret {| positions :=
           <[(i3 + 2)%nat := (r2 - 0.5) * 50]>
             (<[(i3 + 1)%nat := 0.5]>
                (<[i3 := (r1 - 0.5) * 50]> (positions sys)));
         velocities :=
           <[(i3 + 2)%nat := (r5 - 0.5) * 0.02]>
             (<[(i3 + 1)%nat := 0.05 + r4 * 0.03]>
                (<[i3 := (r3 - 0.5) * 0.02]> (velocities sys)));
         lifetimes := <[k := r6 * 100]> (lifetimes sys);
         maxLifetime := maxLifetime sys |}.

(** The body of [createEvaporationSystem], for [count] particles. *)
Definition createEvaporationSystemN (host : Host) (count : nat) : Exec Sim unit :=
  sys <- seedLoop (seedEvaporation host) 0 count (blankSystem count 100) ;;
  modify (fun s =>
    let p := particles s in
    withParticles
      {| evaporation := evaporation p ++ [sys]; transpiration := transpiration p;
         precipitation := precipitation p; runoff := runoff p |} s).

Definition createEvaporationSystem (host : Host) : Exec Sim unit :=
  createEvaporationSystemN host 100.

(** The loop body of [createTranspirationSystem] at [i = k], for the system
    of [tree]. *)
Definition seedTranspiration (host : Host) (tree : THREE.Vector3) (k : nat) (sys : System)
  : Exec Sim System :=
  let i3 := (k * 3)%nat in
  r1 <- random host ;;
  r2 <- random host ;;
  r3 <- random host ;;
  r4 <- random host ;;
  r5 <- random host ;;
  r6 <- random host ;;
  ret {| positions :=
           <[(i3 + 2)%nat := THREE.z tree + (r2 - 0.5) * 4]>
             (<[(i3 + 1)%nat := THREE.y tree + 4]>
                (<[i3 := THREE.x tree + (r1 - 0.5) * 4]> (positions sys)));
         velocities :=
           <[(i3 + 2)%nat := (r5 - 0.5) * 0.01]>
             (<[(i3 + 1)%nat := 0.03 + r4 * 0.02]>
                (<[i3 := (r3 - 0.5) * 0.01]> (velocities sys)));
         lifetimes := <[k := r6 * 80]> (lifetimes sys);
         maxLifetime := maxLifetime sys |}.

(** [this.trees.forEach(tree => ...)] of [createTranspirationSystem], with
    [count] particles per tree. *)
Fixpoint forEachTree (host : Host) (count : nat) (ts : list THREE.Vector3)
  : Exec Sim unit :=
  match ts with
  | [] => ret tt
  | tree :: rest =>
      sys <- seedLoop (seedTranspiration host tree) 0 count (blankSystem count 80) ;;
      modify (fun s =>
        let p := particles s in
        withParticles
          {| evaporation := evaporation p; transpiration := transpiration p ++ [sys];
             precipitation := precipitation p; runoff := runoff p |} s) ;;
      forEachTree host count rest
  end.

Definition createTranspirationSystemN (host : Host) (count : nat) : Exec Sim unit :=
  ts <- gets trees ;;
  forEachTree host count ts.

Definition createTranspirationSystem (host : Host) : Exec Sim unit :=
  createTranspirationSystemN host 20.

(** What a filling loop has written for particle [k]: position, velocity
    and lifetime. *)
Definition seeded (sys : System) (k : nat) : (Q * Q * Q) * (Q * Q * Q) * Q :=
  (particle (positions sys) k, particle (velocities sys) k, THREE.read (lifetimes sys) k).

(** The sizes of a system's arrays and its lifetime limit. *)
Definition sizes (sys : System) : nat * nat * nat * Q :=
  (length (positions sys), length (velocities sys), length (lifetimes sys),
   maxLifetime sys).

(** A particle as [createEvaporationSystem] places it, from six draws of
    its own: two for the position, three for the velocity, one for the
    lifetime. *)
Definition evaporationSeed (p : (Q * Q * Q) * (Q * Q * Q) * Q) : Prop :=
  let '(o, v, life) := p in
  evaporationSpawn o
  /\ (exists r3 r4 r5,
        unitDraw r3 /\ unitDraw r4 /\ unitDraw r5
        /\ v = ((r3 - 0.5) * 0.02, 0.05 + r4 * 0.03, (r5 - 0.5) * 0.02))
  /\ (exists r6, unitDraw r6 /\ life = r6 * 100).

(** A particle as [createTranspirationSystem] places it at [tree], from six
    draws of its own. *)
Definition transpirationSeed (tree : THREE.Vector3) (p : (Q * Q * Q) * (Q * Q * Q) * Q)
  : Prop :=
  let '(o, v, life) := p in
  transpirationSpawn [tree] o
  /\ (exists r3 r4 r5,
        unitDraw r3 /\ unitDraw r4 /\ unitDraw r5
        /\ v = ((r3 - 0.5) * 0.01, 0.03 + r4 * 0.02, (r5 - 0.5) * 0.01))
  /\ (exists r6, unitDraw r6 /\ life = r6 * 80).

(** A particle that rises and whose lifetime is within the limit
    [maxLife]. *)
Definition risingWithin (maxLife : Q) (p : (Q * Q * Q) * (Q * Q * Q) * Q) : Prop :=
  let '(_, (_, vy, _), life) := p in
  0 < vy /\ 0 <= life <= maxLife.

(** *** [createTrees] *)

Definition withTrees (v : list THREE.Vector3) (s : Sim) : Sim :=
  {| climateParams := climateParams s; isPlaying := isPlaying s;
     animationSpeed := animationSpeed s; trees := v; particles := particles s;
     randomCalls := randomCalls s |}.

(** The body of [createTrees], for [n] candidate sites.  The height query
    is passed in: [getTerrainHeight] is a pure function of x and z, given
    over the reals in [Terrain]. *)
Definition createTreesN (host : Host) (getTerrainHeight : Q -> Q -> Q) (n : nat)
  : Exec Sim unit :=
  forRange 0 n (fun _ =>
    r1 <- random host ;;
    r2 <- random host ;;
    let x := (r1 - 0.5) * 60 in
    let z := (r2 - 0.5) * 60 in
    let y := getTerrainHeight x z in
    when (Qgtb y 2)
      (modify (fun s =>
         withTrees (trees s ++ [ {| THREE.x := x; THREE.y := y; THREE.z := z |} ]) s))).

Definition createTrees (host : Host) (getTerrainHeight : Q -> Q -> Q) : Exec Sim unit :=
  createTreesN host getTerrainHeight 20.

(** A tree as [createTrees] plants it: within 30 of the centre, on the
    terrain, and only on ground above 2. *)
Definition planted (getTerrainHeight : Q -> Q -> Q) (tree : THREE.Vector3) : Prop :=
  -30 <= THREE.x tree < 30 /\ -30 <= THREE.z tree < 30
  /\ THREE.y tree = getTerrainHeight (THREE.x tree) (THREE.z tree)
  /\ 2 < THREE.y tree.

(** A scene with one tree at (10, 5, -10), an evaporation system and the
    tree's transpiration system, of two particles each: small enough to
    evaluate. *)
Definition groveSim : Sim :=
  finalState
    ((createEvaporationSystemN flatHost 2 ;; createTranspirationSystemN flatHost 2)
       {| climateParams := defaultClimate;
          isPlaying := true;
          animationSpeed := 1.0;
          trees := [ {| THREE.x := 10; THREE.y := 5; THREE.z := -10 |} ];
          particles := {| evaporation := []; transpiration := [];
                          precipitation := []; runoff := [] |};
          randomCalls := 0 |}).

End Part001.

(** * src/unnamed/part_001: the terrain, over the reals *)

Module Terrain.

Local Open Scope R_scope.

(** [getTerrainHeight(x, z)] *)
Definition getTerrainHeight (x z : R) : R :=
  let height := 0 in
  let height := height + sin (x * 0.1) * cos (z * 0.1) * 8 in
  let height := height + sin (x * 0.05) * cos (z * 0.05) * 15 in
  let height :=
    if Rlt_dec (Rabs x) 20 then
      if Rlt_dec (Rabs z) 20 then height * 0.3 else height
    else height in
  Rmax height (-2).

(** The value [createTerrain] stores in [vertices[i + 1]] for the vertex
    with [vertices[i] = x] and [vertices[i + 2] = z], when the call of
    [Math.random()] in the loop body returns [r]. *)
Definition vertexHeight (x z r : R) : R :=
  let height := 0 in
  let height := height + sin (x * 0.1) * cos (z * 0.1) * 8 in
  let height := height + sin (x * 0.05) * cos (z * 0.05) * 15 in
  let height := height + r * 2 in
  let height :=
    if Rlt_dec (Rabs x) 20 then
      if Rlt_dec (Rabs z) 20 then height * 0.3 else height
    else height in
  Rmax height (-2).

(** The height-map loop of [createTerrain] over the vertex array
    (x, y, z, x, y, z, ...); [random k] is the draw of the [k]-th
    iteration. *)
Fixpoint heightMap (random : nat -> R) (k : nat) (vertices : list R) : list R :=
  match vertices with
  | x :: _ :: z :: rest =>
      x :: vertexHeight x z (random k) :: z :: heightMap random (S k) rest
  | _ => vertices
  end.

Definition createTerrain (random : nat -> R) (vertices : list R) : list R :=
  heightMap random 0 vertices.

End Terrain.

(** * Properties *)

Ltac qlra := Lqa.lra.
Ltac rlra := Lra.lra.

(** ** Comparisons *)

Lemma Qgtb_true (a b : Q) : Qgtb a b = true <-> b < a.
Proof.
  unfold Qgtb. rewrite Qgt_alt. destruct (a ?= b); split; congruence.
Qed.

Lemma Qgtb_false (a b : Q) : Qgtb a b = false <-> a <= b.
Proof.
  unfold Qgtb. rewrite Qle_alt. destruct (a ?= b); split; congruence.
Qed.

(** ** Frames: what a computation leaves alone

    [keeps view m]: whatever [m] does, and whether it returns or throws, the
    [view] of the state is the same afterwards. *)

Section Frames.

Context {St V : Type} (view : St -> V).

Lemma keeps_ret {A} (a : A) : keeps view (ret a).
Proof. intros s. reflexivity. Qed.

Lemma keeps_throw {A} (e : Exn) : keeps view (@throw St A e).
Proof. intros s. reflexivity. Qed.

Lemma keeps_gets {A} (f : St -> A) : keeps view (gets f).
Proof. intros s. reflexivity. Qed.

Lemma keeps_modify (f : St -> St) :
  (forall s, view (f s) = view s) -> keeps view (modify f).
Proof. intros H s. apply H. Qed.

Lemma keeps_bind {A B} (m : Exec St A) (k : A -> Exec St B) :
  keeps view m -> (forall a, keeps view (k a)) -> keeps view (bind m k).
Proof.
  intros Hm Hk s. unfold bind. specialize (Hm s).
  destruct (m s) as [a s' | e s']; simpl in *.
  - rewrite Hk. exact Hm.
  - exact Hm.
Qed.

Lemma keeps_when (c : bool) (m : Exec St unit) : keeps view m -> keeps view (when c m).
Proof. intros H. destruct c; [exact H | apply keeps_ret]. Qed.

Lemma keeps_forRange (body : nat -> Exec St unit) (n start : nat) :
  (forall i, keeps view (body i)) -> keeps view (forRange start n body).
Proof.
  intros H. revert start.
  induction n as [| n IH]; intros start; simpl.
  - apply keeps_ret.
  - apply keeps_bind; [apply H | intros _; apply IH].
Qed.

End Frames.

(** ** Computations that never throw *)

Section Returns.

Context {St : Type}.

Lemma returns_ret {A} (a : A) : returns (@ret St A a).
Proof. intros s. reflexivity. Qed.

Lemma returns_gets {A} (f : St -> A) : returns (gets f).
Proof. intros s. reflexivity. Qed.

Lemma returns_modify (f : St -> St) : returns (modify f).
Proof. intros s. reflexivity. Qed.

Lemma returns_bind {A B} (m : Exec St A) (k : A -> Exec St B) :
  returns m -> (forall a, returns (k a)) -> returns (bind m k).
Proof.
  intros Hm Hk s. unfold bind. specialize (Hm s).
  destruct (m s) as [a s' | e s']; [apply Hk | discriminate].
Qed.

Lemma returns_when (c : bool) (m : Exec St unit) : (c = true -> returns m) -> returns (when c m).
Proof. intros H. destruct c; [apply H; reflexivity | apply returns_ret]. Qed.

Lemma returns_forRange (body : nat -> Exec St unit) (n start : nat) :
  (forall i, returns (body i)) -> returns (forRange start n body).
Proof.
  intros H. revert start.
  induction n as [| n IH]; intros start; simpl.
  - apply returns_ret.
  - apply returns_bind; [apply H | intros _; apply IH].
Qed.

End Returns.

(** Splits a computation along its binds and branches; what is left are the
    calls that may throw. *)
Ltac returns_split :=
  repeat
    lazymatch goal with
    | |- returns (ret _) => apply returns_ret
    | |- returns (gets _) => apply returns_gets
    | |- returns (modify _) => apply returns_modify
    | |- returns (bind _ _) => apply returns_bind; [| intro]
    | |- returns (forRange _ _ _) => apply returns_forRange; intro
    | |- returns (if ?c then _ else _) => destruct c
    end.

(** ** Loops over a pool: one particle per iteration

    [glob] is what no iteration changes, [obs i] is particle [i].  When
    iteration [k] completes, touches particle [k] only and relates its old
    and new value by [R k], the whole loop relates every particle of its range
    that way, leaves every other particle alone, and completes. *)

Section Loops.

Context {St G O : Type} (glob : St -> G) (obs : nat -> St -> O).
Variable body : nat -> Exec St unit.
Variable R : nat -> G -> O -> O -> Prop.

Hypothesis body_glob : forall k, keeps glob (body k).
Hypothesis body_other : forall k i, i <> k -> keeps (obs i) (body k).
Hypothesis body_completes : forall k s, completes (body k s) = true.
Hypothesis body_step :
  forall k s, R k (glob s) (obs k s) (obs k (finalState (body k s))).

Lemma forRange_glob (n start : nat) : keeps glob (forRange start n body).
Proof. apply keeps_forRange. exact body_glob. Qed.

Lemma forRange_completes (n : nat) :
  forall start s, completes (forRange start n body s) = true.
Proof.
  induction n as [| n IH]; intros start s; cbn [forRange].
  - reflexivity.
  - unfold bind. pose proof (body_completes start s) as Hc.
    destruct (body start s) as [[] s1 | e s1]; [apply IH | discriminate].
Qed.

Lemma forRange_outside (n : nat) :
  forall start i, (i < start \/ start + n <= i)%nat -> keeps (obs i) (forRange start n body).
Proof.
  induction n as [| n IH]; intros start i Hi; cbn [forRange].
  - apply keeps_ret.
  - apply keeps_bind.
    + apply body_other. lia.
    + intros _. apply IH. lia.
Qed.

Lemma forRange_each (n : nat) :
  forall start s i,
    (start <= i < start + n)%nat ->
    R i (glob s) (obs i s) (obs i (finalState (forRange start n body s))).
Proof.
  induction n as [| n IH]; intros start s i Hi; [lia |].
  cbn [forRange]. unfold bind.
  pose proof (body_completes start s) as Hc.
  pose proof (body_step start s) as Hstep.
  pose proof (body_glob start s) as Hg.
  pose proof (fun j Hj => body_other start j Hj s) as Ho.
  destruct (body start s) as [[] s1 | e s1]; [| discriminate].
  cbn [finalState] in Hstep, Hg, Ho.
  destruct (Nat.eq_dec i start) as [-> | Hne].
  - rewrite (forRange_outside n (S start) start); [exact Hstep | lia].
  - specialize (IH (S start) s1 i ltac:(lia)).
    rewrite Hg, (Ho i Hne) in IH. exact IH.
Qed.

End Loops.

(** Splits a computation along its binds, loops and branches down to its
    [modify] leaves, leaving one goal per leaf at most. *)
Ltac frame_split :=
  repeat
    lazymatch goal with
    | |- keeps _ (ret _) => apply keeps_ret
    | |- keeps _ (throw _) => apply keeps_throw
    | |- keeps _ (gets _) => apply keeps_gets
    | |- keeps _ (bind _ _) => apply keeps_bind; [| intro]
    | |- keeps _ (when _ _) => apply keeps_when
    | |- keeps _ (forRange _ _ _) => apply keeps_forRange; intro
    | |- keeps _ (if ?c then _ else _) => destruct c
    | |- keeps _ (match ?c with _ => _ end) => destruct c
    | |- keeps _ (modify _) => apply keeps_modify; intros []
    end.

(** ** old-script.js: the cycle state machine *)

Section CycleClock.

Import OldScript.

Variable h : Host.

Lemma updateEvaporation_keeps_clock isActive p :
  keeps clockOf (updateEvaporation h isActive p).
Proof. unfold updateEvaporation, onEvaporation. frame_split; reflexivity. Qed.

Lemma updateCondensation_keeps_clock isActive p :
  keeps clockOf (updateCondensation h isActive p).
Proof.
  unfold updateCondensation. apply keeps_modify. intros s.
  destruct s as [? ? ? ? [|] ? ? ? ? ? ?]; reflexivity.
Qed.

Lemma random_keeps_clock : keeps clockOf (random h).
Proof. intros []. reflexivity. Qed.

Lemma resetToCloud_keeps_clock i : keeps clockOf (resetToCloud h i).
Proof.
  unfold resetToCloud, onRain.
  apply keeps_bind; [apply random_keeps_clock | intros r].
  apply keeps_bind; [apply keeps_gets | intros cs].
  destruct (pick cs r); [| apply keeps_throw].
  apply keeps_bind; [apply random_keeps_clock | intros r1].
  apply keeps_bind; [apply keeps_modify; intros []; reflexivity | intros _].
  apply keeps_bind; [apply keeps_modify; intros []; reflexivity | intros _].
  apply keeps_bind; [apply random_keeps_clock | intros r2].
  apply keeps_modify; intros []; reflexivity.
Qed.

Lemma updatePrecipitation_keeps_clock isActive p :
  keeps clockOf (updatePrecipitation h isActive p).
Proof.
  unfold updatePrecipitation, onRain.
  apply keeps_bind; [apply keeps_modify; intros []; reflexivity | intros _].
  destruct (negb isActive); [apply keeps_ret |].
  apply keeps_bind; [apply keeps_gets | intros n].
  apply keeps_forRange. intros i.
  apply keeps_bind; [apply keeps_modify; intros []; reflexivity | intros _].
  apply keeps_bind; [apply keeps_modify; intros []; reflexivity | intros _].
  apply keeps_bind; [apply keeps_gets | intros hit].
  apply keeps_bind; [apply keeps_gets | intros yi].
  destruct (belowTerrain hit yi); [apply resetToCloud_keeps_clock |].
  destruct (Qltb yi (-10)); [apply resetToCloud_keeps_clock | apply keeps_ret].
Qed.

Lemma particlePasses_keeps_clock p : keeps clockOf (particlePasses h p).
Proof.
  unfold particlePasses, updateCollection.
  apply keeps_bind; [apply keeps_gets | intros st1].
  apply keeps_bind; [apply updateEvaporation_keeps_clock | intros _].
  apply keeps_bind; [apply keeps_gets | intros st2].
  apply keeps_bind; [apply updateCondensation_keeps_clock | intros _].
  apply keeps_bind; [apply keeps_gets | intros st3].
  apply keeps_bind; [apply updatePrecipitation_keeps_clock | intros _].
  apply keeps_bind; [apply keeps_gets | intros st4].
  apply keeps_ret.
Qed.

(** [updateWaterCycle] is its transition block followed by the particle
    passes, which receive [localProgress] as [progress]. *)
Lemma updateWaterCycle_runs delta s :
  updateWaterCycle h delta s
  = particlePasses h (localProgress delta s) (afterTransition delta s).
Proof.
  unfold updateWaterCycle, afterTransition, localProgress, particlePasses.
  unfold bind at 1. unfold modify at 1.
  unfold bind at 1. unfold gets at 1.
  unfold bind at 1. unfold gets at 1.
  cbn [cycleTimer cycleState withCycleTimer].
  destruct (Qgtb (cycleTimer s + delta) (cycleDurations (cycleState s))) eqn:E.
  - unfold bind at 1. unfold when, updateCycleStage, bind at 1, modify at 1.
    unfold bind at 1. unfold modify at 1. unfold modify at 1.
    unfold bind at 1. unfold gets at 1.
    destruct s as [? ? [] ? ? ? ? ? ? ? ?]; reflexivity.
  - unfold bind at 1. unfold when, ret at 1.
    unfold bind at 1. unfold gets at 1.
    reflexivity.
Qed.

Lemma updateWaterCycle_clock delta s :
  clockOf (finalState (updateWaterCycle h delta s)) = clockOf (afterTransition delta s).
Proof. rewrite updateWaterCycle_runs. apply particlePasses_keeps_clock. Qed.

(** The two ways a call of [updateWaterCycle] can leave the clock. *)
Lemma updateWaterCycle_clock_cases delta s :
  let s' := finalState (updateWaterCycle h delta s) in
  let elapsed := cycleTimer s + delta in
  (cycleDurations (cycleState s) < elapsed
   /\ cycleTimer s' = 0
   /\ cycleState s' = nextInCycle (cycleState s)
   /\ stageLog s' = nextInCycle (cycleState s) :: stageLog s)
  \/ (elapsed <= cycleDurations (cycleState s)
      /\ cycleTimer s' = elapsed
      /\ cycleState s' = cycleState s
      /\ stageLog s' = stageLog s).
Proof.
  intros s' elapsed.
  pose proof (updateWaterCycle_clock delta s) as Hc. fold s' in Hc.
  unfold clockOf, afterTransition in Hc. cbn [cycleTimer withCycleTimer] in Hc.
  fold elapsed in Hc.
  destruct (Qgtb elapsed (cycleDurations (cycleState s))) eqn:E.
  - left. apply Qgtb_true in E. split; [exact E |].
    destruct s as [? ? [] ? ? ? ? ? ? ? ?]; cbn in Hc;
      injection Hc as -> -> ->; repeat split; reflexivity.
  - right. apply Qgtb_false in E. split; [exact E |].
    destruct s as [? ? ? ? ? ? ? ? ? ? ?]; cbn in Hc;
      injection Hc as -> -> ->; repeat split; reflexivity.
Qed.

Lemma cycleDurations_pos c : 0 < cycleDurations c.
Proof. destruct c; reflexivity. Qed.

(** C1. A call of [updateWaterCycle(delta)] adds [delta] to the elapsed
    time; if the sum exceeds the duration of the current phase, the elapsed
    time is reset to 0, the phase becomes the next one in the cyclic order
    EVAPORATION, CONDENSATION, PRECIPITATION, COLLECTION, EVAPORATION, and
    the new phase is announced once through [updateCycleStage]; otherwise
    the sum is kept, and phase and announcements stay as they were.  This
    holds for every [delta], in particular every [delta >= 0], and whether or
    not a particle pass throws afterwards. *)
Theorem updateWaterCycle_advances (delta : Q) (s : Sim) :
  let s' := finalState (updateWaterCycle h delta s) in
  let elapsed := cycleTimer s + delta in
  (cycleDurations (cycleState s) < elapsed ->
     cycleTimer s' = 0
     /\ cycleState s' = nextInCycle (cycleState s)
     /\ stageLog s' = nextInCycle (cycleState s) :: stageLog s)
  /\ (elapsed <= cycleDurations (cycleState s) ->
      cycleTimer s' = elapsed
      /\ cycleState s' = cycleState s
      /\ stageLog s' = stageLog s).
Proof.
  intros s' elapsed.
  destruct (updateWaterCycle_clock_cases delta s) as [(Hgt & H) | (Hle & H)];
    fold s' elapsed in Hgt || fold s' elapsed in Hle; fold s' elapsed in H.
  - split; [intros _; exact H | intros Hle; exfalso; qlra].
  - split; [intros Hgt; exfalso; qlra | intros _; exact H].
Qed.

Lemma init_keeps_clock_time :
  keeps (fun s => (cycleState s, cycleTimer s)) (init h).
Proof.
  unfold init, createTrees, createClouds, createEvaporationParticles,
    createEvaporationParticlesN, createRainParticles, createRainParticlesN,
    createRunoffParticles, updateCycleStage, random.
  frame_split; reflexivity.
Qed.


(** C2, as the code has it.  A call with delta 16 in a phase that lasts 15
    seconds, entered with a non-negative elapsed time: the phase advances to
    the next one in the cyclic order, exactly one announcement is added, and
    the elapsed time is 0 (the overshoot is dropped, not carried over). *)
Theorem updateWaterCycle_16_of_15 (s : Sim) :
  cycleDurations (cycleState s) == 15 ->
  0 <= cycleTimer s ->
  let s' := finalState (updateWaterCycle h 16 s) in
  cycleState s' = nextInCycle (cycleState s)
  /\ cycleTimer s' = 0
  /\ stageLog s' = cycleState s' :: stageLog s.
Proof.
  intros Hdur Hpos s'.
  destruct (updateWaterCycle_clock_cases 16 s) as [(_ & Ht & Hst & Hlog) | (Hle & _)].
  - fold s' in Ht, Hst, Hlog. rewrite Hst at 2. auto.
  - exfalso. qlra.
Qed.

(** C4, as the code has it.  After a call with a non-negative delta from a
    non-negative elapsed time, the progress lies in the closed interval
    [0, 1]; it is the value the call handed to the particle passes; and it
    is 1 exactly when the elapsed time has reached the duration without
    exceeding it. *)
Theorem progress_in_unit_interval (delta : Q) (s : Sim) :
  0 <= cycleTimer s ->
  0 <= delta ->
  let s' := finalState (updateWaterCycle h delta s) in
  0 <= progress s' <= 1
  /\ progress s' == localProgress delta s
  /\ (progress s' == 1 <-> cycleTimer s + delta == cycleDurations (cycleState s)).
Proof.
  intros Ht Hd s'.
  pose proof (cycleDurations_pos (cycleState s)) as Hdur.
  pose proof (cycleDurations_pos (cycleState s')) as Hdur'.
  unfold progress, localProgress. cbv zeta.
  destruct (updateWaterCycle_clock_cases delta s)
    as [(Hgt & Ht' & Hst & _) | (Hle & Ht' & Hst & _)];
    fold s' in Ht', Hst; rewrite Ht'.
  - apply Qgtb_true in Hgt as Hb. rewrite Hb.
    assert (Hz : forall d, 0 / d == 0) by (intros d; unfold Qdiv; ring).
    rewrite !Hz. repeat split; try qlra.
  - apply Qgtb_false in Hle as Hb. rewrite Hb, Hst.
    set (dur := cycleDurations (cycleState s)) in *.
    assert (Htn : 0 <= cycleTimer s + delta) by qlra.
    set (t := cycleTimer s + delta) in *.
    assert (H0 : 0 <= t / dur) by (apply Qle_shift_div_l; [exact Hdur | qlra]).
    assert (H1 : t / dur <= 1) by (apply Qle_shift_div_r; [exact Hdur | qlra]).
    repeat split; try assumption; try reflexivity.
    + intros E. assert (Ht2 : t == t / dur * dur) by (field; qlra).
      rewrite Ht2, E. ring.
    + intros E. rewrite E. field. qlra.
Qed.

End CycleClock.

(** *** The clock on concrete runs *)

(** Decides a closed comparison of rationals by evaluation. *)
Ltac qcompute :=
  vm_compute;
  lazymatch goal with
  | |- (_ -> False) -> False => let H := fresh in intro H; apply H; reflexivity
  | |- _ -> False => let H := fresh in intro H; discriminate H
  | |- _ => reflexivity
  end.

Lemma startSim_clock :
  OldScript.cycleState OldScript.startSim = OldScript.EVAPORATION
  /\ OldScript.cycleTimer OldScript.startSim = 0.
Proof.
  pose proof (init_keeps_clock_time flatHost OldScript.newSim) as H.
  unfold OldScript.startSim. split.
  - exact (f_equal fst H).
  - exact (f_equal snd H).
Qed.

(** A frame of 16 seconds from [miniSim]: on to CONDENSATION, timer 0, one
    more announcement. *)
Example miniSim_frame_16 :
  OldScript.clockOf (finalState (OldScript.updateWaterCycle flatHost 16 OldScript.miniSim))
  = (OldScript.CONDENSATION, 0,
     [OldScript.CONDENSATION; OldScript.EVAPORATION]).
Proof. vm_compute. reflexivity. Qed.

(** A frame of 14 seconds from [miniSim]: still EVAPORATION, timer 14, and
    both evaporation particles 0.4 higher (velocity 0.2, temperature 15). *)
Example miniSim_frame_14 :
  let s' := finalState (OldScript.updateWaterCycle flatHost 14 OldScript.miniSim) in
  OldScript.cycleState s' = OldScript.EVAPORATION
  /\ OldScript.cycleTimer s' == 14
  /\ THREE.getY (OldScript.position (OldScript.evaporation s')) 0 == 0.9
  /\ THREE.getY (OldScript.position (OldScript.evaporation s')) 1 == 0.9
  /\ completes (OldScript.updateWaterCycle flatHost 14 OldScript.miniSim) = true.
Proof. vm_compute. repeat split; reflexivity. Qed.

(** Picking with draw 1/2 from three entries takes the middle one. *)
Example pick_middle : pick [10; 20; 30] 0.5 = Some 20.
Proof. vm_compute. reflexivity. Qed.

(** C2, the counterexample: entered at elapsed time 0, the 15-second phase of
    [startSim] is left by a 16-second frame with elapsed time 0, not 1. *)
Lemma residual_dropped_after_16 :
  OldScript.cycleDurations (OldScript.cycleState OldScript.startSim) == 15
  /\ OldScript.cycleTimer OldScript.startSim == 0
  /\ ~ OldScript.cycleTimer
        (finalState (OldScript.updateWaterCycle flatHost 16 OldScript.startSim))
      == 1.
Proof.
  destruct startSim_clock as [Hst Ht].
  rewrite Hst, Ht. repeat split; try reflexivity.
  destruct (updateWaterCycle_clock_cases flatHost 16 OldScript.startSim)
    as [(_ & Ht' & _) | (Hle & _)].
  - rewrite Ht'. clear. qcompute.
  - rewrite Hst, Ht in Hle. exfalso. revert Hle. clear. qcompute.
Qed.

(** C2 on [miniSim]. *)
Lemma updateWaterCycle_16_of_15_witness :
  let s := OldScript.miniSim in
  let s' := finalState (OldScript.updateWaterCycle flatHost 16 s) in
  (OldScript.cycleDurations (OldScript.cycleState s) == 15 /\ 0 <= OldScript.cycleTimer s)
  /\ (OldScript.cycleState s' = OldScript.nextInCycle (OldScript.cycleState s)
      /\ OldScript.cycleTimer s' = 0
      /\ OldScript.stageLog s' = OldScript.cycleState s' :: OldScript.stageLog s).
Proof.
  intros s s'.
  assert (Hdur : OldScript.cycleDurations (OldScript.cycleState s) == 15) by qcompute.
  assert (Hpos : 0 <= OldScript.cycleTimer s) by qcompute.
  split; [auto |].
  exact (updateWaterCycle_16_of_15 flatHost s Hdur Hpos).
Defined.

(** C4, the counterexample: a 15-second frame from the start of the
    15-second phase does not exceed the duration, so the phase stays and the
    progress is exactly 1. *)
Lemma progress_reaches_one :
  0 <= OldScript.cycleTimer OldScript.startSim
  /\ OldScript.progress
       (finalState (OldScript.updateWaterCycle flatHost 15 OldScript.startSim))
     == 1
  /\ ~ OldScript.progress
        (finalState (OldScript.updateWaterCycle flatHost 15 OldScript.startSim))
      < 1.
Proof.
  destruct startSim_clock as [Hst Ht].
  assert (Hp : OldScript.progress
                 (finalState
                    (OldScript.updateWaterCycle flatHost 15 OldScript.startSim))
               == 1).
  { unfold OldScript.progress.
    destruct (updateWaterCycle_clock_cases flatHost 15 OldScript.startSim)
      as [(Hgt & _) | (_ & Ht' & Hst' & _)].
    - rewrite Hst, Ht in Hgt. exfalso. revert Hgt. clear. qcompute.
    - rewrite Ht', Hst', Hst, Ht. reflexivity. }
  rewrite Ht. split; [apply Qle_refl |]. split; [exact Hp |].
  rewrite Hp. apply Qlt_irrefl.
Qed.

(** C4 on a frame of 15 seconds from [miniSim]. *)
Lemma progress_in_unit_interval_witness :
  let s := OldScript.miniSim in
  let s' := finalState (OldScript.updateWaterCycle flatHost 15 s) in
  (0 <= OldScript.cycleTimer s /\ 0 <= 15)
  /\ (0 <= OldScript.progress s' <= 1
      /\ OldScript.progress s' == OldScript.localProgress 15 s
      /\ (OldScript.progress s' == 1
          <-> OldScript.cycleTimer s + 15
              == OldScript.cycleDurations (OldScript.cycleState s))).
Proof.
  intros s s'.
  assert (Ht : 0 <= OldScript.cycleTimer s) by qcompute.
  assert (Hd : 0 <= 15) by qcompute.
  split; [auto |].
  exact (progress_in_unit_interval flatHost 15 s Ht Hd).
Defined.

(** ** Typed arrays with stride 3 *)

Section Strides.

Variables (a : list Q) (i j : nat) (v : Q).

Lemma read_insert_ne (m n : nat) : m <> n -> THREE.read (<[m := v]> a) n = THREE.read a n.
Proof. intros H. unfold THREE.read. rewrite list_lookup_insert_ne; [reflexivity | exact H]. Qed.

Lemma read_insert_eq (n : nat) : (n < length a)%nat -> THREE.read (<[n := v]> a) n = v.
Proof. intros H. unfold THREE.read. rewrite list_lookup_insert_eq; [reflexivity | exact H]. Qed.

Lemma getX_setY : THREE.getX (THREE.setY j v a) i = THREE.getX a i.
Proof. apply read_insert_ne. lia. Qed.

Lemma getX_setZ : THREE.getX (THREE.setZ j v a) i = THREE.getX a i.
Proof. apply read_insert_ne. lia. Qed.

Lemma getY_setX : THREE.getY (THREE.setX j v a) i = THREE.getY a i.
Proof. apply read_insert_ne. lia. Qed.

Lemma getY_setZ : THREE.getY (THREE.setZ j v a) i = THREE.getY a i.
Proof. apply read_insert_ne. lia. Qed.

Lemma getZ_setX : THREE.getZ (THREE.setX j v a) i = THREE.getZ a i.
Proof. apply read_insert_ne. lia. Qed.

Lemma getZ_setY : THREE.getZ (THREE.setY j v a) i = THREE.getZ a i.
Proof. apply read_insert_ne. lia. Qed.

Lemma getX_setX_ne : i <> j -> THREE.getX (THREE.setX j v a) i = THREE.getX a i.
Proof. intros H. apply read_insert_ne. lia. Qed.

Lemma getY_setY_ne : i <> j -> THREE.getY (THREE.setY j v a) i = THREE.getY a i.
Proof. intros H. apply read_insert_ne. lia. Qed.

Lemma getZ_setZ_ne : i <> j -> THREE.getZ (THREE.setZ j v a) i = THREE.getZ a i.
Proof. intros H. apply read_insert_ne. lia. Qed.

Lemma in_count : (i < THREE.count a)%nat -> (i * 3 + 2 < length a)%nat.
Proof.
  unfold THREE.count. intros H.
  pose proof (Nat.div_mod_eq (length a) 3). lia.
Qed.

Lemma count_in : (i * 3 + 2 < length a)%nat -> (i < THREE.count a)%nat.
Proof.
  unfold THREE.count. intros H.
  apply (Nat.div_le_lower_bound (length a) 3 (S i)); lia.
Qed.

Lemma getX_setX : (i < THREE.count a)%nat -> THREE.getX (THREE.setX i v a) i = v.
Proof. intros H. apply in_count in H. apply read_insert_eq. lia. Qed.

Lemma getY_setY : (i < THREE.count a)%nat -> THREE.getY (THREE.setY i v a) i = v.
Proof. intros H. apply in_count in H. apply read_insert_eq. lia. Qed.

Lemma getZ_setZ : (i < THREE.count a)%nat -> THREE.getZ (THREE.setZ i v a) i = v.
Proof. intros H. apply in_count in H. apply read_insert_eq. lia. Qed.

Lemma count_setX : THREE.count (THREE.setX j v a) = THREE.count a.
Proof. unfold THREE.count, THREE.setX. rewrite length_insert. reflexivity. Qed.

Lemma count_setY : THREE.count (THREE.setY j v a) = THREE.count a.
Proof. unfold THREE.count, THREE.setY. rewrite length_insert. reflexivity. Qed.

Lemma count_setZ : THREE.count (THREE.setZ j v a) = THREE.count a.
Proof. unfold THREE.count, THREE.setZ. rewrite length_insert. reflexivity. Qed.

Lemma length_setX : length (THREE.setX j v a) = length a.
Proof. apply length_insert. Qed.

Lemma length_setY : length (THREE.setY j v a) = length a.
Proof. apply length_insert. Qed.

Lemma length_setZ : length (THREE.setZ j v a) = length a.
Proof. apply length_insert. Qed.

End Strides.

Lemma pick_nil {A} (r : Q) : pick (@nil A) r = None.
Proof.
  unfold pick.
  assert (E : Qfloor (r * inject_Z (Z.of_nat (length (@nil A)))) = 0%Z).
  { cbn [length Z.of_nat inject_Z]. unfold Qfloor, Qmult. cbn [Qnum Qden].
    rewrite Z.mul_0_r. apply Z.div_0_l. discriminate. }
  rewrite E. reflexivity.
Qed.

(** ** old-script.js: the particle passes *)

Section OldScriptParticles.

Import OldScript.

Variable h : Host.

(** C9. [updateEvaporation] writes only the y slots of the evaporation
    pool: for every particle index the x and z coordinates (and the whole
    velocity array, whose x and z entries are never read) are after the call
    what they were before it, active or not. *)
Theorem updateEvaporation_moves_only_y (isActive : bool) (p : Q) (s : Sim) (i : nat) :
  let s' := finalState (updateEvaporation h isActive p s) in
  THREE.getX (position (evaporation s')) i = THREE.getX (position (evaporation s)) i
  /\ THREE.getZ (position (evaporation s')) i = THREE.getZ (position (evaporation s)) i
  /\ velocities (evaporation s') = velocities (evaporation s).
Proof.
  intros s'.
  assert (K : keeps (fun s => (THREE.getX (position (evaporation s)) i,
                               THREE.getZ (position (evaporation s)) i,
                               velocities (evaporation s)))
                    (updateEvaporation h isActive p)).
  { unfold updateEvaporation, onEvaporation.
    frame_split; cbn; rewrite ?getX_setY, ?getZ_setY; reflexivity. }
  specialize (K s). cbn in K. fold s' in K.
  injection K as K1 K2 K3. auto.
Qed.

(** With no cloud left, the reset block throws on [cloud.position]. *)
Lemma resetToCloud_without_clouds (i : nat) (s : Sim) :
  clouds s = [] -> thrown (resetToCloud h i s) = Some TypeError.
Proof.
  intros Hc. unfold resetToCloud, random, bind, gets, modify, ret. cbn.
  rewrite Hc, pick_nil. reflexivity.
Qed.

(** What an active evaporation pass does to each particle of the pool. *)
Lemma updateEvaporation_each (p : Q) (s : Sim) (i : nat) :
  (i < THREE.count (position (evaporation s)))%nat ->
  let s' := finalState (updateEvaporation h true p s) in
  completes (updateEvaporation h true p s) = true
  /\ length (position (evaporation s')) = length (position (evaporation s))
  /\ particle (position (evaporation s')) i
     = (THREE.getX (position (evaporation s)) i,
        (if Qgtb (risenY s i) 30 then 0.5 else risenY s i),
        THREE.getZ (position (evaporation s)) i).
Proof.
  intros Hi s'. subst s'. unfold updateEvaporation. cbn [negb].
  match goal with
  | |- context [bind (modify ?f) (fun _ => bind (gets ?g) (fun n0 => forRange 0 n0 ?b))] =>
      set (body := b);
      change (bind (modify f) (fun _ => bind (gets g) (fun n0 => forRange 0 n0 body)) s)
        with (forRange 0 (g (f s)) body (f s));
      set (s0 := f s)
  end.
  cbv beta.
  assert (Hpos : position (evaporation s0) = position (evaporation s))
    by (destruct s; reflexivity).
  rewrite Hpos.
  set (n := THREE.count (position (evaporation s))) in *.
  set (glob := fun t : Sim =>
         (velocities (evaporation t), params t, length (position (evaporation t)))).
  set (obs := fun (k : nat) (t : Sim) => particle (position (evaporation t)) k).
  set (R := fun (k : nat) (g : list Q * Params * nat) (o o' : Q * Q * Q) =>
         let '(vel, prm, len) := g in
         let '(x, y, z) := o in
         let y1 := y + THREE.read vel (k * 3 + 1) * (1 + temperature prm / 15) in
         (k * 3 + 2 < len)%nat ->
         o' = (x, (if Qgtb y1 30 then 0.5 else y1), z)).
  assert (Hglob : forall k, keeps glob (body k)).
  { intros k. subst body glob. cbv beta. unfold onEvaporation.
    frame_split; cbn; rewrite length_setY; reflexivity. }
  assert (Hother : forall k j, j <> k -> keeps (obs j) (body k)).
  { intros k j Hne. subst body obs. cbv beta. unfold onEvaporation, particle.
    frame_split; cbn; rewrite getX_setY, getZ_setY, getY_setY_ne by exact Hne;
      reflexivity. }
  assert (Hret : forall k t, completes (body k t) = true).
  { intros k. change (returns (body k)). subst body. cbv beta.
    unfold onEvaporation, when. returns_split. }
  assert (Hstep : forall k t, R k (glob t) (obs k t) (obs k (finalState (body k t)))).
  { intros k t. subst body R glob obs. unfold particle. cbv beta iota zeta.
    intros Hk. unfold onEvaporation, when, bind, gets, modify, ret.
    destruct t as [? ? ? ? ? ? [a vel o] ? ? ? ?]. cbn in Hk. cbn.
    assert (Hc : (k < THREE.count a)%nat) by (apply count_in; exact Hk).
    rewrite getY_setY by exact Hc.
    destruct (Qgtb _ 30); cbn.
    - rewrite !getX_setY, !getZ_setY, getY_setY;
        [reflexivity | rewrite count_setY; exact Hc].
    - rewrite !getX_setY, !getZ_setY, getY_setY; [reflexivity | exact Hc]. }
  split; [| split].
  - apply (forRange_completes body Hret).
  - pose proof (forRange_glob glob body Hglob n 0%nat s0) as Hg.
    subst glob. cbn beta in Hg. rewrite Hpos in Hg. congruence.
  - pose proof (forRange_each glob obs body R Hglob Hother Hret Hstep n 0%nat s0 i
                  ltac:(lia)) as He.
    subst R glob obs. cbv beta iota zeta in He. rewrite Hpos in He.
    assert (Hv : velocities (evaporation s0) = velocities (evaporation s))
      by (destruct s; reflexivity).
    assert (Hp : params s0 = params s) by (destruct s; reflexivity).
    rewrite Hv, Hp in He. unfold particle at 1 in He.
    apply He. apply in_count. exact Hi.
Qed.

Lemma updateEvaporation_keeps_length (isActive : bool) (p : Q) :
  keeps (fun s => length (position (evaporation s))) (updateEvaporation h isActive p).
Proof.
  unfold updateEvaporation, onEvaporation.
  frame_split; cbn; rewrite ?length_setY; reflexivity.
Qed.

End OldScriptParticles.

(** The sibling reset of part_000 completes whatever the emitter list holds:
    without emitters it falls back to the origin. *)
Lemma respawnAtEmitter_completes (host : Host) (i : nat) (s : Part000.Sim) :
  completes (Part000.respawnAtEmitter host i s) = true.
Proof. reflexivity. Qed.

(** C5, the counterexample.  In [droughtSim] the cloud list is empty and the
    one rain drop falls below the ground during the pass, so its reset block
    runs: the pass throws a TypeError; there is no fall back to a default
    spawn point. *)
Theorem updatePrecipitation_throws_without_clouds :
  OldScript.clouds OldScript.droughtSim = []
  /\ thrown (OldScript.updatePrecipitation flatHost true 0.5 OldScript.droughtSim)
     = Some TypeError.
Proof. split; vm_compute; reflexivity. Qed.

(** ** part_001: the climate parameters *)

Section Climate.

Import Part001.

Lemma runClimateOp_consistent (op : ClimateOp) (s : Sim) :
  consistent (climateParams s) ->
  completes (runClimateOp op s) = true
  /\ consistent (climateParams (finalState (runClimateOp op s))).
Proof.
  intros Hs. unfold consistent in *.
  destruct op; (split; [reflexivity |]); cbn; try exact Hs; reflexivity.
Qed.

(** Hence it holds in every state the page can reach. *)
Lemma consistent_reachable (ops : list ClimateOp) :
  consistent (climateParams (runClimateOps ops newSim)).
Proof.
  assert (H0 : consistent (climateParams newSim)) by reflexivity.
  revert H0. generalize newSim.
  induction ops as [| op rest IH]; intros s Hs; cbn [runClimateOps].
  - exact Hs.
  - apply IH. apply runClimateOp_consistent. exact Hs.
Qed.

(** C10. The temperature is 15 plus the temperature change when the
    simulation is constructed, and every operation of the page that writes a
    climate parameter (the four sliders, [resetSimulation],
    [loadClimateScenario]) completes and keeps it so. *)
Theorem temperature_is_base_plus_change :
  consistent (climateParams newSim)
  /\ forall (op : ClimateOp) (s : Sim),
       consistent (climateParams s) ->
       completes (runClimateOp op s) = true
       /\ consistent (climateParams (finalState (runClimateOp op s))).
Proof.
  split; [reflexivity | exact runClimateOp_consistent].
Qed.

End Climate.

(** ** part_001: the terrain *)

Section TerrainField.

Import Terrain.
Local Open Scope R_scope.

(** Without the random term the two formulas are the same. *)
Lemma vertexHeight_at_zero_noise (x z : R) : vertexHeight x z 0 = getTerrainHeight x z.
Proof.
  unfold vertexHeight, getTerrainHeight. cbv zeta.
  rewrite Rmult_0_l, Rplus_0_r. reflexivity.
Qed.

Lemma getTerrainHeight_origin : getTerrainHeight 0 0 = 0.
Proof.
  unfold getTerrainHeight. cbv zeta.
  rewrite !Rmult_0_l, sin_0, Rabs_R0.
  destruct (Rlt_dec 0 20) as [_ | Hn]; [| exfalso; rlra].
  unfold Rmax. destruct (Rle_dec _ _); rlra.
Qed.

Lemma vertexHeight_origin_half : vertexHeight 0 0 (1 / 2) = 3 / 10.
Proof.
  unfold vertexHeight. cbv zeta.
  rewrite !Rmult_0_l, sin_0, Rabs_R0.
  destruct (Rlt_dec 0 20) as [_ | Hn]; [| exfalso; rlra].
  unfold Rmax. destruct (Rle_dec _ _); rlra.
Qed.

(** The mesh height never lies below the queried height when the draw is
    non-negative, and exceeds it by at most the noise amplitude. *)
Lemma vertexHeight_gap (x z r : R) :
  0 <= r < 1 ->
  getTerrainHeight x z <= vertexHeight x z r <= getTerrainHeight x z + 2.
Proof.
  intros Hr. unfold vertexHeight, getTerrainHeight. cbv zeta.
  set (b := 0 + sin (x * 0.1) * cos (z * 0.1) * 8 + sin (x * 0.05) * cos (z * 0.05) * 15).
  destruct (Rlt_dec (Rabs x) 20); [destruct (Rlt_dec (Rabs z) 20) |];
    unfold Rmax; repeat destruct (Rle_dec _ _); rlra.
Qed.

End TerrainField.

(** C6 at the failing input.  The centre vertex (0, 0, 0) of the plane, with
    [Math.random()] returning 1/2 in the loop body, gets the height 3/10 from
    [createTerrain], while [getTerrainHeight(0, 0)] is 0: the collision query
    does not return the mesh height. *)
Theorem createTerrain_height_differs_from_query :
  Terrain.createTerrain (fun _ => (1 / 2)%R) [0%R; 0%R; 0%R] = [0%R; (3 / 10)%R; 0%R]
  /\ Terrain.getTerrainHeight 0 0 = 0%R
  /\ (3 / 10 <> 0)%R.
Proof.
  split; [| split].
  - unfold Terrain.createTerrain. cbn [Terrain.heightMap].
    rewrite vertexHeight_origin_half. reflexivity.
  - apply getTerrainHeight_origin.
  - rlra.
Qed.

(** ** Picking from a list *)

Lemma pick_in_range {A} (l : list A) (r : Q) :
  unitDraw r -> l <> [] -> exists a, pick l r = Some a /\ In a l.
Proof.
  intros [Hr0 Hr1] Hl. unfold pick.
  assert (Hlen : (0 < Z.of_nat (length l))%Z) by (destruct l; [congruence | cbn; lia]).
  set (len := Z.of_nat (length l)) in *.
  assert (Hq : inject_Z 0 < inject_Z len) by (rewrite <- Zlt_Qlt; exact Hlen).
  change (inject_Z 0) with 0 in Hq.
  set (idx := Qfloor (r * inject_Z len)).
  assert (H0 : (0 <= idx)%Z).
  { change 0%Z with (Qfloor 0). apply Qfloor_resp_le.
    apply Qmult_le_0_compat; [exact Hr0 | apply Qlt_le_weak; exact Hq]. }
  assert (H1 : (idx < len)%Z).
  { rewrite Zlt_Qlt. apply Qle_lt_trans with (r * inject_Z len).
    - apply Qfloor_le.
    - rewrite <- (Qmult_1_l (inject_Z len)) at 2.
      apply Qmult_lt_compat_r; assumption. }
  destruct (Z.ltb_spec idx 0) as [Hneg | _]; [lia |].
  destruct (lookup_lt_is_Some_2 l (Z.to_nat idx)) as [a Ha]; [lia |].
  exists a. split; [exact Ha |].
  apply list_elem_of_In, list_elem_of_lookup. eauto.
Qed.

(** ** Running a computation that returns *)

Lemma run_returns {St} (m : Exec St unit) (s : St) :
  completes (m s) = true -> m s = Normal tt (finalState (m s)).
Proof. destruct (m s) as [[] s' | e s']; [reflexivity | discriminate]. Qed.

Lemma bind_returns {St B} (m : Exec St unit) (k : unit -> Exec St B) (s : St) :
  completes (m s) = true -> bind m k s = k tt (finalState (m s)).
Proof. intros H. unfold bind. rewrite (run_returns m s H). reflexivity. Qed.

(** ** part_000: the particle passes *)

(** Reads back what the setters of one particle wrote; [Hc] says the
    particle is in the array. *)
Ltac in_array Hc :=
  repeat first [rewrite count_setX | rewrite count_setY | rewrite count_setZ]; exact Hc.

Ltac stride Hc :=
  repeat first
    [ rewrite getX_setY | rewrite getX_setZ
    | rewrite getY_setX | rewrite getY_setZ
    | rewrite getZ_setX | rewrite getZ_setY
    | rewrite getX_setX by in_array Hc
    | rewrite getY_setY by in_array Hc
    | rewrite getZ_setZ by in_array Hc ].

Section Part000Particles.

Import Part000.

Variable host : Host.
Hypothesis host_fair : fair host.

Lemma updateTranspiration_frame (dt : Q) :
  keeps besidesTranspiration (updateTranspiration host dt).
Proof.
  unfold besidesTranspiration, updateTranspiration, respawnAtEmitter, onTranspiration,
    random. cbv zeta.
  frame_split; cbn; rewrite ?length_setX, ?length_setY, ?length_setZ; reflexivity.
Qed.

Lemma updateTranspiration_returns (dt : Q) : returns (updateTranspiration host dt).
Proof.
  unfold updateTranspiration, respawnAtEmitter, onTranspiration, random, when. cbv zeta.
  returns_split.
Qed.

Lemma updateTranspiration_each (dt : Q) (s : Sim) (i : nat) :
  (i < THREE.count (position (transpiration s)))%nat ->
  transpirationOutcome dt s (finalState (updateTranspiration host dt s)) i.
Proof.
  intros Hi. unfold updateTranspiration.
  match goal with
  | |- context [bind (gets ?g) (fun n0 => forRange 0 n0 ?b)] =>
      set (body := b);
      change (bind (gets g) (fun n0 => forRange 0 n0 body) s)
        with (forRange 0 (g s) body s)
  end.
  cbv beta.
  set (n := THREE.count (position (transpiration s))) in *.
  set (glob := fun t : Sim =>
         (vel (transpiration t), params t, treeEmitters t,
          length (position (transpiration t)))).
  set (obs := fun (k : nat) (t : Sim) => particle (position (transpiration t)) k).
  set (R := fun (k : nat) (g : list Q * Params * list THREE.Vector3 * nat)
                (o o' : Q * Q * Q) =>
         let '(v, prm, ems, len) := g in
         let '(x, y, z) := o in
         let x1 := x + THREE.read v (k * 3 + 0) + windSpeed prm * 0.01 * dt in
         let y1 := y + THREE.read v (k * 3 + 1) * dt * transp prm in
         (k * 3 + 2 < len)%nat ->
         if Qgtb y1 30
         then exists p r1 r2 r3,
                (In p ems \/ (ems = [] /\ p = THREE.origin))
                /\ unitDraw r1 /\ unitDraw r2 /\ unitDraw r3
                /\ o' = (THREE.x p + (r1 - 0.5) * 2, THREE.y p + r2 * 3,
                         THREE.z p + (r3 - 0.5) * 2)
         else o' = (x1, y1, z)).
  assert (Hglob : forall k, keeps glob (body k)).
  { intros k. subst body glob. cbv beta.
    unfold respawnAtEmitter, onTranspiration, random. cbv zeta.
    frame_split; cbn; rewrite ?length_setX, ?length_setY, ?length_setZ; reflexivity. }
  assert (Hother : forall k j, j <> k -> keeps (obs j) (body k)).
  { intros k j Hne. subst body obs. cbv beta.
    unfold respawnAtEmitter, onTranspiration, random, particle. cbv zeta.
    frame_split; cbn;
      rewrite ?getX_setY, ?getX_setZ, ?getY_setX, ?getY_setZ, ?getZ_setX, ?getZ_setY,
        ?getX_setX_ne, ?getY_setY_ne, ?getZ_setZ_ne by exact Hne;
      reflexivity. }
  assert (Hret : forall k t, completes (body k t) = true).
  { intros k. change (returns (body k)). subst body. cbv beta.
    unfold respawnAtEmitter, onTranspiration, random, when. cbv zeta. returns_split. }
  assert (Hstep : forall k t, R k (glob t) (obs k t) (obs k (finalState (body k t)))).
  { intros k t. subst body R glob obs. unfold particle. cbv beta iota zeta.
    intros Hk.
    unfold respawnAtEmitter, onTranspiration, random, when, bind, gets, modify, ret.
    destruct t as [? prm ? ems [a v o] ? ? ? rc]. cbn in Hk. cbn.
    assert (Hc : (k < THREE.count a)%nat) by (apply count_in; exact Hk).
    stride Hc.
    destruct (Qgtb _ 30); cbn.
    - stride Hc.
      exists (default THREE.origin (pick ems (Math_random host rc))),
        (Math_random host (S rc)), (Math_random host (S (S rc))),
        (Math_random host (S (S (S rc)))).
      split; [| repeat (split; [apply host_fair |]); reflexivity].
      destruct ems as [| e ems'].
      + right. rewrite pick_nil. split; reflexivity.
      + left. destruct (pick_in_range (e :: ems') (Math_random host rc))
          as (q & Hq & Hin); [apply host_fair | discriminate |].
        rewrite Hq. exact Hin.
    - stride Hc. reflexivity. }
  pose proof (forRange_each glob obs body R Hglob Hother Hret Hstep n 0%nat s i
                ltac:(lia)) as He.
  subst R glob obs. cbv beta iota zeta in He.
  unfold transpirationOutcome, movedTranspiration, transpirationSpawn. cbv zeta.
  unfold particle at 1 in He. apply He. apply in_count. exact Hi.
Qed.

Lemma updateEvaporation_frame (dt : Q) :
  keeps besidesEvaporation (updateEvaporation host dt).
Proof.
  unfold besidesEvaporation, updateEvaporation, respawnOnWater, onEvaporation, random.
  frame_split; cbn; rewrite ?length_setX, ?length_setY, ?length_setZ; reflexivity.
Qed.

Lemma updateEvaporation_pass (dt : Q) (s : Sim) :
  let s' := finalState (updateEvaporation host dt s) in
  completes (updateEvaporation host dt s) = true
  /\ forall i, (i < THREE.count (position (evaporation s)))%nat ->
               evaporationOutcome dt s s' i.
Proof.
  intros s'. subst s'. unfold updateEvaporation.
  match goal with
  | |- context [bind (gets ?g) (fun n0 => forRange 0 n0 ?b)] =>
      set (body := b);
      change (bind (gets g) (fun n0 => forRange 0 n0 body) s)
        with (forRange 0 (g s) body s)
  end.
  cbv beta.
  set (n := THREE.count (position (evaporation s))) in *.
  set (glob := fun t : Sim =>
         (vel (evaporation t), params t, waterBodies t,
          length (position (evaporation t)))).
  set (obs := fun (k : nat) (t : Sim) => particle (position (evaporation t)) k).
  set (R := fun (k : nat) (g : list Q * Params * list WaterBody * nat)
                (o o' : Q * Q * Q) =>
         let '(v, prm, bodies, len) := g in
         let '(x, y, z) := o in
         let x1 := x + THREE.read v (k * 3 + 0) + windSpeed prm * 0.01 * dt in
         let y1 := y + THREE.read v (k * 3 + 1) * dt * evap prm in
         (k * 3 + 2 < len)%nat ->
         if Qgtb y1 25 && negb (Nat.eqb (length bodies) 0)
         then exists wb r1 r2,
                In wb bodies
                /\ unitDraw r1 /\ unitDraw r2
                /\ o' = (THREE.x (at_ wb) + (r1 - 0.5) * w wb, 0.12,
                         THREE.z (at_ wb) + (r2 - 0.5) * h wb)
         else o' = (x1, y1, z)).
  assert (Hglob : forall k, keeps glob (body k)).
  { intros k. subst body glob. cbv beta.
    unfold respawnOnWater, onEvaporation, random.
    frame_split; cbn; rewrite ?length_setX, ?length_setY, ?length_setZ; reflexivity. }
  assert (Hother : forall k j, j <> k -> keeps (obs j) (body k)).
  { intros k j Hne. subst body obs. cbv beta.
    unfold respawnOnWater, onEvaporation, random, particle.
    frame_split; cbn;
      rewrite ?getX_setY, ?getX_setZ, ?getY_setX, ?getY_setZ, ?getZ_setX, ?getZ_setY,
        ?getX_setX_ne, ?getY_setY_ne, ?getZ_setZ_ne by exact Hne;
      reflexivity. }
  assert (Hret : forall k t, completes (body k t) = true).
  { intros k t. subst body. cbv beta.
    unfold respawnOnWater, onEvaporation, random, when, bind, gets, modify, ret.
    destruct t as [? prm bodies ? ? [a v o] ? ? rc]. cbn.
    destruct bodies as [| b bs]; cbn.
    - rewrite andb_false_r. reflexivity.
    - rewrite andb_true_r. destruct (Qgtb _ 25); cbn; [| reflexivity].
      destruct (pick_in_range (b :: bs) (Math_random host rc))
        as (q & Hq & _); [apply host_fair | discriminate |].
      rewrite Hq. reflexivity. }
  assert (Hstep : forall k t, R k (glob t) (obs k t) (obs k (finalState (body k t)))).
  { intros k t. subst body R glob obs. unfold particle. cbv beta iota zeta.
    intros Hk.
    unfold respawnOnWater, onEvaporation, random, when, bind, gets, modify, ret.
    destruct t as [? prm bodies ? ? [a v o] ? ? rc]. cbn in Hk. cbn.
    assert (Hc : (k < THREE.count a)%nat) by (apply count_in; exact Hk).
    stride Hc.
    destruct bodies as [| b bs]; cbn.
    - rewrite andb_false_r. cbn. stride Hc. reflexivity.
    - rewrite andb_true_r. destruct (Qgtb _ 25); cbn; [| stride Hc; reflexivity].
      destruct (pick_in_range (b :: bs) (Math_random host rc))
        as (q & Hq & Hin); [apply host_fair | discriminate |].
      rewrite Hq. cbn. stride Hc.
      exists q, (Math_random host (S rc)), (Math_random host (S (S rc))).
      split; [exact Hin |]. repeat (split; [apply host_fair |]). reflexivity. }
  split.
  - apply (forRange_completes body Hret).
  - intros i Hi.
    pose proof (forRange_each glob obs body R Hglob Hother Hret Hstep n 0%nat s i
                  ltac:(lia)) as He.
    subst R glob obs. cbv beta iota zeta in He.
    unfold evaporationOutcome, movedEvaporation, evaporationSpawn. cbv zeta.
    unfold particle at 1 in He. apply He. apply in_count. exact Hi.
Qed.

(** One frame of [updateParticles]: it completes, leaves parameters,
    emitters, lakes, velocities and the pool sizes alone, and treats every
    particle of either pool as its loop prescribes. *)
Lemma updateParticles_each (dt : Q) (s : Sim) :
  let s' := finalState (updateParticles host dt s) in
  completes (updateParticles host dt s) = true
  /\ (params s', waterBodies s', treeEmitters s') = (params s, waterBodies s, treeEmitters s)
  /\ (vel (transpiration s'), vel (evaporation s'))
     = (vel (transpiration s), vel (evaporation s))
  /\ length (position (transpiration s')) = length (position (transpiration s))
  /\ length (position (evaporation s')) = length (position (evaporation s))
  /\ (forall i, (i < THREE.count (position (transpiration s)))%nat ->
                transpirationOutcome dt s s' i)
  /\ (forall i, (i < THREE.count (position (evaporation s)))%nat ->
                evaporationOutcome dt s s' i).
Proof.
  intros s'. subst s'. unfold updateParticles.
  set (s1 := withShown (transp (params s)) (evap (params s)) s).
  set (s2 := finalState (updateTranspiration host dt s1)).
  set (s3 := withTranspiration
               (withOpacity (0.3 + humidF (params s2) * 0.3) (transpiration s2)) s2).
  set (s4 := finalState (updateEvaporation host dt s3)).
  set (s5 := withEvaporation
               (withOpacity (0.2 + humidF (params s4) * 0.3) (evaporation s4)) s4).
  destruct (updateEvaporation_pass dt s3) as [Hret4 Hev]. fold s4 in Hev.
  assert (Hrun : (modify (fun t => withShown (transp (params t)) (evap (params t)) t) ;;
                  updateTranspiration host dt ;;
                  modify (fun t =>
                    withTranspiration
                      (withOpacity (0.3 + humidF (params t) * 0.3) (transpiration t)) t) ;;
                  updateEvaporation host dt ;;
                  modify (fun t =>
                    withEvaporation
                      (withOpacity (0.2 + humidF (params t) * 0.3) (evaporation t)) t)) s
                 = Normal tt s5).
  { unfold bind at 1. unfold modify at 1. fold s1.
    rewrite bind_returns by apply updateTranspiration_returns. fold s2.
    unfold bind at 1. unfold modify at 1. fold s3.
    rewrite bind_returns by exact Hret4. reflexivity. }
  rewrite Hrun. cbn [completes finalState].
  pose proof (updateTranspiration_frame dt s1) as F2. fold s2 in F2.
  pose proof (updateEvaporation_frame dt s3) as F4. fold s4 in F4.
  unfold besidesTranspiration in F2. unfold besidesEvaporation in F4.
  injection F2 as P2 W2 T2 E2 V2 O2 L2.
  injection F4 as P4 W4 T4 E4 V4 O4 L4.
  assert (Q1 : params s1 = params s /\ waterBodies s1 = waterBodies s
               /\ treeEmitters s1 = treeEmitters s
               /\ transpiration s1 = transpiration s /\ evaporation s1 = evaporation s)
    by (repeat split; reflexivity).
  destruct Q1 as (P1 & W1 & T1 & TR1 & E1).
  assert (Q3 : params s3 = params s2 /\ waterBodies s3 = waterBodies s2
               /\ treeEmitters s3 = treeEmitters s2 /\ evaporation s3 = evaporation s2
               /\ position (transpiration s3) = position (transpiration s2)
               /\ vel (transpiration s3) = vel (transpiration s2))
    by (repeat split; reflexivity).
  destruct Q3 as (P3 & W3 & T3 & E3 & TP3 & TV3).
  assert (Q5 : params s5 = params s4 /\ waterBodies s5 = waterBodies s4
               /\ treeEmitters s5 = treeEmitters s4 /\ transpiration s5 = transpiration s4
               /\ position (evaporation s5) = position (evaporation s4)
               /\ vel (evaporation s5) = vel (evaporation s4))
    by (repeat split; reflexivity).
  destruct Q5 as (P5 & W5 & T5 & TR5 & EP5 & EV5).
  assert (TV4 : vel (transpiration s4) = vel (transpiration s2))
    by (rewrite E4; reflexivity).
  assert (TP4 : position (transpiration s4) = position (transpiration s2))
    by (rewrite E4; reflexivity).
  split; [reflexivity |].
  split; [congruence |].
  split; [congruence |].
  split; [congruence |].
  split; [congruence |].
  split.
  - intros i Hi.
    pose proof (updateTranspiration_each dt s1 i) as Ht. fold s2 in Ht.
    rewrite TR1 in Ht. specialize (Ht Hi).
    unfold transpirationOutcome, movedTranspiration, transpirationSpawn in *.
    rewrite TR1, P1, T1 in Ht.
    rewrite TR5, TP4. exact Ht.
  - intros i Hi.
    assert (E31 : evaporation s3 = evaporation s) by congruence.
    specialize (Hev i). rewrite E31 in Hev. specialize (Hev Hi).
    unfold evaporationOutcome, movedEvaporation, evaporationSpawn in *.
    rewrite E31 in Hev.
    assert (P31 : params s3 = params s) by congruence.
    assert (W31 : waterBodies s3 = waterBodies s) by congruence.
    rewrite P31, W31 in Hev. rewrite EP5. exact Hev.
Qed.

End Part000Particles.

(** *** A particle that is never recycled *)

Lemma flatHost_fair : fair flatHost.
Proof. intros n. split; qcompute. Qed.

(** In the still air of [stillSim] a frame moves the particle by 1/48 in x
    and not at all in y. *)
Lemma stillSim_drift (t : Part000.Sim) (x : Q) :
  Part000.params t = Part000.params Part000.stillSim ->
  Part000.vel (Part000.transpiration t) = [0.02; 0.2; 0] ->
  length (Part000.position (Part000.transpiration t)) = 3%nat ->
  THREE.getY (Part000.position (Part000.transpiration t)) 0 == 9.5 ->
  THREE.getX (Part000.position (Part000.transpiration t)) 0 == x ->
  let t' := finalState (Part000.updateParticles flatHost Part000.frameTime t) in
  Part000.params t' = Part000.params Part000.stillSim
  /\ Part000.vel (Part000.transpiration t') = [0.02; 0.2; 0]
  /\ length (Part000.position (Part000.transpiration t')) = 3%nat
  /\ THREE.getY (Part000.position (Part000.transpiration t')) 0 == 9.5
  /\ THREE.getX (Part000.position (Part000.transpiration t')) 0 == x + (1 # 48).
Proof.
  intros Hp Hv Hl Hy Hx t'.
  destruct (updateParticles_each flatHost flatHost_fair Part000.frameTime t)
    as (_ & Hglob & Hvel & Hlen & _ & Hout & _).
  fold t' in Hglob, Hvel, Hlen, Hout.
  injection Hglob as Hp' _ _. injection Hvel as Hv' _.
  specialize (Hout 0%nat). unfold Part000.transpirationOutcome in Hout.
  assert (Hc : (0 < THREE.count (Part000.position (Part000.transpiration t)))%nat)
    by (unfold THREE.count; rewrite Hl; cbn; lia).
  specialize (Hout Hc).
  unfold Part000.movedTranspiration in Hout. cbv zeta in Hout.
  rewrite Hv, Hp in Hout.
  change (THREE.read [0.02; 0.2; 0] (0 * 3 + 1)) with 0.2 in Hout.
  change (THREE.read [0.02; 0.2; 0] (0 * 3 + 0)) with 0.02 in Hout.
  set (y1 := THREE.getY (Part000.position (Part000.transpiration t)) 0
             + 0.2 * Part000.frameTime * Part000.transp (Part000.params Part000.stillSim))
    in Hout.
  assert (Hy1 : y1 == 9.5).
  { subst y1. rewrite Hy. reflexivity. }
  assert (Hno : Qgtb y1 30 = false).
  { apply Qgtb_false. rewrite Hy1. qcompute. }
  rewrite Hno in Hout. unfold particle in Hout.
  injection Hout as Hx' Hy' _.
  repeat split.
  - congruence.
  - congruence.
  - congruence.
  - rewrite Hy'. exact Hy1.
  - rewrite Hx', Hx. unfold Part000.frameTime. qlra.
Qed.

Lemma afterFrames_drift (n : nat) :
  forall (t : Part000.Sim) (x : Q),
    Part000.params t = Part000.params Part000.stillSim ->
    Part000.vel (Part000.transpiration t) = [0.02; 0.2; 0] ->
    length (Part000.position (Part000.transpiration t)) = 3%nat ->
    THREE.getY (Part000.position (Part000.transpiration t)) 0 == 9.5 ->
    THREE.getX (Part000.position (Part000.transpiration t)) 0 == x ->
    THREE.getX
      (Part000.position
         (Part000.transpiration (Part000.afterFrames flatHost Part000.frameTime n t))) 0
    == x + inject_Z (Z.of_nat n) * (1 # 48).
Proof.
  induction n as [| n IH]; intros t x Hp Hv Hl Hy Hx.
  - cbn [Part000.afterFrames]. rewrite Hx. cbn [Z.of_nat]. ring.
  - cbn [Part000.afterFrames].
    destruct (stillSim_drift t x Hp Hv Hl Hy Hx) as (Hp' & Hv' & Hl' & Hy' & Hx').
    rewrite (IH _ (x + (1 # 48)) Hp' Hv' Hl' Hy' Hx').
    rewrite Nat2Z.inj_succ. unfold Z.succ. rewrite inject_Z_plus. ring.
Qed.

Lemma afterFrames_height (n : nat) :
  forall (t : Part000.Sim) (x : Q),
    Part000.params t = Part000.params Part000.stillSim ->
    Part000.vel (Part000.transpiration t) = [0.02; 0.2; 0] ->
    length (Part000.position (Part000.transpiration t)) = 3%nat ->
    THREE.getY (Part000.position (Part000.transpiration t)) 0 == 9.5 ->
    THREE.getX (Part000.position (Part000.transpiration t)) 0 == x ->
    THREE.getY
      (Part000.position
         (Part000.transpiration (Part000.afterFrames flatHost Part000.frameTime n t))) 0
    == 9.5.
Proof.
  induction n as [| n IH]; intros t x Hp Hv Hl Hy Hx.
  - exact Hy.
  - cbn [Part000.afterFrames].
    destruct (stillSim_drift t x Hp Hv Hl Hy Hx) as (Hp' & Hv' & Hl' & Hy' & Hx').
    exact (IH _ (x + (1 # 48)) Hp' Hv' Hl' Hy' Hx').
Qed.

(** C7, the counterexample.  With the sliders at temperature 10 and humidity
    90 the transpiration rate is 0: the particle of [stillSim], placed in the
    box of its emitter (x from -11 to -9), stays at altitude 9.5 in every
    frame, so the ceiling test never fires and it is never recycled, while
    every frame moves it in x.  From the 49th frame on it is outside the box
    for good, and from one minute (3600 frames) on it is beyond x = 60, the
    edge of the ground: no rule of the pass brings it back.  The bounds leave room for the rounding of the
    Float32Array the positions are stored in (a frame adds about 0.0208). *)
Lemma transpiration_particle_leaves_for_good :
  (forall n : nat,
     THREE.getY
       (Part000.position
          (Part000.transpiration
             (Part000.afterFrames flatHost Part000.frameTime n Part000.stillSim))) 0
     == 9.5)
  /\ (forall n : nat,
        (48 < n)%nat ->
        -9 < THREE.getX
               (Part000.position
                  (Part000.transpiration
                     (Part000.afterFrames flatHost Part000.frameTime n Part000.stillSim))) 0)
  /\ (forall n : nat,
        (3600 <= n)%nat ->
        60 < THREE.getX
               (Part000.position
                  (Part000.transpiration
                     (Part000.afterFrames flatHost Part000.frameTime n Part000.stillSim))) 0).
Proof.
  split; [| split].
  - intros n. apply (afterFrames_height n Part000.stillSim (-10)); reflexivity.
  - intros n Hn.
    rewrite (afterFrames_drift n Part000.stillSim (-10)) by reflexivity.
    assert (H : inject_Z 49 <= inject_Z (Z.of_nat n)) by (rewrite <- Zle_Qle; lia).
    change (inject_Z 49) with 49 in H. qlra.
  - intros n Hn.
    rewrite (afterFrames_drift n Part000.stillSim (-10)) by reflexivity.
    assert (H : inject_Z 3600 <= inject_Z (Z.of_nat n)) by (rewrite <- Zle_Qle; lia).
    change (inject_Z 3600) with 3600 in H. qlra.
Qed.

(** ** part_001: the transpiration pass *)

Section Part001Particles.

Import Part001.

Variable host : Host.
Hypothesis host_fair : fair host.

(** Writing the three slots of particle [k]. *)
Lemma particle_put (a : list Q) (k : nat) (x y z : Q) :
  let a' := <[(k * 3 + 2)%nat := z]> (<[(k * 3 + 1)%nat := y]> (<[(k * 3)%nat := x]> a)) in
  length a' = length a
  /\ (forall j, j <> k -> particle a' j = particle a j)
  /\ ((k * 3 + 2 < length a)%nat -> particle a' k = (x, y, z)).
Proof.
  intros a'. subst a'.
  change (<[(k * 3 + 2)%nat := z]> (<[(k * 3 + 1)%nat := y]> (<[(k * 3)%nat := x]> a)))
    with (THREE.setZ k z (THREE.setY k y (THREE.setX k x a))).
  split; [| split].
  - rewrite length_setZ, length_setY, length_setX. reflexivity.
  - intros j Hne. unfold particle.
    rewrite getX_setZ, getX_setY, getX_setX_ne by exact Hne.
    rewrite getY_setZ, getY_setY_ne, getY_setX by exact Hne.
    rewrite getZ_setZ_ne, getZ_setY, getZ_setX by exact Hne.
    reflexivity.
  - intros Hk. assert (Hc : (k < THREE.count a)%nat) by (apply count_in; exact Hk).
    unfold particle. stride Hc. reflexivity.
Qed.

(** Under a fair host a pick fails only on the empty list. *)
Lemma pick_fair {A} (l : list A) (n : nat) :
  match pick l (Math_random host n) with
  | Some a => In a l /\ Nat.eqb (length l) 0 = false
  | None => Nat.eqb (length l) 0 = true
  end.
Proof.
  destruct l as [| a l].
  - rewrite pick_nil. reflexivity.
  - destruct (pick_in_range (a :: l) (Math_random host n)) as (q & Hq & Hin);
      [apply host_fair | discriminate |].
    rewrite Hq. split; [exact Hin | reflexivity].
Qed.

(** One iteration: it returns, leaves the simulation alone but for the count
    of draws, keeps the shape of the system and every other particle, and
    treats particle [k] as [transpirationOutcome] says. *)
Lemma transpirationStep_spec (k : nat) (sys : System) (s : Sim) :
  exists sys' s',
    transpirationStep host k sys s = Normal sys' s'
    /\ besidesDraws s' = besidesDraws s
    /\ sameShape sys sys'
    /\ (forall j, j <> k ->
          particle (positions sys') j = particle (positions sys) j
          /\ THREE.read (lifetimes sys') j = THREE.read (lifetimes sys) j)
    /\ (inSystem sys k -> transpirationOutcome (animationSpeed s) (trees s) sys sys' k).
Proof.
  unfold transpirationStep, random, bind, gets, modify, ret. cbv zeta.
  destruct s as [cp pl speed ts ps rc]. cbn [animationSpeed trees randomCalls].
  destruct sys as [a v life maxLife]. cbn [positions velocities lifetimes maxLifetime].
  rewrite !(read_insert_ne _ _ (k * 3) (k * 3 + 1)) by lia.
  rewrite !(read_insert_ne _ _ (k * 3 + 1) (k * 3 + 2)) by lia.
  rewrite !(read_insert_ne _ _ (k * 3) (k * 3 + 2)) by lia.
  destruct (particle_put a k (THREE.read a (k * 3) + THREE.read v (k * 3))
              (THREE.read a (k * 3 + 1) + THREE.read v (k * 3 + 1))
              (THREE.read a (k * 3 + 2) + THREE.read v (k * 3 + 2)))
    as (Hlen1 & Hoth1 & Hat1).
  set (pos1 := <[(k * 3 + 2)%nat := _]> _) in *.
  set (life1 := <[k := THREE.read life k + speed]> life).
  assert (Hlife1 : length life1 = length life) by apply length_insert.
  assert (Hy1 : (k * 3 + 2 < length a)%nat ->
                THREE.read pos1 (k * 3 + 1)
                = THREE.read a (k * 3 + 1) + THREE.read v (k * 3 + 1)).
  { intros Hk. specialize (Hat1 Hk). unfold particle in Hat1.
    injection Hat1 as _ Hy _. exact Hy. }
  assert (Hl1 : (k < length life)%nat -> THREE.read life1 k = THREE.read life k + speed)
    by (intros Hk; apply read_insert_eq; exact Hk).
  assert (Hmoved :
    sameShape {| positions := a; velocities := v; lifetimes := life; maxLifetime := maxLife |}
              {| positions := pos1; velocities := v; lifetimes := life1;
                 maxLifetime := maxLife |}
    /\ (forall j, j <> k ->
          particle pos1 j = particle a j /\ THREE.read life1 j = THREE.read life j)).
  { split.
    - repeat split; cbn; assumption.
    - intros j Hne. split; [apply Hoth1; exact Hne | apply read_insert_ne; lia]. }
  destruct Hmoved as [Hshape Hothers].
  destruct (Qgtb (THREE.read life1 k) maxLife || Qgtb (THREE.read pos1 (k * 3 + 1)) 20)
    eqn:Hcond.
  - cbn [trees randomCalls withRandomCalls].
    pose proof (pick_fair ts rc) as Hpick.
    destruct (pick ts (Math_random host rc)) as [tree |].
    + destruct Hpick as [Hin Hne].
      destruct (particle_put pos1 k
                  (THREE.x tree + (Math_random host (S rc) - 0.5) * 4)
                  (THREE.y tree + 4)
                  (THREE.z tree + (Math_random host (S (S rc)) - 0.5) * 4))
        as (Hlen2 & Hoth2 & Hat2).
      eexists. eexists. split; [reflexivity |].
      cbn [positions velocities lifetimes maxLifetime].
      split; [reflexivity |]. split; [| split].
      * repeat split; cbn; [congruence |].
        rewrite length_insert. exact Hlife1.
      * intros j Hj. cbn. split.
        -- rewrite (Hoth2 j Hj). apply Hothers. exact Hj.
        -- rewrite read_insert_ne by lia. apply Hothers. exact Hj.
      * intros [Hk1 Hk2]. cbn in Hk1, Hk2.
        unfold transpirationOutcome, outcomeOf. cbn. unfold THREE.getY.
        rewrite (Hl1 Hk2), (Hy1 Hk1) in Hcond. rewrite Hcond, Hne. cbn.
        split.
        -- rewrite Hat2 by (rewrite Hlen1; exact Hk1).
           exists tree, (Math_random host (S rc)), (Math_random host (S (S rc))).
           split; [exact Hin |]. repeat (split; [apply host_fair |]). reflexivity.
        -- apply read_insert_eq. rewrite Hlife1. exact Hk2.
    + eexists. eexists. split; [reflexivity |].
      split; [reflexivity |]. split; [exact Hshape |]. split; [exact Hothers |].
      intros [Hk1 Hk2]. cbn in Hk1, Hk2.
      unfold transpirationOutcome, outcomeOf. cbn. unfold THREE.getY.
      rewrite Hpick, andb_false_r.
      split; [apply Hat1; exact Hk1 | apply Hl1; exact Hk2].
  - eexists. eexists. split; [reflexivity |].
    split; [reflexivity |]. split; [exact Hshape |]. split; [exact Hothers |].
    intros [Hk1 Hk2]. cbn in Hk1, Hk2.
    unfold transpirationOutcome, outcomeOf. cbn. unfold THREE.getY.
    rewrite (Hl1 Hk2), (Hy1 Hk1) in Hcond. rewrite Hcond. cbn.
    split; [apply Hat1; exact Hk1 | apply Hl1; exact Hk2].
Qed.

Lemma sameShape_trans (a b c : System) : sameShape a b -> sameShape b c -> sameShape a c.
Proof.
  unfold sameShape. intros (H1 & H2 & H3 & H4) (G1 & G2 & G3 & G4).
  repeat split; congruence.
Qed.

(** The loop over the particles [k], ..., [k + n - 1] of one system. *)
Lemma transpirationLoop_spec (n : nat) :
  forall (k : nat) (sys : System) (s : Sim),
  exists sys' s',
    transpirationLoop host k n sys s = Normal sys' s'
    /\ besidesDraws s' = besidesDraws s
    /\ sameShape sys sys'
    /\ (forall j, (j < k \/ k + n <= j)%nat ->
          particle (positions sys') j = particle (positions sys) j
          /\ THREE.read (lifetimes sys') j = THREE.read (lifetimes sys) j)
    /\ (forall j, (k <= j < k + n)%nat -> inSystem sys j ->
          transpirationOutcome (animationSpeed s) (trees s) sys sys' j).
Proof.
  induction n as [| n IH]; intros k sys s.
  - exists sys, s. cbn [transpirationLoop]. split; [reflexivity |].
    split; [reflexivity |]. split; [repeat split |].
    split; [intros; split; reflexivity | intros j Hj; lia].
  - destruct (transpirationStep_spec k sys s) as (sys1 & s1 & E1 & F1 & Sh1 & Oth1 & Out1).
    destruct (IH (S k) sys1 s1) as (sys' & s' & E2 & F2 & Sh2 & Oth2 & Out2).
    exists sys', s'. cbn [transpirationLoop]. unfold bind at 1. rewrite E1.
    split; [exact E2 |].
    split; [congruence |].
    split; [exact (sameShape_trans _ _ _ Sh1 Sh2) |].
    unfold besidesDraws in F1. injection F1 as _ _ Hspeed Htrees _.
    destruct Sh1 as (Hv1 & Hm1 & Hp1 & Hl1).
    split.
    + intros j Hj.
      destruct (Oth1 j ltac:(lia)) as [A1 B1].
      destruct (Oth2 j ltac:(lia)) as [A2 B2].
      split; congruence.
    + intros j Hj Hin.
      destruct (Nat.eq_dec j k) as [-> | Hne].
      * specialize (Out1 Hin).
        destruct (Oth2 k ltac:(lia)) as [A2 B2].
        unfold transpirationOutcome in *. rewrite A2, B2. exact Out1.
      * assert (Hin1 : inSystem sys1 j)
          by (unfold inSystem in *; rewrite Hp1, Hl1; exact Hin).
        specialize (Out2 j ltac:(lia) Hin1).
        destruct (Oth1 j Hne) as [A1 B1].
        unfold transpirationOutcome in *.
        rewrite Hspeed, Htrees, A1, B1, Hv1, Hm1 in Out2. exact Out2.
Qed.

Lemma strides_cover (len j : nat) : (j * 3 + 2 < len)%nat -> (j < strides len)%nat.
Proof.
  unfold strides. intros H.
  apply (Nat.div_le_lower_bound (len + 2) 3 (S j)); lia.
Qed.

Lemma updateTranspirationSystem_spec (sys : System) (s : Sim) :
  exists sys' s',
    updateTranspirationSystem host sys s = Normal sys' s'
    /\ besidesDraws s' = besidesDraws s
    /\ systemOutcome (animationSpeed s) (trees s) sys sys'.
Proof.
  unfold updateTranspirationSystem.
  destruct (transpirationLoop_spec (strides (length (positions sys))) 0 sys s)
    as (sys' & s' & E & F & Sh & _ & Out).
  exists sys', s'. split; [exact E |]. split; [exact F |].
  split; [exact Sh |].
  intros j Hin. apply Out; [| exact Hin].
  destruct Hin as [Hin _]. apply strides_cover in Hin. lia.
Qed.

Lemma forEachSystem_spec (l : list System) :
  forall s : Sim,
  exists l' s',
    forEachSystem (updateTranspirationSystem host) l s = Normal l' s'
    /\ besidesDraws s' = besidesDraws s
    /\ Forall2 (systemOutcome (animationSpeed s) (trees s)) l l'.
Proof.
  induction l as [| sys rest IH]; intros s.
  - exists [], s. cbn. repeat split. constructor.
  - destruct (updateTranspirationSystem_spec sys s) as (sys' & s1 & E1 & F1 & O1).
    destruct (IH s1) as (rest' & s' & E2 & F2 & O2).
    exists (sys' :: rest'), s'. cbn [forEachSystem]. unfold bind at 1. rewrite E1.
    unfold bind at 1. rewrite E2. split; [reflexivity |].
    split; [congruence |].
    unfold besidesDraws in F1. injection F1 as _ _ Hspeed Htrees _.
    rewrite Hspeed, Htrees in O2.
    constructor; assumption.
Qed.

(** The transpiration pass of [updateParticles]: it completes; climate,
    animation speed, trees and the other three particle families are as
    before; and the transpiration systems are as many as before, each of the
    same shape and with every particle treated as the loop prescribes. *)
Lemma transpirationPass_spec (s : Sim) :
  let s' := finalState (updateTranspiration host s) in
  completes (updateTranspiration host s) = true
  /\ (climateParams s', isPlaying s', animationSpeed s', trees s')
     = (climateParams s, isPlaying s, animationSpeed s, trees s)
  /\ (evaporation (particles s'), precipitation (particles s'), runoff (particles s'))
     = (evaporation (particles s), precipitation (particles s), runoff (particles s))
  /\ Forall2 (systemOutcome (animationSpeed s) (trees s))
       (transpiration (particles s)) (transpiration (particles s')).
Proof.
  intros s'. subst s'.
  destruct (forEachSystem_spec (transpiration (particles s)) s) as (l' & s1 & E & F & O).
  assert (Hrun : updateTranspiration host s
                 = Normal tt
                     (withParticles
                        {| evaporation := evaporation (particles s1);
                           transpiration := l';
                           precipitation := precipitation (particles s1);
                           runoff := runoff (particles s1) |} s1)).
  { unfold updateTranspiration, bind, gets, modify. rewrite E. reflexivity. }
  rewrite Hrun. cbn [completes finalState].
  unfold besidesDraws in F. injection F as Hc Hp Hs Ht Hps.
  destruct s1 as [cp1 pl1 sp1 ts1 ps1 rc1]. cbn in *. subst.
  repeat split. exact O.
Qed.

End Part001Particles.

(** ** The pools across the three variants *)

(** C7, as the code has it.  Under a host whose [Math.random()] stays in
    [0, 1), for the evaporation pass of old-script.js, for
    [updateParticles] of part_000 and for the transpiration pass of part_001:
    the pass keeps the size of every pool it works on, and it puts a particle
    it recycles into the spawn domain of its pool (altitude 0.5 for the first,
    the box of a tree emitter or a lake surface for the second, the box of a
    tree for the third), leaving any other particle where the move of this
    frame took it.  Recycling is decided by the altitude (and the lifetime, in
    part_001) alone. *)
Theorem passes_keep_pools_and_recycle_into_spawn (host : Host) :
  fair host ->
  (forall (isActive : bool) (p : Q) (s : OldScript.Sim),
     let s' := finalState (OldScript.updateEvaporation host isActive p s) in
     length (OldScript.position (OldScript.evaporation s'))
     = length (OldScript.position (OldScript.evaporation s))
     /\ forall i,
          isActive = true ->
          (i < THREE.count (OldScript.position (OldScript.evaporation s)))%nat ->
          particle (OldScript.position (OldScript.evaporation s')) i
          = (THREE.getX (OldScript.position (OldScript.evaporation s)) i,
             (if Qgtb (OldScript.risenY s i) 30 then 0.5 else OldScript.risenY s i),
             THREE.getZ (OldScript.position (OldScript.evaporation s)) i))
  /\ (forall (dt : Q) (s : Part000.Sim),
        let s' := finalState (Part000.updateParticles host dt s) in
        completes (Part000.updateParticles host dt s) = true
        /\ length (Part000.position (Part000.transpiration s'))
           = length (Part000.position (Part000.transpiration s))
        /\ length (Part000.position (Part000.evaporation s'))
           = length (Part000.position (Part000.evaporation s))
        /\ (forall i,
              (i < THREE.count (Part000.position (Part000.transpiration s)))%nat ->
              Part000.transpirationOutcome dt s s' i)
        /\ (forall i,
              (i < THREE.count (Part000.position (Part000.evaporation s)))%nat ->
              Part000.evaporationOutcome dt s s' i))
  /\ (forall s : Part001.Sim,
        let s' := finalState (Part001.updateTranspiration host s) in
        completes (Part001.updateTranspiration host s) = true
        /\ Forall2 (Part001.systemOutcome (Part001.animationSpeed s) (Part001.trees s))
             (Part001.transpiration (Part001.particles s))
             (Part001.transpiration (Part001.particles s'))).
Proof.
  intros Hfair. split; [| split].
  - intros isActive p s s'. split.
    + apply (updateEvaporation_keeps_length host isActive p s).
    + intros i -> Hi.
      destruct (updateEvaporation_each host p s i Hi) as (_ & _ & H). exact H.
  - intros dt s s'.
    destruct (updateParticles_each host Hfair dt s) as (H1 & _ & _ & H2 & H3 & H4 & H5).
    auto.
  - intros s s'.
    destruct (transpirationPass_spec host Hfair s) as (H1 & _ & _ & H2).
    auto.
Qed.

(** C7 on [flatHost], at a recycle event: the evaporation particle of
    [ceilingSim] rises from 29.9 to 30.3 under an active pass of old-script.js,
    above the ceiling of 30, and the pass puts it back at altitude 0.5. *)
Lemma passes_keep_pools_and_recycle_into_spawn_witness :
  let s := OldScript.ceilingSim in
  let s' := finalState (OldScript.updateEvaporation flatHost true 0.5 s) in
  (fair flatHost /\ (0 < THREE.count (OldScript.position (OldScript.evaporation s)))%nat)
  /\ Qgtb (OldScript.risenY s 0) 30 = true
  /\ particle (OldScript.position (OldScript.evaporation s')) 0
     = (THREE.getX (OldScript.position (OldScript.evaporation s)) 0,
        (if Qgtb (OldScript.risenY s 0) 30 then 0.5 else OldScript.risenY s 0),
        THREE.getZ (OldScript.position (OldScript.evaporation s)) 0).
Proof.
  intros s s'.
  assert (Hi : (0 < THREE.count (OldScript.position (OldScript.evaporation s)))%nat)
    by (vm_compute; repeat constructor).
  assert (Hup : Qgtb (OldScript.risenY s 0) 30 = true) by (vm_compute; reflexivity).
  split; [split; [exact flatHost_fair | exact Hi] |]. split; [exact Hup |].
  exact (proj2 (proj1 (passes_keep_pools_and_recycle_into_spawn flatHost flatHost_fair)
                  true 0.5 s) 0%nat eq_refl Hi).
Defined.

(** ** Reset *)

(** C8, as the code has it.  [resetSimulation] of old-script.js puts the
    climate parameters back to their defaults and the clock back to
    (EVAPORATION, 0), announcing the phase; [resetSimulation] of part_001 and
    the reset handler of part_000 put the climate parameters back to their
    defaults.  All three complete, and all three leave every particle pool,
    the clouds and the trees exactly as they were. *)
Theorem resetSimulation_resets_clock_and_climate_only :
  (forall s : OldScript.Sim,
     let s' := finalState (OldScript.resetSimulation s) in
     completes (OldScript.resetSimulation s) = true
     /\ OldScript.cycleState s' = OldScript.EVAPORATION
     /\ OldScript.cycleTimer s' = 0
     /\ OldScript.params s' = {| OldScript.temperature := 15; OldScript.windSpeed := 10 |}
     /\ OldScript.stageLog s' = OldScript.EVAPORATION :: OldScript.stageLog s
     /\ OldScript.evaporation s' = OldScript.evaporation s
     /\ OldScript.rain s' = OldScript.rain s
     /\ OldScript.runoff s' = OldScript.runoff s
     /\ OldScript.clouds s' = OldScript.clouds s)
  /\ (forall s : Part001.Sim,
        let s' := finalState (Part001.resetSimulation s) in
        completes (Part001.resetSimulation s) = true
        /\ Part001.climateParams s' = Part001.defaultClimate
        /\ Part001.particles s' = Part001.particles s
        /\ Part001.trees s' = Part001.trees s)
  /\ (forall s : Part000.Sim,
        let s' := finalState (Part000.onReset s) in
        completes (Part000.onReset s) = true
        /\ Part000.params s'
           = {| Part000.temperature := 25; Part000.humidity := 50; Part000.windSpeed := 5 |}
        /\ Part000.transpiration s' = Part000.transpiration s
        /\ Part000.evaporation s' = Part000.evaporation s).
Proof.
  split; [| split]; intros []; cbn; repeat split; reflexivity.
Qed.

(** As created, the first evaporation particle of [miniSim] is in the spawn
    domain (both draws 1/2). *)
Example miniSim_particle_spawned :
  OldScript.evaporationSpawn
    (particle (OldScript.position (OldScript.evaporation OldScript.miniSim)) 0).
Proof.
  unfold OldScript.evaporationSpawn, particle.
  exists 0.5, 0.5. repeat split; vm_compute; try reflexivity; intro H; discriminate H.
Qed.

(** C8, the counterexample.  In [risenSim] the first evaporation particle
    has risen from 0.5 to 0.9; after [resetSimulation] the pool is what it was,
    the particle is still at 0.9, and so it is not where
    [createEvaporationParticles] puts particles. *)
Lemma resetSimulation_leaves_particles_risen :
  let s := OldScript.risenSim in
  let s' := finalState (OldScript.resetSimulation s) in
  OldScript.position (OldScript.evaporation s') = OldScript.position (OldScript.evaporation s)
  /\ THREE.getY (OldScript.position (OldScript.evaporation s')) 0 == 0.9
  /\ ~ OldScript.evaporationSpawn (particle (OldScript.position (OldScript.evaporation s')) 0).
Proof.
  cbv zeta.
  assert (Hy : THREE.getY
                 (OldScript.position
                    (OldScript.evaporation
                       (finalState (OldScript.resetSimulation OldScript.risenSim)))) 0
               == 0.9) by (vm_compute; reflexivity).
  split; [vm_compute; reflexivity |]. split; [exact Hy |].
  unfold OldScript.evaporationSpawn, particle.
  intros (r1 & r2 & _ & _ & _ & Hy' & _).
  rewrite Hy in Hy'. revert Hy'. clear. qcompute.
Qed.

(** ** Loops under a condition on what they leave alone

    As [forRange_each], for iterations that behave only while [P] holds of
    the part of the state no iteration changes. *)

Section LoopsWhen.

Context {St G O : Type} (glob : St -> G) (obs : nat -> St -> O).
Variable body : nat -> Exec St unit.
Variable P : G -> Prop.
Variable R : nat -> G -> O -> O -> Prop.

Hypothesis body_glob : forall k, keeps glob (body k).
Hypothesis body_other : forall k i, i <> k -> keeps (obs i) (body k).
Hypothesis body_completes : forall k s, P (glob s) -> completes (body k s) = true.
Hypothesis body_step :
  forall k s, P (glob s) -> R k (glob s) (obs k s) (obs k (finalState (body k s))).

Lemma forRange_completes_when (n : nat) :
  forall start s, P (glob s) -> completes (forRange start n body s) = true.
Proof.
  induction n as [| n IH]; intros start s HP; cbn [forRange].
  - reflexivity.
  - unfold bind. pose proof (body_completes start s HP) as Hc.
    pose proof (body_glob start s) as Hg.
    destruct (body start s) as [[] s1 | e s1]; [| discriminate].
    cbn [finalState] in Hg. apply IH. rewrite Hg. exact HP.
Qed.

Lemma forRange_each_when (n : nat) :
  forall start s i,
    P (glob s) ->
    (start <= i < start + n)%nat ->
    R i (glob s) (obs i s) (obs i (finalState (forRange start n body s))).
Proof.
  induction n as [| n IH]; intros start s i HP Hi; [lia |].
  cbn [forRange]. unfold bind.
  pose proof (body_completes start s HP) as Hc.
  pose proof (body_step start s HP) as Hstep.
  pose proof (body_glob start s) as Hg.
  pose proof (fun j Hj => body_other start j Hj s) as Ho.
  destruct (body start s) as [[] s1 | e s1]; [| discriminate].
  cbn [finalState] in Hstep, Hg, Ho.
  destruct (Nat.eq_dec i start) as [-> | Hne].
  - rewrite (forRange_outside obs body body_other n (S start) start); [exact Hstep | lia].
  - assert (HP1 : P (glob s1)) by (rewrite Hg; exact HP).
    specialize (IH (S start) s1 i HP1 ltac:(lia)).
    rewrite Hg, (Ho i Hne) in IH. exact IH.
Qed.

End LoopsWhen.

(** A loop whose iterations each complete and take the invariant of stage
    [m] to that of stage [m + 1] completes and goes through as many stages
    as it has iterations. *)
Lemma forRange_stages {St} (I : nat -> St -> Prop) (body : nat -> Exec St unit) :
  (forall m k s, I m s ->
     completes (body k s) = true /\ I (S m) (finalState (body k s))) ->
  forall n m start s,
    I m s ->
    completes (forRange start n body s) = true
    /\ I (m + n)%nat (finalState (forRange start n body s)).
Proof.
  intros H. induction n as [| n IH]; intros m start s HI; cbn [forRange].
  - rewrite Nat.add_0_r. split; [reflexivity | exact HI].
  - unfold bind. destruct (H m start s HI) as [Hc HI'].
    destruct (body start s) as [[] s1 | e s1]; [| discriminate].
    cbn [finalState] in HI'. rewrite Nat.add_succ_r.
    apply (IH (S m) (S start) s1 HI').
Qed.

(** ** old-script.js: a phase lasts while the timer stays within its duration *)

Section PhaseSteady.

Import OldScript.

Variable h : Host.


End PhaseSteady.



(** ** old-script.js: the precipitation pass and the whole frame *)

Section OldScriptRain.

Import OldScript.

Variable h : Host.
Hypothesis h_fair : fair h.

(** What the precipitation pass leaves alone. *)
Lemma precipitationPass_frame (isActive : bool) (p : Q) :
  keeps (fun t => (params t, clouds t, cloudOpacity t, evaporation t, runoff t,
                   velocities (rain t), length (position (rain t))))
        (updatePrecipitation h isActive p).
Proof.
  unfold updatePrecipitation, resetToCloud, onRain, random. cbv zeta.
  frame_split; cbn; rewrite ?length_setX, ?length_setY, ?length_setZ; reflexivity.
Qed.

(** With a cloud to go back to, an active precipitation pass completes and
    treats every drop as [rainOutcome] says. *)
Lemma precipitationPass_each (p : Q) (s : Sim) :
  clouds s <> [] ->
  let s' := finalState (updatePrecipitation h true p s) in
  completes (updatePrecipitation h true p s) = true
  /\ forall i, (i < THREE.count (position (rain s)))%nat -> rainOutcome h s s' i.
Proof.
  intros Hclouds s'. subst s'. unfold updatePrecipitation. cbn [negb]. cbv zeta.
  match goal with
  | |- context [bind (modify ?f) (fun _ => bind (gets ?g) (fun n0 => forRange 0 n0 ?b))] =>
      set (body := b);
      change (bind (modify f) (fun _ => bind (gets g) (fun n0 => forRange 0 n0 body)) s)
        with (forRange 0 (g (f s)) body (f s));
      set (s0 := f s)
  end.
  cbv beta.
  assert (Hs0 : position (rain s0) = position (rain s)
                /\ velocities (rain s0) = velocities (rain s)
                /\ params s0 = params s /\ clouds s0 = clouds s)
    by (repeat split; reflexivity).
  destruct Hs0 as (Hpos & Hvel & Hprm & Hcl).
  rewrite Hpos.
  set (n := THREE.count (position (rain s))) in *.
  set (glob := fun t : Sim =>
         (velocities (rain t), params t, clouds t, length (position (rain t)))).
  set (obs := fun (k : nat) (t : Sim) => particle (position (rain t)) k).
  set (P := fun g : list Q * Params * list THREE.Vector3 * nat =>
         let '(_, _, cs, _) := g in cs <> []).
  set (R := fun (k : nat) (g : list Q * Params * list THREE.Vector3 * nat)
                (o o' : Q * Q * Q) =>
         let '(v, prm, cs, len) := g in
         let '(x, y, z) := o in
         let x1 := x + windSpeed prm / 50 in
         let y1 := y + THREE.read v (k * 3 + 1) in
         (k * 3 + 2 < len)%nat ->
         if belowTerrain (intersectTerrain h x1 z) y1 || Qltb y1 (-10)
         then exists cloud r1 r2,
                In cloud cs
                /\ unitDraw r1 /\ unitDraw r2
                /\ o' = (THREE.x cloud + (r1 - 0.5) * 10, THREE.y cloud,
                         THREE.z cloud + (r2 - 0.5) * 10)
         else o' = (x1, y1, z)).
  assert (Hglob : forall k, keeps glob (body k)).
  { intros k. subst body glob. cbv beta.
    unfold resetToCloud, onRain, random.
    frame_split; cbn; rewrite ?length_setX, ?length_setY, ?length_setZ; reflexivity. }
  assert (Hother : forall k j, j <> k -> keeps (obs j) (body k)).
  { intros k j Hne. subst body obs. cbv beta.
    unfold resetToCloud, onRain, random, particle.
    frame_split; cbn;
      rewrite ?getX_setY, ?getX_setZ, ?getY_setX, ?getY_setZ, ?getZ_setX, ?getZ_setY,
        ?getX_setX_ne, ?getY_setY_ne, ?getZ_setZ_ne by exact Hne;
      reflexivity. }
  assert (Hreset : forall k (t : Sim),
             clouds t <> [] ->
             completes (resetToCloud h k t) = true
             /\ ((k < THREE.count (position (rain t)))%nat ->
                 exists cloud r1 r2,
                   In cloud (clouds t) /\ unitDraw r1 /\ unitDraw r2
                   /\ particle (position (rain (finalState (resetToCloud h k t)))) k
                      = (THREE.x cloud + (r1 - 0.5) * 10, THREE.y cloud,
                         THREE.z cloud + (r2 - 0.5) * 10))).
  { intros k t Ht. unfold resetToCloud, onRain, random, bind, gets, modify, ret.
    destruct t as [? ? ? ? cs ? ? [a v o] ? ? rc]. cbn in *.
    pose proof (pick_fair h h_fair cs rc) as Hp.
    destruct (pick cs (Math_random h rc)) as [cloud |].
    - destruct Hp as [Hin _]. split; [reflexivity |]. intros Hc.
      exists cloud, (Math_random h (S rc)), (Math_random h (S (S rc))).
      split; [exact Hin |]. repeat (split; [apply h_fair |]).
      cbn. unfold particle. stride Hc. reflexivity.
    - destruct cs; [congruence | discriminate]. }
  assert (Hret : forall k t, P (glob t) -> completes (body k t) = true).
  { intros k t HP. subst body P glob. cbv beta iota in *.
    destruct t as [? prm ? ? cs ? ? [a v o] ? ? rc]. cbn in HP.
    unfold onRain, bind, gets, modify, ret. cbn -[resetToCloud].
    destruct (belowTerrain _ _); [apply Hreset; exact HP |].
    destruct (Qltb _ (-10)); [apply Hreset; exact HP | reflexivity]. }
  assert (Hstep : forall k t, P (glob t) ->
             R k (glob t) (obs k t) (obs k (finalState (body k t)))).
  { intros k t HP. subst body R P glob obs. cbv beta iota zeta in *.
    destruct t as [? prm ? ? cs ? ? [a v o] ? ? rc]. cbn in HP.
    unfold particle at 1. cbv beta iota zeta. cbn [rain position velocities params clouds].
    intros Hk.
    assert (Hc : (k < THREE.count a)%nat) by (apply count_in; exact Hk).
    unfold onRain, bind, gets, modify, ret. cbn -[resetToCloud particle]. stride Hc.
    destruct (belowTerrain _ _); cbn -[resetToCloud particle].
    - match goal with
      | |- context [resetToCloud h k ?T] =>
          destruct (Hreset k T HP) as [_ Hsp]
      end.
      apply Hsp. cbn. in_array Hc.
    - destruct (Qltb _ (-10)); cbn -[resetToCloud particle].
      + match goal with
        | |- context [resetToCloud h k ?T] =>
            destruct (Hreset k T HP) as [_ Hsp]
        end.
        apply Hsp. cbn. in_array Hc.
      + unfold particle. stride Hc. reflexivity. }
  split.
  - apply (forRange_completes_when glob body P Hglob Hret).
    subst P glob. cbv beta iota. rewrite Hcl. exact Hclouds.
  - intros i Hi.
    pose proof (forRange_each_when glob obs body P R Hglob Hother Hret Hstep n 0%nat s0 i)
      as He.
    subst R P glob obs. cbv beta iota zeta in He.
    rewrite Hpos, Hvel, Hprm, Hcl in He.
    unfold rainOutcome, movedRain, cloudSpawn. cbv zeta.
    unfold particle at 1 in He. apply He; [exact Hclouds | lia |].
    apply in_count. exact Hi.
Qed.

(** C5, as the code has it.  The recycle rule of [updatePrecipitation] has
    no fall back: it always restarts the drop at a randomly picked cloud.
    With at least one cloud in the list and [Math.random()] in [0, 1), an
    active pass completes without an exception, keeps the size of the rain
    pool, its velocities and the clouds, and treats every drop as the loop
    prescribes: it moves the drop by the wind in x and by its velocity in y; a
    drop the move took below the terrain under it, or below -10, restarts
    within 5 of a cloud of the list, at the altitude of that cloud. *)
Theorem rain_pass_recycles_into_clouds (p : Q) (s : Sim) :
  clouds s <> [] ->
  let s' := finalState (updatePrecipitation h true p s) in
  completes (updatePrecipitation h true p s) = true
  /\ length (position (rain s')) = length (position (rain s))
  /\ velocities (rain s') = velocities (rain s)
  /\ clouds s' = clouds s
  /\ forall i, (i < THREE.count (position (rain s)))%nat -> rainOutcome h s s' i.
Proof.
  intros Hclouds s'. subst s'.
  destruct (precipitationPass_each p s Hclouds) as [Hc Hout].
  pose proof (precipitationPass_frame true p s) as F. cbv beta in F.
  injection F as _ Fc _ _ _ Fv Fl.
  split; [exact Hc |]. split; [exact Fl |]. split; [exact Fv |]. split; [exact Fc |].
  exact Hout.
Qed.

End OldScriptRain.

Section OldScriptFrame.

Import OldScript.

Variable h : Host.

Lemma evaporationPass_returns (isActive : bool) (p : Q) :
  returns (updateEvaporation h isActive p).
Proof. unfold updateEvaporation, onEvaporation, when. returns_split. Qed.

Lemma condensationPass_returns (isActive : bool) (p : Q) :
  returns (updateCondensation h isActive p).
Proof. unfold updateCondensation. apply returns_modify. Qed.

(** What the evaporation pass leaves alone. *)
Lemma evaporationPass_frame (isActive : bool) (p : Q) :
  keeps (fun t => (params t, clouds t, cloudOpacity t, rain t, runoff t))
        (updateEvaporation h isActive p).
Proof. unfold updateEvaporation, onEvaporation. frame_split; reflexivity. Qed.

(** What the condensation pass leaves alone. *)
Lemma condensationPass_frame (isActive : bool) (p : Q) :
  keeps (fun t => (params t, clouds t, evaporation t, rain t, runoff t))
        (updateCondensation h isActive p).
Proof.
  unfold updateCondensation. apply keeps_modify. intros t.
  destruct t as [? ? ? ? [|] ? ? ? ? ? ?]; reflexivity.
Qed.

Lemma afterTransition_keeps (delta : Q) (s : Sim) :
  (params (afterTransition delta s), clouds (afterTransition delta s),
   evaporation (afterTransition delta s), rain (afterTransition delta s),
   runoff (afterTransition delta s))
  = (params s, clouds s, evaporation s, rain s, runoff s).
Proof.
  unfold afterTransition. cbv zeta. cbn [cycleTimer withCycleTimer].
  destruct (Qgtb _ _); [| reflexivity].
  destruct s as [? ? [] ? ? ? ? ? ? ? ?]; reflexivity.
Qed.

(** The particle passes, pass by pass: the evaporation and condensation
    passes return; the precipitation pass runs on the state they leave. *)
Lemma particlePasses_runs (p : Q) (t : Sim) :
  let t1 := finalState (updateEvaporation h (CycleState_eqb (cycleState t) EVAPORATION) p t) in
  let t2 := finalState (updateCondensation h (CycleState_eqb (cycleState t) CONDENSATION) p t1) in
  particlePasses h p t
  = (updatePrecipitation h (CycleState_eqb (cycleState t) PRECIPITATION) p ;; ret tt) t2
  /\ clockOf t2 = clockOf t
  /\ (params t2, clouds t2, rain t2, runoff t2) = (params t, clouds t, rain t, runoff t)
  /\ evaporation t2 = evaporation t1.
Proof.
  intros t1 t2.
  pose proof (updateEvaporation_keeps_clock h (CycleState_eqb (cycleState t) EVAPORATION) p t)
    as K1. fold t1 in K1.
  pose proof (updateCondensation_keeps_clock h
                (CycleState_eqb (cycleState t) CONDENSATION) p t1) as K2. fold t2 in K2.
  pose proof (evaporationPass_frame (CycleState_eqb (cycleState t) EVAPORATION) p t)
    as F1. fold t1 in F1. cbv beta in F1.
  pose proof (condensationPass_frame (CycleState_eqb (cycleState t) CONDENSATION) p t1)
    as F2. fold t2 in F2. cbv beta in F2.
  assert (S1 : cycleState t1 = cycleState t) by (unfold clockOf in K1; congruence).
  assert (S2 : cycleState t2 = cycleState t) by (unfold clockOf in K1, K2; congruence).
  split; [| split; [congruence | split; congruence]].
  unfold particlePasses, updateCollection.
  unfold bind at 1. unfold gets at 1.
  rewrite bind_returns by apply evaporationPass_returns. fold t1.
  unfold bind at 1. unfold gets at 1. rewrite S1.
  rewrite bind_returns by apply condensationPass_returns. fold t2.
  unfold bind at 1. unfold gets at 1. rewrite S2.
  unfold bind. destruct (updatePrecipitation _ _ _ t2) as [[] t3 | e t3] eqn:E;
    [| reflexivity].
  unfold gets, ret. reflexivity.
Qed.

(** No cycle update touches the clouds' positions, the parameters, the
    runoff pool or the play flag. *)
Lemma updateWaterCycle_keeps_scene (delta : Q) :
  keeps (fun t => (clouds t, params t, runoff t, isPlaying t)) (updateWaterCycle h delta).
Proof.
  unfold updateWaterCycle, updateEvaporation, updateCondensation, updatePrecipitation,
    updateCollection, updateCycleStage, resetToCloud, onEvaporation, onRain, random.
  cbv zeta. frame_split; try reflexivity;
    cbn;
    match goal with
    | |- context [match ?c with _ => _ end] => is_var c; destruct c; reflexivity
    end.
Qed.

(** An inactive pass hides its pool and moves nothing. *)
Lemma evaporationPass_inactive (p : Q) (t : Sim) :
  updateEvaporation h false p t
  = Normal tt (withEvaporation (withOpacity 0 (evaporation t)) t).
Proof. reflexivity. Qed.

Lemma precipitationPass_inactive (p : Q) (t : Sim) :
  updatePrecipitation h false p t = Normal tt (withRain (withOpacity 0 (rain t)) t).
Proof. reflexivity. Qed.

(** Under a host whose [Math.random()] stays in [0, 1), a cycle update
    started with at least one cloud completes: no particle pass throws,
    whatever the delta and the phase. *)
Lemma updateWaterCycle_completes (delta : Q) (s : Sim) :
  fair h ->
  clouds s <> [] ->
  completes (updateWaterCycle h delta s) = true.
Proof.
  intros Hfair Hclouds. rewrite updateWaterCycle_runs.
  set (t := afterTransition delta s).
  destruct (particlePasses_runs (localProgress delta s) t) as (E & _ & F & _).
  rewrite E. clear E.
  set (t2 := finalState (updateCondensation h _ _ _)) in *.
  injection F as _ Hc _ _.
  pose proof (afterTransition_keeps delta s) as A. fold t in A. injection A as _ Hc' _ _ _.
  unfold bind.
  destruct (CycleState_eqb (cycleState t) PRECIPITATION).
  - destruct (precipitationPass_each h Hfair (localProgress delta s) t2) as [Hret _];
      [congruence |].
    destruct (updatePrecipitation h true _ t2) as [[] t3 | e t3];
      [reflexivity | discriminate].
  - rewrite precipitationPass_inactive. reflexivity.
Qed.

(** X2. Whatever the host and the clouds, a frame that does not end in the
    PRECIPITATION phase completes: only the precipitation pass can throw. *)
Theorem frame_completes_outside_precipitation (delta : Q) (s : Sim) :
  cycleState (finalState (updateWaterCycle h delta s)) <> PRECIPITATION ->
  completes (updateWaterCycle h delta s) = true.
Proof.
  intros Hphase.
  pose proof (updateWaterCycle_clock h delta s) as Hclock.
  rewrite updateWaterCycle_runs.
  set (t := afterTransition delta s) in *.
  assert (Ht : cycleState t <> PRECIPITATION).
  { unfold clockOf in Hclock. injection Hclock as Hs _ _. congruence. }
  destruct (particlePasses_runs (localProgress delta s) t) as (E & _).
  rewrite E. unfold bind.
  destruct (cycleState t); try congruence; cbn [CycleState_eqb];
    rewrite precipitationPass_inactive; reflexivity.
Qed.

(** X3. Phase gating.  A frame moves the particles of a pool only in the
    phase of that pool: when it does not end in EVAPORATION the evaporation
    positions are what they were and the pool is hidden (opacity 0), and
    likewise for the rain outside PRECIPITATION.  No frame touches the runoff
    pool, the clouds or the parameters. *)
Theorem frame_moves_only_the_active_pool (delta : Q) (s : Sim) :
  let s' := finalState (updateWaterCycle h delta s) in
  (cycleState s' <> EVAPORATION ->
     position (evaporation s') = position (evaporation s)
     /\ opacity (evaporation s') = 0)
  /\ (cycleState s' <> PRECIPITATION ->
       position (rain s') = position (rain s) /\ opacity (rain s') = 0)
  /\ runoff s' = runoff s
  /\ clouds s' = clouds s
  /\ params s' = params s.
Proof.
  intros s'. subst s'.
  pose proof (updateWaterCycle_clock h delta s) as Hclock.
  rewrite updateWaterCycle_runs in *.
  set (t := afterTransition delta s) in *.
  set (p := localProgress delta s) in *.
  pose proof (afterTransition_keeps delta s) as A. fold t in A.
  injection A as Ap Ac Ae Ar Aro.
  destruct (particlePasses_runs p t) as (E & _ & F & Fe).
  set (t1 := finalState (updateEvaporation h _ p t)) in *.
  set (t2 := finalState (updateCondensation h _ p t1)) in *.
  injection F as Fp Fc Fr Fro.
  rewrite E in *. clear E.
  assert (Hfin : finalState ((updatePrecipitation h
                    (CycleState_eqb (cycleState t) PRECIPITATION) p ;; ret tt) t2)
                 = finalState (updatePrecipitation h
                    (CycleState_eqb (cycleState t) PRECIPITATION) p t2)).
  { unfold bind. destruct (updatePrecipitation _ _ _ t2) as [[] t3 | e t3]; reflexivity. }
  rewrite Hfin in *. clear Hfin.
  pose proof (precipitationPass_frame h (CycleState_eqb (cycleState t) PRECIPITATION) p t2)
    as G. cbv beta in G.
  set (t3 := finalState (updatePrecipitation h _ p t2)) in *.
  injection G as Gp Gc _ Ge Gro _ _.
  unfold clockOf in Hclock. injection Hclock as Hs _ _.
  split; [| split; [| repeat split; congruence]].
  - intros Hne. rewrite Ge, Fe.
    assert (Ht : cycleState t <> EVAPORATION) by congruence.
    subst t1. destruct (cycleState t); try congruence; cbn [CycleState_eqb];
      rewrite evaporationPass_inactive; cbn; rewrite Ae; split; reflexivity.
  - intros Hne.
    assert (Ht : cycleState t <> PRECIPITATION) by congruence.
    clearbody t2. subst t3.
    destruct (cycleState t); try congruence; cbn [CycleState_eqb];
      rewrite precipitationPass_inactive; cbn; rewrite Fr, Ar; split; reflexivity.
Qed.

End OldScriptFrame.

(** ** old-script.js: the frame loop, the clouds and the pools *)

Section OldScriptScene.

Import OldScript.

Variable h : Host.
Hypothesis h_fair : fair h.

(** The drift [animate] gives a cloud: with the wind, back to -100 once past
    100. *)
Lemma animate_runs (delta : Q) (s : Sim) :
  let t := finalState (updateWaterCycle h delta s) in
  isPlaying s = true ->
  completes (updateWaterCycle h delta s) = true ->
  animate h delta s
  = Normal tt
      (withClouds
         (map (fun cloud =>
                 let x' := THREE.x cloud + delta * windSpeed (params t) / 5 in
                 {| THREE.x := if Qgtb x' 100 then -100 else x';
                    THREE.y := THREE.y cloud;
                    THREE.z := THREE.z cloud |})
              (clouds t)) t).
Proof.
  intros t Hplay Hc. subst t. unfold animate.
  unfold bind at 1. unfold gets at 1. rewrite Hplay. cbn [negb].
  unfold bind. destruct (updateWaterCycle h delta s) as [[] t | e t]; [| discriminate].
  reflexivity.
Qed.

Lemma animate_completes (delta : Q) (s : Sim) :
  clouds s <> [] ->
  completes (animate h delta s) = true
  /\ length (clouds (finalState (animate h delta s))) = length (clouds s).
Proof.
  intros Hclouds. destruct (isPlaying s) eqn:Hplay.
  - pose proof (updateWaterCycle_completes h delta s h_fair Hclouds) as Hc.
    rewrite (animate_runs delta s Hplay Hc).
    split; [reflexivity |]. cbn [finalState clouds withClouds].
    rewrite length_map. f_equal.
    exact (f_equal (fun v => fst (fst (fst v))) (updateWaterCycle_keeps_scene h delta s)).
  - unfold animate. unfold bind, gets. rewrite Hplay. split; reflexivity.
Qed.

Lemma frames_complete (deltas : list Q) :
  forall s, clouds s <> [] -> allComplete h deltas s = true.
Proof.
  induction deltas as [| d rest IH]; intros s Hclouds; cbn [allComplete].
  - reflexivity.
  - destruct (animate_completes d s Hclouds) as [Hc Hlen].
    rewrite Hc. cbn [andb]. apply IH.
    intros Hnil. apply Hclouds. rewrite Hnil in Hlen.
    destruct (clouds s); [reflexivity | discriminate].
Qed.

Lemma Forall2_map_self {A B} (f : A -> B) (l : list A) :
  Forall2 (fun a b => b = f a) l (map f l).
Proof. induction l; constructor; [reflexivity | assumption]. Qed.

(** X5. A playing frame moves every cloud with the wind and wraps it: each
    cloud keeps its place in the list, its altitude and its depth, and its x
    becomes x + delta * windSpeed / 5, or -100 when that sum is above 100; so
    no cloud is left beyond 100. *)
Theorem animate_drifts_and_wraps_clouds (delta : Q) (s : Sim) :
  isPlaying s = true ->
  let s' := finalState (animate h delta s) in
  Forall2 (fun cloud cloud' =>
             let x' := THREE.x cloud + delta * windSpeed (params s) / 5 in
             cloud' = {| THREE.x := (if Qgtb x' 100 then -100 else x');
                         THREE.y := THREE.y cloud;
                         THREE.z := THREE.z cloud |})
    (clouds s) (clouds s')
  /\ Forall (fun cloud' => THREE.x cloud' <= 100) (clouds s').
Proof.
  intros Hplay s'. subst s'.
  pose proof (updateWaterCycle_keeps_scene h delta s) as Hk. cbv beta in Hk.
  assert (Hkc : clouds (finalState (updateWaterCycle h delta s)) = clouds s)
    by exact (f_equal (fun v => fst (fst (fst v))) Hk).
  assert (Hkp : params (finalState (updateWaterCycle h delta s)) = params s)
    by exact (f_equal (fun v => snd (fst (fst v))) Hk).
  clear Hk.
  destruct (clouds s) as [| c0 cs] eqn:Hcl.
  - assert (Hnil : clouds (finalState (animate h delta s)) = []).
    { unfold animate. unfold bind at 1. unfold gets at 1. rewrite Hplay. cbn [negb].
      unfold bind. destruct (updateWaterCycle h delta s) as [[] t | e t];
        cbn [finalState] in *; [| exact Hkc].
      unfold modify. cbn [finalState clouds withClouds]. rewrite Hkc. reflexivity. }
    rewrite Hnil. split; constructor.
  - assert (Hne : clouds s <> []) by (rewrite Hcl; discriminate).
    rewrite (animate_runs delta s Hplay (updateWaterCycle_completes h delta s h_fair Hne)).
    cbn [finalState clouds withClouds]. rewrite Hkc, Hkp. split.
    + apply Forall2_map_self.
    + apply Forall_map. apply Forall_forall. intros cloud _. cbn [THREE.x].
      destruct (Qgtb _ 100) eqn:E; [discriminate |].
      apply Qgtb_false. exact E.
Qed.

(** X6. With at least one cloud in the scene a frame never throws, and it
    leaves the scene with as many clouds: so do all the frames after it. *)
Theorem frames_with_clouds_complete (deltas : list Q) (s : Sim) :
  clouds s <> [] ->
  allComplete h deltas s = true
  /\ Forall (fun s' => length (clouds s') = length (clouds s)) (runAnimate h deltas s).
Proof.
  intros Hclouds. split; [apply frames_complete; exact Hclouds |].
  revert s Hclouds. induction deltas as [| d rest IH]; intros s Hclouds; cbn [runAnimate].
  - constructor.
  - destruct (animate_completes d s Hclouds) as [_ Hlen].
    constructor; [exact Hlen |].
    rewrite <- Hlen. apply IH. intros Hnil. rewrite Hnil in Hlen.
    apply Hclouds. destruct (clouds s); [reflexivity | discriminate].
Qed.

(** *** [createClouds] *)

Lemma createClouds_count (s : Sim) :
  completes (createClouds h s) = true
  /\ length (clouds (finalState (createClouds h s))) = 25%nat.
Proof.
  unfold createClouds.
  match goal with
  | |- context [bind (modify ?f) (fun _ => bind (modify ?g) (fun _ => forRange 0 25 ?b))] =>
      set (body := b);
      change (bind (modify f) (fun _ => bind (modify g) (fun _ => forRange 0 25 body)) s)
        with (forRange 0 25 body (g (f s)));
      set (s0 := g (f s))
  end.
  assert (Hstep : forall m k t, length (clouds t) = m ->
            completes (body k t) = true
            /\ length (clouds (finalState (body k t))) = S m).
  { intros m k t Hlen. split; [reflexivity |].
    cbn. rewrite length_app, Hlen. cbn. lia. }
  exact (forRange_stages (fun m t => length (clouds t) = m) body Hstep
           25 0%nat 0%nat s0 eq_refl).
Qed.

(** X7. [createClouds] leaves exactly 25 clouds in the scene, whatever was
    there before, each placed by three draws of its own: x and z at
    (r - 0.5) * 150 and y at 30 + r * 15, hence between altitude 30 and 45
    and within 75 of the centre in x and z. *)
Theorem createClouds_places_25 (s : Sim) :
  let s' := finalState (createClouds h s) in
  length (clouds s') = 25%nat
  /\ Forall cloudPlaced (clouds s')
  /\ Forall cloudInRange (clouds s').
Proof.
  intros s'. subst s'. split; [apply createClouds_count |].
  unfold createClouds.
  match goal with
  | |- context [bind (modify ?f) (fun _ => bind (modify ?g) (fun _ => forRange 0 25 ?b))] =>
      set (body := b);
      change (bind (modify f) (fun _ => bind (modify g) (fun _ => forRange 0 25 body)) s)
        with (forRange 0 25 body (g (f s)));
      set (s0 := g (f s))
  end.
  pose (I := fun (_ : nat) (t : Sim) =>
               Forall (fun c => cloudPlaced c /\ cloudInRange c) (clouds t)).
  assert (Hstep : forall (m k : nat) t, I m t ->
            completes (body k t) = true /\ I (S m) (finalState (body k t))).
  { intros m k t Hall. split; [reflexivity |]. unfold I in *.
    cbn. apply Forall_app. split; [exact Hall |]. constructor; [| constructor].
    pose proof (h_fair (randomCalls t)) as U1.
    pose proof (h_fair (S (randomCalls t))) as U2.
    pose proof (h_fair (S (S (randomCalls t)))) as U3.
    split.
    - exists (Math_random h (randomCalls t)), (Math_random h (S (randomCalls t))),
        (Math_random h (S (S (randomCalls t)))).
      split; [exact U1 |]. split; [exact U2 |]. split; [exact U3 |]. reflexivity.
    - destruct U1 as [? ?], U2 as [? ?], U3 as [? ?].
      unfold cloudInRange. cbn [THREE.x THREE.y THREE.z]. repeat split; qlra. }
  assert (H0 : I 0%nat s0) by constructor.
  pose proof (proj2 (forRange_stages I body Hstep 25 0%nat 0%nat s0 H0)) as Hall.
  unfold I in Hall. split.
  - eapply Forall_impl; [exact Hall |]. intros c [Hc _]. exact Hc.
  - eapply Forall_impl; [exact Hall |]. intros c [_ Hc]. exact Hc.
Qed.

(** *** The pools *)

(** X8. [createEvaporationParticles], for any pool size: the pool has three
    coordinates per particle; every particle starts on the water plane, at
    ((r1 - 0.5) * 150, 0.5, (r2 - 0.5) * 150), and is given the velocity
    ((r3 - 0.5) * 0.1, r4 * 0.2 + 0.1, (r5 - 0.5) * 0.1) from draws of its
    own, which points upward. *)
Theorem createEvaporationParticles_spawn (count : nat) (s : Sim) :
  let s' := finalState (createEvaporationParticlesN h count s) in
  completes (createEvaporationParticlesN h count s) = true
  /\ length (position (evaporation s')) = (count * 3)%nat
  /\ length (velocities (evaporation s')) = (count * 3)%nat
  /\ forall i, (i < count)%nat ->
       evaporationSpawn (particle (position (evaporation s')) i)
       /\ evaporationVelocity (particle (velocities (evaporation s')) i)
       /\ 0 < THREE.getY (velocities (evaporation s')) i.
Proof.
  intros s'. subst s'. unfold createEvaporationParticlesN.
  match goal with
  | |- context [bind (modify ?f) (fun _ => forRange 0 count ?b)] =>
      set (body := b);
      change (bind (modify f) (fun _ => forRange 0 count body) s)
        with (forRange 0 count body (f s));
      set (s0 := f s)
  end.
  pose (glob := fun t : Sim =>
                  (length (position (evaporation t)), length (velocities (evaporation t)))).
  pose (obs := fun (i : nat) (t : Sim) =>
                 (particle (position (evaporation t)) i,
                  particle (velocities (evaporation t)) i)).
  pose (R := fun (k : nat) (g : nat * nat) (_ o' : (Q * Q * Q) * (Q * Q * Q)) =>
               (k * 3 + 2 < fst g)%nat -> (k * 3 + 2 < snd g)%nat ->
               evaporationSpawn (fst o') /\ evaporationVelocity (snd o')
               /\ 0 < snd (fst (snd o'))).
  assert (Hbody : forall k t,
            exists r1 r2 r3 r4 r5 t',
              unitDraw r1 /\ unitDraw r2 /\ unitDraw r3 /\ unitDraw r4 /\ unitDraw r5
              /\ body k t = Normal tt t'
              /\ position (evaporation t')
                 = <[(k * 3 + 2)%nat := (r2 - 0.5) * 150]>
                     (<[(k * 3 + 1)%nat := 0.5]>
                        (<[(k * 3)%nat := (r1 - 0.5) * 150]> (position (evaporation t))))
              /\ velocities (evaporation t')
                 = <[(k * 3 + 2)%nat := (r5 - 0.5) * 0.1]>
                     (<[(k * 3 + 1)%nat := r4 * 0.2 + 0.1]>
                        (<[(k * 3)%nat := (r3 - 0.5) * 0.1]> (velocities (evaporation t))))).
  { intros k t.
    exists (Math_random h (randomCalls t)), (Math_random h (S (randomCalls t))),
      (Math_random h (S (S (randomCalls t)))), (Math_random h (S (S (S (randomCalls t))))),
      (Math_random h (S (S (S (S (randomCalls t)))))).
    eexists. repeat (split; [apply h_fair |]).
    split; [reflexivity |]. split; reflexivity. }
  assert (Hglob : forall k, keeps glob (body k)).
  { intros k t. destruct (Hbody k t) as (r1 & r2 & r3 & r4 & r5 & t' & _ & _ & _ & _ & _
                                         & E & Ep & Ev).
    rewrite E. cbn [finalState]. unfold glob. rewrite Ep, Ev.
    rewrite (proj1 (particle_put _ k _ _ _)), (proj1 (particle_put _ k _ _ _)).
    reflexivity. }
  assert (Hother : forall k i, i <> k -> keeps (obs i) (body k)).
  { intros k i Hne t.
    destruct (Hbody k t) as (r1 & r2 & r3 & r4 & r5 & t' & _ & _ & _ & _ & _ & E & Ep & Ev).
    rewrite E. cbn [finalState]. unfold obs. rewrite Ep, Ev.
    rewrite (proj1 (proj2 (particle_put _ k _ _ _)) i Hne),
      (proj1 (proj2 (particle_put _ k _ _ _)) i Hne).
    reflexivity. }
  assert (Hret : forall k t, completes (body k t) = true).
  { intros k t.
    destruct (Hbody k t) as (r1 & r2 & r3 & r4 & r5 & t' & _ & _ & _ & _ & _ & E & _).
    rewrite E. reflexivity. }
  assert (Hstep : forall k t, R k (glob t) (obs k t) (obs k (finalState (body k t)))).
  { intros k t Hp Hv.
    destruct (Hbody k t) as (r1 & r2 & r3 & r4 & r5 & t' & U1 & U2 & U3 & U4 & U5
                             & E & Ep & Ev).
    rewrite E. cbn [finalState]. unfold obs. cbn [fst snd]. rewrite Ep, Ev.
    rewrite (proj2 (proj2 (particle_put _ k _ _ _)) Hp),
      (proj2 (proj2 (particle_put _ k _ _ _)) Hv).
    split; [| split].
    - exists r1, r2. repeat split; try apply U1; try apply U2; apply Qeq_refl.
    - exists r3, r4, r5. split; [exact U3 |]. split; [exact U4 |]. split; [exact U5 |].
      reflexivity.
    - cbn [fst snd]. destruct U4 as [? ?]. qlra. }
  assert (Hlen0 : glob s0 = ((count * 3)%nat, (count * 3)%nat)).
  { unfold glob, s0. cbn. rewrite !length_replicate. reflexivity. }
  pose proof (forRange_glob glob body Hglob count 0%nat s0) as Hg. rewrite Hlen0 in Hg.
  split; [apply (forRange_completes body Hret) |].
  split; [exact (f_equal fst Hg) |]. split; [exact (f_equal snd Hg) |].
  intros i Hi.
  pose proof (forRange_each glob obs body R Hglob Hother Hret Hstep count 0%nat s0 i
                ltac:(lia)) as Hi'.
  unfold R in Hi'. rewrite Hlen0 in Hi'. cbn [fst snd] in Hi'.
  apply Hi'; lia.
Qed.

(** X9. [createRainParticles], for any pool size: three coordinates per
    drop; every drop starts at ((r1 - 0.5) * 200, 30 + r2 * 20,
    (r3 - 0.5) * 200) with the velocity (0, -(r4 * 0.5 + 0.5), 0) from draws
    of its own, hence between altitude 30 and 50 within 100 of the centre,
    falling straight down by half a unit to one unit per frame. *)
Theorem createRainParticles_spawn (count : nat) (s : Sim) :
  let s' := finalState (createRainParticlesN h count s) in
  completes (createRainParticlesN h count s) = true
  /\ length (position (rain s')) = (count * 3)%nat
  /\ length (velocities (rain s')) = (count * 3)%nat
  /\ forall i, (i < count)%nat ->
       rainSpawn (particle (position (rain s')) i) (particle (velocities (rain s')) i)
       /\ rainInRange (particle (position (rain s')) i)
            (particle (velocities (rain s')) i).
Proof.
  intros s'. subst s'. unfold createRainParticlesN.
  match goal with
  | |- context [bind (modify ?f) (fun _ => forRange 0 count ?b)] =>
      set (body := b);
      change (bind (modify f) (fun _ => forRange 0 count body) s)
        with (forRange 0 count body (f s));
      set (s0 := f s)
  end.
  pose (glob := fun t : Sim =>
                  (length (position (rain t)), length (velocities (rain t)))).
  pose (obs := fun (i : nat) (t : Sim) =>
                 (particle (position (rain t)) i, particle (velocities (rain t)) i)).
  pose (R := fun (k : nat) (g : nat * nat) (_ o' : (Q * Q * Q) * (Q * Q * Q)) =>
               (k * 3 + 2 < fst g)%nat -> (k * 3 + 2 < snd g)%nat ->
               rainSpawn (fst o') (snd o') /\ rainInRange (fst o') (snd o')).
  assert (Hbody : forall k t,
            exists r1 r2 r3 r4 t',
              unitDraw r1 /\ unitDraw r2 /\ unitDraw r3 /\ unitDraw r4
              /\ body k t = Normal tt t'
              /\ position (rain t')
                 = <[(k * 3 + 2)%nat := (r3 - 0.5) * 200]>
                     (<[(k * 3 + 1)%nat := 30 + r2 * 20]>
                        (<[(k * 3)%nat := (r1 - 0.5) * 200]> (position (rain t))))
              /\ velocities (rain t')
                 = <[(k * 3 + 2)%nat := 0]>
                     (<[(k * 3 + 1)%nat := - (r4 * 0.5 + 0.5)]>
                        (<[(k * 3)%nat := 0]> (velocities (rain t))))).
  { intros k t.
    exists (Math_random h (randomCalls t)), (Math_random h (S (randomCalls t))),
      (Math_random h (S (S (randomCalls t)))), (Math_random h (S (S (S (randomCalls t))))).
    eexists. repeat (split; [apply h_fair |]).
    split; [reflexivity |]. split; reflexivity. }
  assert (Hglob : forall k, keeps glob (body k)).
  { intros k t. destruct (Hbody k t) as (r1 & r2 & r3 & r4 & t' & _ & _ & _ & _
                                         & E & Ep & Ev).
    rewrite E. cbn [finalState]. unfold glob. rewrite Ep, Ev.
    rewrite (proj1 (particle_put _ k _ _ _)), (proj1 (particle_put _ k _ _ _)).
    reflexivity. }
  assert (Hother : forall k i, i <> k -> keeps (obs i) (body k)).
  { intros k i Hne t.
    destruct (Hbody k t) as (r1 & r2 & r3 & r4 & t' & _ & _ & _ & _ & E & Ep & Ev).
    rewrite E. cbn [finalState]. unfold obs. rewrite Ep, Ev.
    rewrite (proj1 (proj2 (particle_put _ k _ _ _)) i Hne),
      (proj1 (proj2 (particle_put _ k _ _ _)) i Hne).
    reflexivity. }
  assert (Hret : forall k t, completes (body k t) = true).
  { intros k t.
    destruct (Hbody k t) as (r1 & r2 & r3 & r4 & t' & _ & _ & _ & _ & E & _).
    rewrite E. reflexivity. }
  assert (Hstep : forall k t, R k (glob t) (obs k t) (obs k (finalState (body k t)))).
  { intros k t Hp Hv.
    destruct (Hbody k t) as (r1 & r2 & r3 & r4 & t' & U1 & U2 & U3 & U4 & E & Ep & Ev).
    rewrite E. cbn [finalState]. unfold obs. cbn [fst snd]. rewrite Ep, Ev.
    rewrite (proj2 (proj2 (particle_put _ k _ _ _)) Hp),
      (proj2 (proj2 (particle_put _ k _ _ _)) Hv).
    split.
    - exists r1, r2, r3, r4.
      split; [exact U1 |]. split; [exact U2 |]. split; [exact U3 |]. split; [exact U4 |].
      split; reflexivity.
    - destruct U1 as [? ?], U2 as [? ?], U3 as [? ?], U4 as [? ?].
      unfold rainInRange. repeat split; qlra. }
  assert (Hlen0 : glob s0 = ((count * 3)%nat, (count * 3)%nat)).
  { unfold glob, s0. cbn. rewrite !length_replicate. reflexivity. }
  pose proof (forRange_glob glob body Hglob count 0%nat s0) as Hg. rewrite Hlen0 in Hg.
  split; [apply (forRange_completes body Hret) |].
  split; [exact (f_equal fst Hg) |]. split; [exact (f_equal snd Hg) |].
  intros i Hi.
  pose proof (forRange_each glob obs body R Hglob Hother Hret Hstep count 0%nat s0 i
                ltac:(lia)) as Hi'.
  unfold R in Hi'. rewrite Hlen0 in Hi'. cbn [fst snd] in Hi'.
  apply Hi'; lia.
Qed.

End OldScriptScene.

(** X11. While the simulation is paused no frame changes anything: not the
    clock, not a particle, not a cloud, and no random number is drawn. *)
Theorem paused_frames_are_idle (h : Host) (deltas : list Q) (s : OldScript.Sim) :
  OldScript.isPlaying s = false ->
  OldScript.allComplete h deltas s = true
  /\ Forall (fun s' => s' = s) (OldScript.runAnimate h deltas s).
Proof.
  intros Hp. induction deltas as [| d rest [IHc IHs]].
  - split; [reflexivity | constructor].
  - assert (E : OldScript.animate h d s = Normal tt s).
    { unfold OldScript.animate, bind, gets. rewrite Hp. reflexivity. }
    cbn [OldScript.allComplete OldScript.runAnimate]. rewrite E. cbn [completes finalState andb].
    split; [exact IHc |]. constructor; [reflexivity | exact IHs].
Qed.

(** *** The properties of old-script.js on [flatHost] and [miniSim] *)

(** C5 on [flatHost], at a recycle event: the drop of [showerSim] falls
    from 0.5 to -0.5, below the flat ground at height 0, and the pass restarts
    it at the altitude 37.5 of the cloud it picks. *)
Lemma rain_pass_recycles_into_clouds_witness :
  let s := OldScript.showerSim in
  let s' := finalState (OldScript.updatePrecipitation flatHost true 0.5 s) in
  (fair flatHost /\ OldScript.clouds s <> [])
  /\ (let '(x1, y1, z1) := OldScript.movedRain s 0 in
      OldScript.belowTerrain (intersectTerrain flatHost x1 z1) y1 = true)
  /\ THREE.getY (OldScript.position (OldScript.rain s')) 0 == 37.5
  /\ (completes (OldScript.updatePrecipitation flatHost true 0.5 s) = true
      /\ length (OldScript.position (OldScript.rain s'))
         = length (OldScript.position (OldScript.rain s))
      /\ OldScript.velocities (OldScript.rain s') = OldScript.velocities (OldScript.rain s)
      /\ OldScript.clouds s' = OldScript.clouds s
      /\ forall i, (i < THREE.count (OldScript.position (OldScript.rain s)))%nat ->
           OldScript.rainOutcome flatHost s s' i).
Proof.
  intros s s'.
  assert (Hc : OldScript.clouds s <> []) by qcompute.
  split; [split; [exact flatHost_fair | exact Hc] |].
  split; [vm_compute; reflexivity |]. split; [vm_compute; reflexivity |].
  exact (rain_pass_recycles_into_clouds flatHost flatHost_fair 0.5 s Hc).
Defined.

Lemma frame_completes_outside_precipitation_witness :
  let s := OldScript.miniSim in
  OldScript.cycleState (finalState (OldScript.updateWaterCycle flatHost 1 s))
    <> OldScript.PRECIPITATION
  /\ completes (OldScript.updateWaterCycle flatHost 1 s) = true.
Proof.
  intros s.
  assert (Hp : OldScript.cycleState (finalState (OldScript.updateWaterCycle flatHost 1 s))
               <> OldScript.PRECIPITATION) by qcompute.
  split; [exact Hp |].
  exact (frame_completes_outside_precipitation flatHost 1 s Hp).
Defined.

Lemma paused_frames_are_idle_witness :
  let s := finalState (OldScript.togglePlayPause OldScript.miniSim) in
  let deltas := [1; 16] in
  OldScript.isPlaying s = false
  /\ (OldScript.allComplete flatHost deltas s = true
      /\ Forall (fun s' => s' = s) (OldScript.runAnimate flatHost deltas s)).
Proof.
  intros s deltas.
  assert (Hp : OldScript.isPlaying s = false) by qcompute.
  split; [exact Hp |].
  exact (paused_frames_are_idle flatHost deltas s Hp).
Defined.

(** X5 on a frame of 51 seconds from [miniSim]: the wind of 10 takes every
    cloud from x = 0 to 102, past 100, and the frame puts it back at -100. *)
Lemma animate_drifts_and_wraps_clouds_witness :
  let s := OldScript.miniSim in
  let s' := finalState (OldScript.animate flatHost 51 s) in
  (fair flatHost /\ OldScript.isPlaying s = true)
  /\ Forall (fun cloud' => THREE.x cloud' = -100) (OldScript.clouds s')
  /\ (Forall2 (fun cloud cloud' =>
                 let x' := THREE.x cloud + 51 * OldScript.windSpeed (OldScript.params s) / 5 in
                 cloud' = {| THREE.x := (if Qgtb x' 100 then -100 else x');
                             THREE.y := THREE.y cloud;
                             THREE.z := THREE.z cloud |})
        (OldScript.clouds s) (OldScript.clouds s')
      /\ Forall (fun cloud' => THREE.x cloud' <= 100) (OldScript.clouds s')).
Proof.
  intros s s'.
  assert (Hp : OldScript.isPlaying s = true) by qcompute.
  split; [split; [exact flatHost_fair | exact Hp] |].
  split; [vm_compute; repeat constructor |].
  exact (animate_drifts_and_wraps_clouds flatHost flatHost_fair 51 s Hp).
Defined.

Lemma frames_with_clouds_complete_witness :
  let s := OldScript.miniSim in
  let deltas := [16; 11; 1] in
  (fair flatHost /\ OldScript.clouds s <> [])
  /\ (OldScript.allComplete flatHost deltas s = true
      /\ Forall (fun s' => length (OldScript.clouds s') = length (OldScript.clouds s))
           (OldScript.runAnimate flatHost deltas s)).
Proof.
  intros s deltas.
  assert (Hc : OldScript.clouds s <> []) by qcompute.
  split; [split; [exact flatHost_fair | exact Hc] |].
  exact (frames_with_clouds_complete flatHost flatHost_fair deltas s Hc).
Defined.

Lemma createClouds_places_25_witness :
  let s' := finalState (OldScript.createClouds flatHost OldScript.newSim) in
  fair flatHost
  /\ (length (OldScript.clouds s') = 25%nat
      /\ Forall OldScript.cloudPlaced (OldScript.clouds s')
      /\ Forall OldScript.cloudInRange (OldScript.clouds s')).
Proof.
  intros s'. split; [exact flatHost_fair |].
  exact (createClouds_places_25 flatHost flatHost_fair OldScript.newSim).
Defined.

Lemma createEvaporationParticles_spawn_witness :
  let s := OldScript.newSim in
  let s' := finalState (OldScript.createEvaporationParticlesN flatHost 2 s) in
  fair flatHost
  /\ (completes (OldScript.createEvaporationParticlesN flatHost 2 s) = true
      /\ length (OldScript.position (OldScript.evaporation s')) = (2 * 3)%nat
      /\ length (OldScript.velocities (OldScript.evaporation s')) = (2 * 3)%nat
      /\ forall i, (i < 2)%nat ->
           OldScript.evaporationSpawn
             (particle (OldScript.position (OldScript.evaporation s')) i)
           /\ OldScript.evaporationVelocity
                (particle (OldScript.velocities (OldScript.evaporation s')) i)
           /\ 0 < THREE.getY (OldScript.velocities (OldScript.evaporation s')) i).
Proof.
  intros s s'. split; [exact flatHost_fair |].
  exact (createEvaporationParticles_spawn flatHost flatHost_fair 2 s).
Defined.

Lemma createRainParticles_spawn_witness :
  let s := OldScript.newSim in
  let s' := finalState (OldScript.createRainParticlesN flatHost 2 s) in
  fair flatHost
  /\ (completes (OldScript.createRainParticlesN flatHost 2 s) = true
      /\ length (OldScript.position (OldScript.rain s')) = (2 * 3)%nat
      /\ length (OldScript.velocities (OldScript.rain s')) = (2 * 3)%nat
      /\ forall i, (i < 2)%nat ->
           OldScript.rainSpawn (particle (OldScript.position (OldScript.rain s')) i)
             (particle (OldScript.velocities (OldScript.rain s')) i)
           /\ OldScript.rainInRange (particle (OldScript.position (OldScript.rain s')) i)
                (particle (OldScript.velocities (OldScript.rain s')) i)).
Proof.
  intros s s'. split; [exact flatHost_fair |].
  exact (createRainParticles_spawn flatHost flatHost_fair 2 s).
Defined.

(** ** part_001: the terrain mesh and the height query *)

Section TerrainMesh.

Import Terrain.
Local Open Scope R_scope.

Lemma sin_cos_bound (a b : R) : -1 <= sin a * cos b <= 1.
Proof.
  pose proof (SIN_bound a) as [? ?]. pose proof (COS_bound b) as [? ?].
  split; Lra.nra.
Qed.

Lemma heightMap_length (random : nat -> R) (n : nat) :
  forall v k, (length v <= n)%nat -> length (heightMap random k v) = length v.
Proof.
  induction n as [| n IH]; intros v k Hn.
  - destruct v; [reflexivity | cbn in Hn; lia].
  - destruct v as [| x [| y [| z rest]]]; try reflexivity.
    cbn [heightMap length]. rewrite IH; [reflexivity | cbn in Hn; lia].
Qed.

(** Vertex [j] of the mesh after the height-map loop started at draw [k]:
    x and z as they were, the height from the draw of its iteration. *)
Lemma heightMap_vertex (random : nat -> R) (j : nat) :
  forall v k,
    (j * 3 + 2 < length v)%nat ->
    let out := heightMap random k v in
    nth (j * 3) out 0 = nth (j * 3) v 0
    /\ nth (j * 3 + 2) out 0 = nth (j * 3 + 2) v 0
    /\ nth (j * 3 + 1) out 0
       = vertexHeight (nth (j * 3) v 0) (nth (j * 3 + 2) v 0) (random (k + j)%nat).
Proof.
  induction j as [| j IH]; intros v k Hj out; subst out;
    destruct v as [| x [| y [| z rest]]]; try (cbn in Hj; lia).
  - cbn [heightMap Nat.mul Nat.add nth]. rewrite Nat.add_0_r. repeat split; reflexivity.
  - assert (Hj' : (j * 3 + 2 < length rest)%nat) by (cbn in Hj; lia).
    destruct (IH rest (S k) Hj') as (Hx & Hz & Hy).
    replace (S j * 3)%nat with (S (S (S (j * 3)))) by lia.
    replace (k + S j)%nat with (S k + j)%nat by lia.
    cbn [heightMap Nat.add nth]. repeat split; assumption.
Qed.

(** X12. The height query is bounded: never below -2 and never above 23,
    and at most 6.9 in the central valley (|x| < 20 and |z| < 20). *)
Theorem getTerrainHeight_bounds (x z : R) :
  -2 <= getTerrainHeight x z <= 23
  /\ (Rabs x < 20 /\ Rabs z < 20 -> getTerrainHeight x z <= 6.9).
Proof.
  unfold getTerrainHeight. cbv zeta.
  pose proof (sin_cos_bound (x * 0.1) (z * 0.1)) as [? ?].
  pose proof (sin_cos_bound (x * 0.05) (z * 0.05)) as [? ?].
  set (a := sin (x * 0.1) * cos (z * 0.1)) in *.
  set (b := sin (x * 0.05) * cos (z * 0.05)) in *.
  split.
  - destruct (Rlt_dec (Rabs x) 20); [destruct (Rlt_dec (Rabs z) 20) |];
      unfold Rmax; destruct (Rle_dec _ _); rlra.
  - intros [Hx Hz].
    destruct (Rlt_dec (Rabs x) 20); [| contradiction].
    destruct (Rlt_dec (Rabs z) 20); [| contradiction].
    unfold Rmax; destruct (Rle_dec _ _); rlra.
Qed.

(** X13. The mesh [createTerrain] builds, against the height query the
    particles use: the loop keeps the length of the vertex array and every
    vertex's x and z, and with draws in [0, 1) the height it stores is never
    below the queried height and at most 2 above it. *)
Theorem createTerrain_within_noise_of_query (random : nat -> R) (vertices : list R) :
  (forall n, 0 <= random n < 1) ->
  let mesh := createTerrain random vertices in
  length mesh = length vertices
  /\ forall j, (j * 3 + 2 < length vertices)%nat ->
       let x := nth (j * 3) vertices 0 in
       let z := nth (j * 3 + 2) vertices 0 in
       nth (j * 3) mesh 0 = x
       /\ nth (j * 3 + 2) mesh 0 = z
       /\ getTerrainHeight x z <= nth (j * 3 + 1) mesh 0 <= getTerrainHeight x z + 2.
Proof.
  intros Hr mesh. subst mesh. unfold createTerrain. split.
  - apply (heightMap_length random (length vertices)). lia.
  - intros j Hj. cbv zeta.
    destruct (heightMap_vertex random j vertices 0%nat Hj) as (Hx & Hz & Hy).
    split; [exact Hx |]. split; [exact Hz |].
    rewrite Hy. apply vertexHeight_gap. apply Hr.
Qed.

End TerrainMesh.

Lemma createTerrain_within_noise_of_query_witness :
  let random := fun _ : nat => (1 / 2)%R in
  let vertices := [0%R; 0%R; 0%R; 10%R; 0%R; 5%R] in
  (forall n, (0 <= random n < 1)%R)
  /\ (length (Terrain.createTerrain random vertices) = length vertices
      /\ forall j, (j * 3 + 2 < length vertices)%nat ->
           let x := nth (j * 3) vertices 0%R in
           let z := nth (j * 3 + 2) vertices 0%R in
           nth (j * 3) (Terrain.createTerrain random vertices) 0%R = x
           /\ nth (j * 3 + 2) (Terrain.createTerrain random vertices) 0%R = z
           /\ (Terrain.getTerrainHeight x z
               <= nth (j * 3 + 1) (Terrain.createTerrain random vertices) 0
               <= Terrain.getTerrainHeight x z + 2)%R).
Proof.
  intros random vertices.
  assert (Hr : forall n, (0 <= random n < 1)%R) by (intros n; unfold random; rlra).
  split; [exact Hr |].
  exact (createTerrain_within_noise_of_query random vertices Hr).
Defined.

(** ** part_001: the evaporation pass *)

Section Part001Evaporation.

Import Part001.

Variable host : Host.
Hypothesis host_fair : fair host.

Lemma evaporationStep_spec (k : nat) (sys : System) (s : Sim) :
  exists sys' s',
    evaporationStep host k sys s = Normal sys' s'
    /\ besidesDraws s' = besidesDraws s
    /\ sameShape sys sys'
    /\ (forall j, j <> k ->
          particle (positions sys') j = particle (positions sys) j
          /\ THREE.read (lifetimes sys') j = THREE.read (lifetimes sys) j)
    /\ (inSystem sys k ->
          evaporationOutcome (evaporationRate (climateParams s)) (animationSpeed s)
            sys sys' k).
Proof.
  unfold evaporationStep, random, bind, gets, modify, ret. cbv zeta.
  destruct s as [cp pl speed ts ps rc]. cbn [animationSpeed climateParams randomCalls].
  set (rate := evaporationRate cp).
  destruct sys as [a v life maxLife]. cbn [positions velocities lifetimes maxLifetime].
  rewrite !(read_insert_ne _ _ (k * 3) (k * 3 + 1)) by lia.
  rewrite !(read_insert_ne _ _ (k * 3 + 1) (k * 3 + 2)) by lia.
  rewrite !(read_insert_ne _ _ (k * 3) (k * 3 + 2)) by lia.
  destruct (particle_put a k (THREE.read a (k * 3) + THREE.read v (k * 3) * rate)
              (THREE.read a (k * 3 + 1) + THREE.read v (k * 3 + 1) * rate)
              (THREE.read a (k * 3 + 2) + THREE.read v (k * 3 + 2) * rate))
    as (Hlen1 & Hoth1 & Hat1).
  set (pos1 := <[(k * 3 + 2)%nat := _]> _) in *.
  set (life1 := <[k := THREE.read life k + speed]> life).
  assert (Hlife1 : length life1 = length life) by apply length_insert.
  assert (Hy1 : (k * 3 + 2 < length a)%nat ->
                THREE.read pos1 (k * 3 + 1)
                = THREE.read a (k * 3 + 1) + THREE.read v (k * 3 + 1) * rate).
  { intros Hk. specialize (Hat1 Hk). unfold particle in Hat1.
    injection Hat1 as _ Hy _. exact Hy. }
  assert (Hl1 : (k < length life)%nat -> THREE.read life1 k = THREE.read life k + speed)
    by (intros Hk; apply read_insert_eq; exact Hk).
  assert (Hmoved :
    sameShape {| positions := a; velocities := v; lifetimes := life; maxLifetime := maxLife |}
              {| positions := pos1; velocities := v; lifetimes := life1;
                 maxLifetime := maxLife |}
    /\ (forall j, j <> k ->
          particle pos1 j = particle a j /\ THREE.read life1 j = THREE.read life j)).
  { split.
    - repeat split; cbn; assumption.
    - intros j Hne. split; [apply Hoth1; exact Hne | apply read_insert_ne; lia]. }
  destruct Hmoved as [Hshape Hothers].
  destruct (Qgtb (THREE.read life1 k) maxLife || Qgtb (THREE.read pos1 (k * 3 + 1)) 25)
    eqn:Hcond.
  - cbn [randomCalls withRandomCalls].
    destruct (particle_put pos1 k
                ((Math_random host rc - 0.5) * 50) 0.5
                ((Math_random host (S rc) - 0.5) * 50))
      as (Hlen2 & Hoth2 & Hat2).
    eexists. eexists. split; [reflexivity |].
    cbn [positions velocities lifetimes maxLifetime].
    split; [reflexivity |]. split; [| split].
    + repeat split; cbn; [congruence |].
      rewrite length_insert. exact Hlife1.
    + intros j Hj. cbn. split.
      * rewrite (Hoth2 j Hj). apply Hothers. exact Hj.
      * rewrite read_insert_ne by lia. apply Hothers. exact Hj.
    + intros [Hk1 Hk2]. cbn in Hk1, Hk2.
      unfold evaporationOutcome, evaporationOutcomeOf. cbn. unfold THREE.getY.
      rewrite (Hl1 Hk2), (Hy1 Hk1) in Hcond. rewrite Hcond.
      split.
      * rewrite Hat2 by (rewrite Hlen1; exact Hk1).
        exists (Math_random host rc), (Math_random host (S rc)).
        repeat (split; [apply host_fair |]). reflexivity.
      * apply read_insert_eq. rewrite Hlife1. exact Hk2.
  - eexists. eexists. split; [reflexivity |].
    split; [reflexivity |]. split; [exact Hshape |]. split; [exact Hothers |].
    intros [Hk1 Hk2]. cbn in Hk1, Hk2.
    unfold evaporationOutcome, evaporationOutcomeOf. cbn. unfold THREE.getY.
    rewrite (Hl1 Hk2), (Hy1 Hk1) in Hcond. rewrite Hcond.
    split; [apply Hat1; exact Hk1 | apply Hl1; exact Hk2].
Qed.

Lemma evaporationLoop_spec (n : nat) :
  forall (k : nat) (sys : System) (s : Sim),
  exists sys' s',
    evaporationLoop host k n sys s = Normal sys' s'
    /\ besidesDraws s' = besidesDraws s
    /\ sameShape sys sys'
    /\ (forall j, (j < k \/ k + n <= j)%nat ->
          particle (positions sys') j = particle (positions sys) j
          /\ THREE.read (lifetimes sys') j = THREE.read (lifetimes sys) j)
    /\ (forall j, (k <= j < k + n)%nat -> inSystem sys j ->
          evaporationOutcome (evaporationRate (climateParams s)) (animationSpeed s)
            sys sys' j).
Proof.
  induction n as [| n IH]; intros k sys s.
  - exists sys, s. cbn [evaporationLoop]. split; [reflexivity |].
    split; [reflexivity |]. split; [repeat split |].
    split; [intros; split; reflexivity | intros j Hj; lia].
  - destruct (evaporationStep_spec k sys s) as (sys1 & s1 & E1 & F1 & Sh1 & Oth1 & Out1).
    destruct (IH (S k) sys1 s1) as (sys' & s' & E2 & F2 & Sh2 & Oth2 & Out2).
    exists sys', s'. cbn [evaporationLoop]. unfold bind at 1. rewrite E1.
    split; [exact E2 |].
    split; [congruence |].
    split; [exact (sameShape_trans _ _ _ Sh1 Sh2) |].
    unfold besidesDraws in F1. injection F1 as Hclimate _ Hspeed _ _.
    destruct Sh1 as (Hv1 & Hm1 & Hp1 & Hl1).
    split.
    + intros j Hj.
      destruct (Oth1 j ltac:(lia)) as [A1 B1].
      destruct (Oth2 j ltac:(lia)) as [A2 B2].
      split; congruence.
    + intros j Hj Hin.
      destruct (Nat.eq_dec j k) as [-> | Hne].
      * specialize (Out1 Hin).
        destruct (Oth2 k ltac:(lia)) as [A2 B2].
        unfold evaporationOutcome in *. rewrite A2, B2. exact Out1.
      * assert (Hin1 : inSystem sys1 j)
          by (unfold inSystem in *; rewrite Hp1, Hl1; exact Hin).
        specialize (Out2 j ltac:(lia) Hin1).
        destruct (Oth1 j Hne) as [A1 B1].
        unfold evaporationOutcome in *.
        rewrite Hspeed, Hclimate, A1, B1, Hv1, Hm1 in Out2. exact Out2.
Qed.

Lemma updateEvaporationSystem_spec (sys : System) (s : Sim) :
  exists sys' s',
    updateEvaporationSystem host sys s = Normal sys' s'
    /\ besidesDraws s' = besidesDraws s
    /\ evaporationSystemOutcome (evaporationRate (climateParams s)) (animationSpeed s)
         sys sys'.
Proof.
  unfold updateEvaporationSystem.
  destruct (evaporationLoop_spec (strides (length (positions sys))) 0 sys s)
    as (sys' & s' & E & F & Sh & _ & Out).
  exists sys', s'. split; [exact E |]. split; [exact F |].
  split; [exact Sh |].
  intros j Hin. apply Out; [| exact Hin].
  destruct Hin as [Hin _]. apply strides_cover in Hin. lia.
Qed.

Lemma forEachEvaporationSystem_spec (l : list System) :
  forall s : Sim,
  exists l' s',
    forEachSystem (updateEvaporationSystem host) l s = Normal l' s'
    /\ besidesDraws s' = besidesDraws s
    /\ Forall2 (evaporationSystemOutcome (evaporationRate (climateParams s))
                  (animationSpeed s)) l l'.
Proof.
  induction l as [| sys rest IH]; intros s.
  - exists [], s. cbn. repeat split. constructor.
  - destruct (updateEvaporationSystem_spec sys s) as (sys' & s1 & E1 & F1 & O1).
    destruct (IH s1) as (rest' & s' & E2 & F2 & O2).
    exists (sys' :: rest'), s'. cbn [forEachSystem]. unfold bind at 1. rewrite E1.
    unfold bind at 1. rewrite E2. split; [reflexivity |].
    split; [congruence |].
    unfold besidesDraws in F1. injection F1 as Hclimate _ Hspeed _ _.
    rewrite Hspeed, Hclimate in O2.
    constructor; assumption.
Qed.

(** The pass, run: the systems the loop makes are stored back in the
    evaporation family. *)
Lemma evaporationPass_runs (s : Sim) :
  exists l' s1,
    updateEvaporation host s
    = Normal tt
        (withParticles
           {| evaporation := l';
              transpiration := transpiration (particles s1);
              precipitation := precipitation (particles s1);
              runoff := runoff (particles s1) |} s1)
    /\ besidesDraws s1 = besidesDraws s
    /\ Forall2 (evaporationSystemOutcome (evaporationRate (climateParams s))
                  (animationSpeed s)) (evaporation (particles s)) l'.
Proof.
  destruct (forEachEvaporationSystem_spec (evaporation (particles s)) s)
    as (l' & s1 & E & F & O).
  exists l', s1. split; [| split; [exact F | exact O]].
  unfold updateEvaporation, bind, gets, modify. rewrite E. reflexivity.
Qed.

(** A system the loop has gone through is within its limits, whatever it was
    before. *)
Lemma evaporationSystemOutcome_limits (rate speed : Q) (sys sys' : System) :
  0 <= maxLifetime sys ->
  evaporationSystemOutcome rate speed sys sys' ->
  withinLimits 25 sys'.
Proof.
  intros Hmax [(Hv & Hm & Hp & Hl) Hout] j Hin.
  assert (Hin0 : inSystem sys j) by (unfold inSystem in *; rewrite <- Hp, <- Hl; exact Hin).
  specialize (Hout j Hin0). unfold evaporationOutcome, evaporationOutcomeOf in Hout.
  unfold particle in Hout. rewrite Hm.
  destruct (Qgtb (THREE.read (lifetimes sys) j + speed) (maxLifetime sys)
            || Qgtb (THREE.getY (positions sys) j + THREE.getY (velocities sys) j * rate) 25)
    eqn:Hcond.
  - destruct Hout as [(r1 & r2 & _ & _ & Ho) Hlife].
    injection Ho as _ Hy _. rewrite Hlife, Hy. split; [exact Hmax | qlra].
  - destruct Hout as [Ho Hlife]. injection Ho as _ Hy _.
    apply orb_false_iff in Hcond. destruct Hcond as [C1 C2].
    apply Qgtb_false in C1, C2. rewrite Hlife, Hy. split; assumption.
Qed.

(** X14. The evaporation pass of part_001 completes, leaves the climate,
    the trees and the other three particle families alone, keeps the number
    and the shape of the evaporation systems, and treats every particle as
    the loop prescribes: back onto the plane y = 0.5 within 25 of the centre
    with lifetime 0 when its lifetime has run out or the move took it above
    25, moved by its velocity times the evaporation rate and one tick older
    otherwise. *)
Theorem evaporationPass_recycles_onto_plane (s : Sim) :
  let s' := finalState (updateEvaporation host s) in
  completes (updateEvaporation host s) = true
  /\ (climateParams s', isPlaying s', animationSpeed s', trees s')
     = (climateParams s, isPlaying s, animationSpeed s, trees s)
  /\ (transpiration (particles s'), precipitation (particles s'), runoff (particles s'))
     = (transpiration (particles s), precipitation (particles s), runoff (particles s))
  /\ Forall2 (evaporationSystemOutcome (evaporationRate (climateParams s))
                (animationSpeed s))
       (evaporation (particles s)) (evaporation (particles s')).
Proof.
  intros s'. subst s'.
  destruct (evaporationPass_runs s) as (l' & s1 & Hrun & F & O).
  rewrite Hrun. cbn [completes finalState].
  unfold besidesDraws in F. injection F as Hc Hp Hs Ht Hps.
  destruct s1 as [cp1 pl1 sp1 ts1 ps1 rc1]. cbn in *. subst.
  repeat split. exact O.
Qed.

(** X15. After an evaporation pass no particle of a system with a
    non-negative lifetime limit is older than the limit or higher than 25,
    whatever the rate, the animation speed and the state before the pass;
    so it is after any number of passes. *)
Theorem evaporation_stays_within_limits (n : nat) (s : Sim) :
  Forall (fun sys => 0 <= maxLifetime sys) (evaporation (particles s)) ->
  Forall (withinLimits 25)
    (evaporation (particles (afterEvaporationPasses host (S n) s))).
Proof.
  revert s. induction n as [| n IH]; intros s Hmax.
  - cbn [afterEvaporationPasses].
    destruct (evaporationPass_runs s) as (l' & s1 & Hrun & _ & Hout).
    rewrite Hrun. cbn [finalState particles withParticles evaporation]. clear Hrun.
    revert Hmax Hout. generalize (evaporation (particles s)).
    intros l Hmax Hout. induction Hout as [| sys sys' l l' H1 _ IHl]; constructor.
    + eapply evaporationSystemOutcome_limits; [| exact H1].
      inversion Hmax; assumption.
    + apply IHl. inversion Hmax; assumption.
  - change (afterEvaporationPasses host (S (S n)) s)
      with (afterEvaporationPasses host (S n) (finalState (updateEvaporation host s))).
    apply IH.
    destruct (evaporationPass_runs s) as (l' & s1 & Hrun & _ & Hout).
    rewrite Hrun. cbn [finalState particles withParticles evaporation]. clear Hrun.
    revert Hmax Hout. generalize (evaporation (particles s)).
    intros l Hmax Hout. induction Hout as [| sys sys' l l' H1 _ IHl]; constructor.
    + destruct H1 as [(_ & Hm & _) _]. rewrite Hm. inversion Hmax; assumption.
    + apply IHl. inversion Hmax; assumption.
Qed.

End Part001Evaporation.

(** ** part_001: the systems [initParticleSystems] creates *)

Section SeedLoops.

Import Part001.

Variable step : nat -> System -> Exec Sim System.
Variable P : nat -> (Q * Q * Q) * (Q * Q * Q) * Q -> Prop.

Hypothesis step_spec :
  forall k sys s,
  exists sys' s',
    step k sys s = Normal sys' s'
    /\ besidesDraws s' = besidesDraws s
    /\ sizes sys' = sizes sys
    /\ (forall j, j <> k -> seeded sys' j = seeded sys j)
    /\ (inSystem sys k -> (k * 3 + 2 < length (velocities sys))%nat -> P k (seeded sys' k)).

(** The filling loop returns, draws only, keeps the sizes of the arrays and
    leaves every particle of its range as the body placed it. *)
Lemma seedLoop_spec (n : nat) :
  forall k sys s,
  exists sys' s',
    seedLoop step k n sys s = Normal sys' s'
    /\ besidesDraws s' = besidesDraws s
    /\ sizes sys' = sizes sys
    /\ (forall j, (j < k \/ k + n <= j)%nat -> seeded sys' j = seeded sys j)
    /\ (forall j, (k <= j < k + n)%nat ->
          inSystem sys j -> (j * 3 + 2 < length (velocities sys))%nat ->
          P j (seeded sys' j)).
Proof.
  induction n as [| n IH]; intros k sys s.
  - exists sys, s. cbn [seedLoop]. repeat split; intros; lia.
  - destruct (step_spec k sys s) as (sys1 & s1 & E1 & F1 & Z1 & Oth1 & At1).
    destruct (IH (S k) sys1 s1) as (sys' & s' & E2 & F2 & Z2 & Oth2 & At2).
    exists sys', s'. cbn [seedLoop]. unfold bind at 1. rewrite E1.
    split; [exact E2 |]. split; [congruence |]. split; [congruence |].
    unfold sizes in Z1. injection Z1 as Zp Zv Zl Zm.
    split.
    + intros j Hj. rewrite (Oth2 j ltac:(lia)). apply Oth1. lia.
    + intros j Hj Hin Hv.
      destruct (Nat.eq_dec j k) as [-> | Hne].
      * rewrite (Oth2 k ltac:(lia)). apply At1; assumption.
      * apply At2; [lia | |].
        -- unfold inSystem in *. rewrite Zp, Zl. exact Hin.
        -- rewrite Zv. exact Hv.
Qed.

End SeedLoops.

Section Part001Creation.

Import Part001.

Variable host : Host.
Hypothesis host_fair : fair host.

Lemma blankSystem_holds (count : nat) (maxLife : Q) (j : nat) :
  (j < count)%nat ->
  inSystem (blankSystem count maxLife) j
  /\ (j * 3 + 2 < length (velocities (blankSystem count maxLife)))%nat.
Proof.
  intros Hj. unfold inSystem, blankSystem. cbn [positions velocities lifetimes].
  rewrite !length_replicate. lia.
Qed.

(** What six draws in a row return and leave. *)
Lemma seed_writes (k : nat) (a v l : list Q) (o w : Q * Q * Q) (life m : Q) :
  let sys := {| positions := a; velocities := v; lifetimes := l; maxLifetime := m |} in
  let sys' :=
    {| positions := <[(k * 3 + 2)%nat := snd o]>
                      (<[(k * 3 + 1)%nat := snd (fst o)]> (<[(k * 3)%nat := fst (fst o)]> a));
       velocities := <[(k * 3 + 2)%nat := snd w]>
                       (<[(k * 3 + 1)%nat := snd (fst w)]> (<[(k * 3)%nat := fst (fst w)]> v));
       lifetimes := <[k := life]> l;
       maxLifetime := m |} in
  sizes sys' = sizes sys
  /\ (forall j, j <> k -> seeded sys' j = seeded sys j)
  /\ (inSystem sys k -> (k * 3 + 2 < length v)%nat -> seeded sys' k = (o, w, life)).
Proof.
  intros sys sys'. subst sys sys'. unfold sizes, seeded, inSystem.
  cbn [positions velocities lifetimes maxLifetime].
  destruct (particle_put a k (fst (fst o)) (snd (fst o)) (snd o)) as (La & Oa & Aa).
  destruct (particle_put v k (fst (fst w)) (snd (fst w)) (snd w)) as (Lv & Ov & Av).
  cbv zeta in *. split; [| split].
  - rewrite La, Lv, length_insert. reflexivity.
  - intros j Hne. rewrite (Oa j Hne), (Ov j Hne), read_insert_ne by lia. reflexivity.
  - intros [Hp Hl] Hv. rewrite (Aa Hp), (Av Hv), read_insert_eq by exact Hl.
    destruct o as [[? ?] ?], w as [[? ?] ?]. reflexivity.
Qed.

Lemma seedEvaporation_spec (k : nat) (sys : System) (s : Sim) :
  exists sys' s',
    seedEvaporation host k sys s = Normal sys' s'
    /\ besidesDraws s' = besidesDraws s
    /\ sizes sys' = sizes sys
    /\ (forall j, j <> k -> seeded sys' j = seeded sys j)
    /\ (inSystem sys k -> (k * 3 + 2 < length (velocities sys))%nat ->
        evaporationSeed (seeded sys' k) /\ risingWithin 100 (seeded sys' k)).
Proof.
  destruct sys as [a v l m]. destruct s as [cp pl speed ts ps rc].
  pose proof (host_fair rc) as [? ?]. pose proof (host_fair (S rc)) as [? ?].
  pose proof (host_fair (S (S rc))) as [? ?].
  pose proof (host_fair (S (S (S rc)))) as [? ?].
  pose proof (host_fair (S (S (S (S rc))))) as [? ?].
  pose proof (host_fair (S (S (S (S (S rc)))))) as [? ?].
  destruct (seed_writes k a v l
              ((Math_random host rc - 0.5) * 50, 0.5, (Math_random host (S rc) - 0.5) * 50)
              ((Math_random host (S (S rc)) - 0.5) * 0.02,
               0.05 + Math_random host (S (S (S rc))) * 0.03,
               (Math_random host (S (S (S (S rc)))) - 0.5) * 0.02)
              (Math_random host (S (S (S (S (S rc))))) * 100) m) as (Hz & Ho & Ha).
  cbn [fst snd] in Hz, Ho, Ha.
  eexists. eexists. split; [reflexivity |]. split; [reflexivity |].
  split; [exact Hz |]. split; [exact Ho |].
  intros Hin Hv.
  refine (eq_ind_r (fun p => evaporationSeed p /\ risingWithin 100 p) _ (Ha Hin Hv)).
  unfold evaporationSeed, risingWithin.
  split; [| repeat split; qlra]. split; [| split].
  - exists (Math_random host rc), (Math_random host (S rc)).
    repeat (split; [apply host_fair |]). reflexivity.
  - exists (Math_random host (S (S rc))), (Math_random host (S (S (S rc)))),
      (Math_random host (S (S (S (S rc))))).
    repeat (split; [apply host_fair |]). reflexivity.
  - exists (Math_random host (S (S (S (S (S rc)))))).
    split; [apply host_fair | reflexivity].
Qed.

Lemma seedTranspiration_spec (tree : THREE.Vector3) (k : nat) (sys : System) (s : Sim) :
  exists sys' s',
    seedTranspiration host tree k sys s = Normal sys' s'
    /\ besidesDraws s' = besidesDraws s
    /\ sizes sys' = sizes sys
    /\ (forall j, j <> k -> seeded sys' j = seeded sys j)
    /\ (inSystem sys k -> (k * 3 + 2 < length (velocities sys))%nat ->
        transpirationSeed tree (seeded sys' k) /\ risingWithin 80 (seeded sys' k)).
Proof.
  destruct sys as [a v l m]. destruct s as [cp pl speed ts ps rc].
  pose proof (host_fair rc) as [? ?]. pose proof (host_fair (S rc)) as [? ?].
  pose proof (host_fair (S (S rc))) as [? ?].
  pose proof (host_fair (S (S (S rc)))) as [? ?].
  pose proof (host_fair (S (S (S (S rc))))) as [? ?].
  pose proof (host_fair (S (S (S (S (S rc)))))) as [? ?].
  destruct (seed_writes k a v l
              (THREE.x tree + (Math_random host rc - 0.5) * 4, THREE.y tree + 4,
               THREE.z tree + (Math_random host (S rc) - 0.5) * 4)
              ((Math_random host (S (S rc)) - 0.5) * 0.01,
               0.03 + Math_random host (S (S (S rc))) * 0.02,
               (Math_random host (S (S (S (S rc)))) - 0.5) * 0.01)
              (Math_random host (S (S (S (S (S rc))))) * 80) m) as (Hz & Ho & Ha).
  cbn [fst snd] in Hz, Ho, Ha.
  eexists. eexists. split; [reflexivity |]. split; [reflexivity |].
  split; [exact Hz |]. split; [exact Ho |].
  intros Hin Hv.
  refine (eq_ind_r (fun p => transpirationSeed tree p /\ risingWithin 80 p) _ (Ha Hin Hv)).
  unfold transpirationSeed, risingWithin.
  split; [| repeat split; qlra]. split; [| split].
  - exists tree, (Math_random host rc), (Math_random host (S rc)).
    split; [left; reflexivity |].
    repeat (split; [apply host_fair |]). reflexivity.
  - exists (Math_random host (S (S rc))), (Math_random host (S (S (S rc)))),
      (Math_random host (S (S (S (S rc))))).
    repeat (split; [apply host_fair |]). reflexivity.
  - exists (Math_random host (S (S (S (S (S rc)))))).
    split; [apply host_fair | reflexivity].
Qed.

(** X16. [createEvaporationSystem], for any particle count: it completes
    and appends one system to the evaporation family, with three
    coordinates and one lifetime per particle and lifetime limit 100.  Every
    particle is placed from six draws of its own: at
    ((r1 - 0.5) * 50, 0.5, (r2 - 0.5) * 50), where the pass puts a recycled
    particle back, with velocity
    ((r3 - 0.5) * 0.02, 0.05 + r4 * 0.03, (r5 - 0.5) * 0.02) and lifetime
    r6 * 100; so it rises, and its lifetime is within the limit. *)
Theorem createEvaporationSystem_seeds (count : nat) (s : Sim) :
  let s' := finalState (createEvaporationSystemN host count s) in
  completes (createEvaporationSystemN host count s) = true
  /\ exists sys,
       evaporation (particles s') = evaporation (particles s) ++ [sys]
       /\ sizes sys = ((count * 3)%nat, (count * 3)%nat, count, 100)
       /\ forall j, (j < count)%nat ->
            evaporationSeed (seeded sys j) /\ risingWithin 100 (seeded sys j).
Proof.
  intros s'. subst s'. unfold createEvaporationSystemN.
  destruct (seedLoop_spec (seedEvaporation host)
              (fun _ p => evaporationSeed p /\ risingWithin 100 p)
              seedEvaporation_spec count 0%nat (blankSystem count 100) s)
    as (sys & s1 & E & F & Z & _ & At).
  unfold bind at 1 2. rewrite E. cbn [completes finalState modify].
  split; [reflexivity |]. exists sys.
  unfold besidesDraws in F. injection F as _ _ _ _ Hps.
  split; [cbn; rewrite Hps; reflexivity |].
  split.
  - rewrite Z. unfold sizes, blankSystem. cbn. rewrite !length_replicate. reflexivity.
  - intros j Hj. destruct (blankSystem_holds count 100 j Hj) as [Hin Hv].
    apply At; [lia | exact Hin | exact Hv].
Qed.

Lemma forEachTree_spec (count : nat) (ts : list THREE.Vector3) :
  forall s,
  exists new s',
    forEachTree host count ts s = Normal tt s'
    /\ (climateParams s', isPlaying s', animationSpeed s', trees s')
       = (climateParams s, isPlaying s, animationSpeed s, trees s)
    /\ (evaporation (particles s'), precipitation (particles s'), runoff (particles s'))
       = (evaporation (particles s), precipitation (particles s), runoff (particles s))
    /\ transpiration (particles s') = transpiration (particles s) ++ new
    /\ Forall2 (fun tree sys =>
                  sizes sys = ((count * 3)%nat, (count * 3)%nat, count, 80)
                  /\ forall j, (j < count)%nat ->
                       transpirationSeed tree (seeded sys j)
                       /\ risingWithin 80 (seeded sys j))
         ts new.
Proof.
  induction ts as [| tree rest IH]; intros s.
  - exists [], s. cbn [forEachTree]. split; [reflexivity |].
    split; [reflexivity |]. split; [reflexivity |].
    split; [rewrite app_nil_r; reflexivity | constructor].
  - destruct (seedLoop_spec (seedTranspiration host tree)
                (fun _ p => transpirationSeed tree p /\ risingWithin 80 p)
                (seedTranspiration_spec tree) count 0%nat (blankSystem count 80) s)
      as (sys & s1 & E & F & Z & _ & At).
    cbn [forEachTree]. unfold bind at 1. rewrite E.
    unfold bind at 1. unfold modify at 1.
    set (s2 := withParticles _ s1).
    destruct (IH s2) as (new & s' & E2 & F2 & G2 & T2 & A2).
    exists (sys :: new), s'. split; [exact E2 |].
    unfold besidesDraws in F. injection F as Hc Hp Hs Ht Hps.
    assert (Hs2 : (climateParams s2, isPlaying s2, animationSpeed s2, trees s2)
                  = (climateParams s, isPlaying s, animationSpeed s, trees s)
                  /\ (evaporation (particles s2), precipitation (particles s2),
                      runoff (particles s2))
                     = (evaporation (particles s), precipitation (particles s),
                        runoff (particles s))
                  /\ transpiration (particles s2) = transpiration (particles s) ++ [sys]).
    { subst s2. cbn. rewrite Hc, Hp, Hs, Ht, Hps. repeat split. }
    destruct Hs2 as (H1 & H2 & H3).
    split; [congruence |]. split; [congruence |].
    split; [rewrite T2, H3, <- app_assoc; reflexivity |].
    constructor; [| exact A2]. split.
    + rewrite Z. unfold sizes, blankSystem. cbn. rewrite !length_replicate. reflexivity.
    + intros j Hj. destruct (blankSystem_holds count 80 j Hj) as [Hin Hv].
      apply At; [lia | exact Hin | exact Hv].
Qed.

(** X17. [createTranspirationSystem], for any particle count: it completes
    and appends one system per tree to the transpiration family, in the
    order of the trees, and none when there is no tree.  Every particle of a
    system is placed from six draws of its own: in the box of its own tree,
    at (tree.x + (r1 - 0.5) * 4, tree.y + 4, tree.z + (r2 - 0.5) * 4), with
    velocity ((r3 - 0.5) * 0.01, 0.03 + r4 * 0.02, (r5 - 0.5) * 0.01) and
    lifetime r6 * 80; so it rises, and its lifetime is within the limit of
    80. *)
Theorem createTranspirationSystem_seeds (count : nat) (s : Sim) :
  let s' := finalState (createTranspirationSystemN host count s) in
  completes (createTranspirationSystemN host count s) = true
  /\ trees s' = trees s
  /\ exists new,
       transpiration (particles s') = transpiration (particles s) ++ new
       /\ Forall2 (fun tree sys =>
                     sizes sys = ((count * 3)%nat, (count * 3)%nat, count, 80)
                     /\ forall j, (j < count)%nat ->
                       transpirationSeed tree (seeded sys j)
                       /\ risingWithin 80 (seeded sys j))
            (trees s) new.
Proof.
  intros s'. subst s'. unfold createTranspirationSystemN.
  unfold bind, gets.
  destruct (forEachTree_spec count (trees s) s) as (new & s1 & E & F & _ & T & A).
  rewrite E. cbn [completes finalState]. split; [reflexivity |].
  injection F as _ _ _ Ht. split; [exact Ht |].
  exists new. split; [exact T | exact A].
Qed.

End Part001Creation.

(** ** part_001: the transpiration pass keeps its particles in bounds *)

Section Part001TranspirationBounds.

Import Part001.

Variable host : Host.
Hypothesis host_fair : fair host.

(** X18. With at least one tree, after a transpiration pass no particle of
    a system with a non-negative lifetime limit is older than the limit, and
    each is at or below altitude 20 or else exactly 4 above a tree, where
    the pass has just put it. *)
Theorem transpiration_stays_within_limits (s : Sim) :
  trees s <> [] ->
  Forall (fun sys => 0 <= maxLifetime sys) (transpiration (particles s)) ->
  Forall (fun sys =>
            forall j, inSystem sys j ->
              THREE.read (lifetimes sys) j <= maxLifetime sys
              /\ (THREE.getY (positions sys) j <= 20
                  \/ exists tree, In tree (trees s)
                                  /\ THREE.getY (positions sys) j = THREE.y tree + 4))
    (transpiration (particles (finalState (updateTranspiration host s)))).
Proof.
  intros Htrees Hmax.
  destruct (transpirationPass_spec host host_fair s) as (_ & _ & _ & Hout).
  assert (Hne : Nat.eqb (length (trees s)) 0 = false)
    by (destruct (trees s); [congruence | reflexivity]).
  revert Hmax Hout.
  generalize (transpiration (particles (finalState (updateTranspiration host s)))).
  generalize (transpiration (particles s)).
  intros l l' Hmax Hout.
  induction Hout as [| sys sys' l l' H1 _ IHl]; constructor;
    [| apply IHl; inversion Hmax; assumption].
  assert (Hm0 : 0 <= maxLifetime sys) by (inversion Hmax; assumption).
  destruct H1 as [(Hv & Hm & Hp & Hl) Hout]. intros j Hin.
  assert (Hin0 : inSystem sys j) by (unfold inSystem in *; rewrite <- Hp, <- Hl; exact Hin).
  specialize (Hout j Hin0). unfold transpirationOutcome, outcomeOf, particle in Hout.
  rewrite Hne in Hout. cbn [negb] in Hout. rewrite andb_true_r in Hout. rewrite Hm.
  destruct (Qgtb (THREE.read (lifetimes sys) j + animationSpeed s) (maxLifetime sys)
            || Qgtb (THREE.getY (positions sys) j + THREE.getY (velocities sys) j) 20)
    eqn:Hcond.
  - destruct Hout as [(tree & r1 & r2 & Hin' & _ & _ & Ho) Hlife].
    injection Ho as _ Hy _. rewrite Hlife. split; [exact Hm0 |].
    right. exists tree. split; [exact Hin' | exact Hy].
  - destruct Hout as [Ho Hlife]. injection Ho as _ Hy _.
    apply orb_false_iff in Hcond. destruct Hcond as [C1 C2].
    apply Qgtb_false in C1, C2. rewrite Hlife, Hy. split; [exact C1 | left; exact C2].
Qed.

End Part001TranspirationBounds.

(** ** part_001: where [createTrees] plants *)

Section Part001Trees.

Import Part001.

Variable host : Host.
Hypothesis host_fair : fair host.
Variable getTerrainHeight : Q -> Q -> Q.

(** X19. [createTrees], for any number of candidate sites and any terrain:
    it completes, touches nothing but the list of trees and the count of
    draws, and appends at most one tree per site, each within 30 of the
    centre in x and z, standing on the terrain, on ground above 2; a site at
    or below 2 gets no tree. *)
Theorem createTrees_plants_on_high_ground (n : nat) (s : Sim) :
  let s' := finalState (createTreesN host getTerrainHeight n s) in
  completes (createTreesN host getTerrainHeight n s) = true
  /\ (climateParams s', isPlaying s', animationSpeed s', particles s')
     = (climateParams s, isPlaying s, animationSpeed s, particles s)
  /\ exists new,
       trees s' = trees s ++ new
       /\ (length new <= n)%nat
       /\ Forall (planted getTerrainHeight) new.
Proof.
  intros s'. subst s'. unfold createTreesN.
  match goal with
  | |- context [forRange 0 n ?b] => set (body := b)
  end.
  pose (I := fun (m : nat) (t : Sim) =>
               (climateParams t, isPlaying t, animationSpeed t, particles t)
               = (climateParams s, isPlaying s, animationSpeed s, particles s)
               /\ exists new,
                    trees t = trees s ++ new
                    /\ (length new <= m)%nat
                    /\ Forall (planted getTerrainHeight) new).
  assert (Hstep : forall m k t, I m t ->
            completes (body k t) = true /\ I (S m) (finalState (body k t))).
  { intros m k t [Hf (new & Ht & Hlen & Hall)].
    destruct t as [cp pl speed ts ps rc]. cbn [trees] in Ht.
    pose proof (host_fair rc) as [? ?]. pose proof (host_fair (S rc)) as [? ?].
    unfold body, random, bind, gets, modify, ret, when.
    cbn [randomCalls withRandomCalls].
    destruct (Qgtb _ 2) eqn:Hy.
    - split; [reflexivity |]. cbn [finalState]. split; [exact Hf |].
      eexists (new ++ [_]). cbn [trees withTrees withRandomCalls].
      split; [rewrite Ht, <- app_assoc; reflexivity |].
      split; [rewrite length_app; cbn; lia |].
      apply Forall_app. split; [exact Hall |]. constructor; [| constructor].
      unfold planted. cbn [THREE.x THREE.y THREE.z].
      apply Qgtb_true in Hy.
      split; [split; qlra |]. split; [split; qlra |]. split; [reflexivity | exact Hy].
    - split; [reflexivity |]. cbn [finalState]. split; [exact Hf |].
      exists new. cbn [trees withRandomCalls].
      split; [exact Ht |]. split; [lia | exact Hall]. }
  assert (H0 : I 0%nat s).
  { split; [reflexivity |]. exists []. rewrite app_nil_r.
    split; [reflexivity |]. split; [cbn; lia | constructor]. }
  destruct (forRange_stages I body Hstep n 0%nat 0%nat s H0) as [Hc [Hf Hnew]].
  split; [exact Hc |]. split; [exact Hf | exact Hnew].
Qed.

End Part001Trees.

(** *** The properties of part_001 on [flatHost] and [groveSim] *)

Lemma groveSim_limits :
  Forall (fun sys => 0 <= Part001.maxLifetime sys)
    (Part001.evaporation (Part001.particles Part001.groveSim))
  /\ Forall (fun sys => 0 <= Part001.maxLifetime sys)
       (Part001.transpiration (Part001.particles Part001.groveSim))
  /\ Part001.trees Part001.groveSim <> [].
Proof.
  split; [| split].
  - vm_compute. repeat constructor. intro H; discriminate H.
  - vm_compute. repeat constructor. intro H; discriminate H.
  - qcompute.
Qed.

Lemma evaporationPass_recycles_onto_plane_witness :
  let s := Part001.groveSim in
  let s' := finalState (Part001.updateEvaporation flatHost s) in
  fair flatHost
  /\ (completes (Part001.updateEvaporation flatHost s) = true
      /\ (Part001.climateParams s', Part001.isPlaying s', Part001.animationSpeed s',
          Part001.trees s')
         = (Part001.climateParams s, Part001.isPlaying s, Part001.animationSpeed s,
            Part001.trees s)
      /\ (Part001.transpiration (Part001.particles s'),
          Part001.precipitation (Part001.particles s'),
          Part001.runoff (Part001.particles s'))
         = (Part001.transpiration (Part001.particles s),
            Part001.precipitation (Part001.particles s),
            Part001.runoff (Part001.particles s))
      /\ Forall2 (Part001.evaporationSystemOutcome
                    (Part001.evaporationRate (Part001.climateParams s))
                    (Part001.animationSpeed s))
           (Part001.evaporation (Part001.particles s))
           (Part001.evaporation (Part001.particles s'))).
Proof.
  intros s s'. split; [exact flatHost_fair |].
  exact (evaporationPass_recycles_onto_plane flatHost flatHost_fair s).
Defined.

Lemma evaporation_stays_within_limits_witness :
  let s := Part001.groveSim in
  (fair flatHost
   /\ Forall (fun sys => 0 <= Part001.maxLifetime sys)
        (Part001.evaporation (Part001.particles s)))
  /\ Forall (Part001.withinLimits 25)
       (Part001.evaporation
          (Part001.particles (Part001.afterEvaporationPasses flatHost 3 s))).
Proof.
  intros s.
  split; [split; [exact flatHost_fair | exact (proj1 groveSim_limits)] |].
  exact (evaporation_stays_within_limits flatHost flatHost_fair 2 s (proj1 groveSim_limits)).
Defined.

Lemma createEvaporationSystem_seeds_witness :
  let s := Part001.newSim in
  let s' := finalState (Part001.createEvaporationSystemN flatHost 2 s) in
  fair flatHost
  /\ (completes (Part001.createEvaporationSystemN flatHost 2 s) = true
      /\ exists sys,
           Part001.evaporation (Part001.particles s')
           = Part001.evaporation (Part001.particles s) ++ [sys]
           /\ Part001.sizes sys = ((2 * 3)%nat, (2 * 3)%nat, 2%nat, 100)
           /\ forall j, (j < 2)%nat ->
                Part001.evaporationSeed (Part001.seeded sys j)
                /\ Part001.risingWithin 100 (Part001.seeded sys j)).
Proof.
  intros s s'. split; [exact flatHost_fair |].
  exact (createEvaporationSystem_seeds flatHost flatHost_fair 2 s).
Defined.

Lemma createTranspirationSystem_seeds_witness :
  let s := Part001.groveSim in
  let s' := finalState (Part001.createTranspirationSystemN flatHost 2 s) in
  fair flatHost
  /\ (completes (Part001.createTranspirationSystemN flatHost 2 s) = true
      /\ Part001.trees s' = Part001.trees s
      /\ exists new,
           Part001.transpiration (Part001.particles s')
           = Part001.transpiration (Part001.particles s) ++ new
           /\ Forall2 (fun tree sys =>
                         Part001.sizes sys = ((2 * 3)%nat, (2 * 3)%nat, 2%nat, 80)
                         /\ forall j, (j < 2)%nat ->
                              Part001.transpirationSeed tree (Part001.seeded sys j)
                              /\ Part001.risingWithin 80 (Part001.seeded sys j))
                (Part001.trees s) new).
Proof.
  intros s s'. split; [exact flatHost_fair |].
  exact (createTranspirationSystem_seeds flatHost flatHost_fair 2 s).
Defined.

Lemma transpiration_stays_within_limits_witness :
  let s := Part001.groveSim in
  (fair flatHost
   /\ Part001.trees s <> []
   /\ Forall (fun sys => 0 <= Part001.maxLifetime sys)
        (Part001.transpiration (Part001.particles s)))
  /\ Forall (fun sys =>
               forall j, Part001.inSystem sys j ->
                 THREE.read (Part001.lifetimes sys) j <= Part001.maxLifetime sys
                 /\ (THREE.getY (Part001.positions sys) j <= 20
                     \/ exists tree,
                          In tree (Part001.trees s)
                          /\ THREE.getY (Part001.positions sys) j = THREE.y tree + 4))
       (Part001.transpiration
          (Part001.particles (finalState (Part001.updateTranspiration flatHost s)))).
Proof.
  intros s.
  destruct groveSim_limits as (_ & Hmax & Htrees).
  split; [split; [exact flatHost_fair | split; [exact Htrees | exact Hmax]] |].
  exact (transpiration_stays_within_limits flatHost flatHost_fair s Htrees Hmax).
Defined.

Lemma createTrees_plants_on_high_ground_witness :
  let hill := fun x z : Q => 5 + x * 0 + z * 0 in
  let s := Part001.newSim in
  let s' := finalState (Part001.createTreesN flatHost hill 20 s) in
  fair flatHost
  /\ (completes (Part001.createTreesN flatHost hill 20 s) = true
      /\ (Part001.climateParams s', Part001.isPlaying s', Part001.animationSpeed s',
          Part001.particles s')
         = (Part001.climateParams s, Part001.isPlaying s, Part001.animationSpeed s,
            Part001.particles s)
      /\ exists new,
           Part001.trees s' = Part001.trees s ++ new
           /\ (length new <= 20)%nat
           /\ Forall (Part001.planted hill) new).
Proof.
  intros hill s s'. split; [exact flatHost_fair |].
  exact (createTrees_plants_on_high_ground flatHost flatHost_fair hill 20 s).
Defined.

(** ** part_000: the pools [createParticles] creates and the read-outs *)

Section FillLoops.

Import Part000.

Variable step : nat -> Points -> Exec Sim Points.
Variable Pre : Points -> nat -> Prop.
Variable P : Sim -> (Q * Q * Q) * (Q * Q * Q) -> Prop.

Hypothesis Pre_stable :
  forall p p' j,
    (length (position p'), length (vel p'), opacity p')
    = (length (position p), length (vel p), opacity p) ->
    seeded p' j = seeded p j -> Pre p j -> Pre p' j.
Hypothesis P_frame :
  forall s s' o, besidesDraws s' = besidesDraws s -> P s' o -> P s o.
Hypothesis step_spec :
  forall k p s,
  exists p' s',
    step k p s = Normal p' s'
    /\ besidesDraws s' = besidesDraws s
    /\ (length (position p'), length (vel p'), opacity p')
       = (length (position p), length (vel p), opacity p)
    /\ (forall j, j <> k -> seeded p' j = seeded p j)
    /\ (Pre p k -> P s (seeded p' k)).

(** The filling loop returns, draws only, keeps the sizes of the arrays and
    leaves every particle of its range as the body placed it. *)
Lemma fillPoints_spec (n : nat) :
  forall k p s,
  exists p' s',
    fillPoints step k n p s = Normal p' s'
    /\ besidesDraws s' = besidesDraws s
    /\ (length (position p'), length (vel p'), opacity p')
       = (length (position p), length (vel p), opacity p)
    /\ (forall j, (j < k \/ k + n <= j)%nat -> seeded p' j = seeded p j)
    /\ (forall j, (k <= j < k + n)%nat -> Pre p j -> P s (seeded p' j)).
Proof.
  induction n as [| n IH]; intros k p s.
  - exists p, s. cbn [fillPoints]. repeat split; intros; lia.
  - destruct (step_spec k p s) as (p1 & s1 & E1 & F1 & Z1 & Oth1 & At1).
    destruct (IH (S k) p1 s1) as (p' & s' & E2 & F2 & Z2 & Oth2 & At2).
    exists p', s'. cbn [fillPoints]. unfold bind at 1. rewrite E1.
    split; [exact E2 |]. split; [congruence |]. split; [congruence |].
    split.
    + intros j Hj. rewrite (Oth2 j ltac:(lia)). apply Oth1. lia.
    + intros j Hj Hin.
      destruct (Nat.eq_dec j k) as [-> | Hne].
      * rewrite (Oth2 k ltac:(lia)). apply At1; assumption.
      * apply (P_frame s s1 _ F1). apply At2; [lia |].
        apply (Pre_stable p p1 j Z1 (Oth1 j Hne) Hin).
Qed.

End FillLoops.

Section Part000Creation.

Import Part000.

Variable host : Host.
Hypothesis host_fair : fair host.

Lemma blankPoints_holds (count : nat) (o : Q) (j : nat) :
  (j < count)%nat -> inPoints (blankPoints count o) j.
Proof.
  intros Hj. unfold inPoints, blankPoints. cbn [position vel].
  rewrite !length_replicate. lia.
Qed.

(** Writing the three slots of particle [k], with the first index written
    [k * 3 + 0] as in the source. *)
Lemma particle_put0 (a : list Q) (k : nat) (o : Q * Q * Q) :
  let a' := <[(k * 3 + 2)%nat := snd o]>
              (<[(k * 3 + 1)%nat := snd (fst o)]> (<[(k * 3 + 0)%nat := fst (fst o)]> a)) in
  length a' = length a
  /\ (forall j, j <> k -> particle a' j = particle a j)
  /\ ((k * 3 + 2 < length a)%nat -> particle a' k = o).
Proof.
  rewrite Nat.add_0_r.
  destruct (particle_put a k (fst (fst o)) (snd (fst o)) (snd o)) as (H1 & H2 & H3).
  cbv zeta in *. split; [exact H1 |]. split; [exact H2 |].
  intros Hk. rewrite (H3 Hk). destruct o as [[? ?] ?]. reflexivity.
Qed.

Lemma createParticles_transpiration_step (k : nat) (p : Points) (s : Sim) :
  exists p' s',
    seedTranspiration host k p s = Normal p' s'
    /\ besidesDraws s' = besidesDraws s
    /\ (length (position p'), length (vel p'), opacity p')
       = (length (position p), length (vel p), opacity p)
    /\ (forall j, j <> k -> seeded p' j = seeded p j)
    /\ (inPoints p k -> transpirationSeed s (seeded p' k) /\ rising (seeded p' k)).
Proof.
  destruct p as [a v o]. destruct s as [pl ps wbs es tr ev st se rc].
  pose proof (pick_fair host host_fair es rc) as Hpick.
  set (e := default THREE.origin (pick es (Math_random host rc))).
  assert (He : In e es \/ (es = [] /\ e = THREE.origin)).
  { subst e. destruct (pick es (Math_random host rc)) as [q |].
    - left. apply Hpick.
    - right. split; [| reflexivity]. destruct es; [reflexivity | discriminate]. }
  pose proof (host_fair (S rc)) as U1. pose proof (host_fair (S (S rc))) as U2.
  pose proof (host_fair (S (S (S rc)))) as U3.
  pose proof (host_fair (S (S (S (S rc))))) as [? ?].
  pose proof (host_fair (S (S (S (S (S rc)))))) as [? ?].
  pose proof (host_fair (S (S (S (S (S (S rc))))))) as [? ?].
  destruct (particle_put0 a k
              (THREE.x e + (Math_random host (S rc) - 0.5) * 2,
               THREE.y e + Math_random host (S (S rc)) * 3,
               THREE.z e + (Math_random host (S (S (S rc))) - 0.5) * 2))
    as (La & Oa & Aa).
  destruct (particle_put0 v k
              ((Math_random host (S (S (S (S rc)))) - 0.5) * 0.08,
               Math_random host (S (S (S (S (S rc))))) * 0.2 + 0.1,
               (Math_random host (S (S (S (S (S (S rc)))))) - 0.5) * 0.08))
    as (Lv & Ov & Av).
  cbn [fst snd] in La, Oa, Aa, Lv, Ov, Av. cbv zeta in La, Oa, Aa, Lv, Ov, Av.
  unfold seedTranspiration, random, bind, gets, modify, ret.
  cbn [randomCalls withRandomCalls treeEmitters position vel opacity].
  eexists. eexists. split; [reflexivity |]. split; [reflexivity |].
  unfold seeded. cbn [position vel opacity].
  split; [fold e; rewrite La, Lv; reflexivity |].
  split; [intros j Hne; fold e; rewrite (Oa j Hne), (Ov j Hne); reflexivity |].
  intros [Hp Hv]. cbn [position vel] in Hp, Hv. fold e.
  rewrite (Aa Hp), (Av Hv). unfold transpirationSeed, rising.
  split; [| qlra]. split.
  - exists e, (Math_random host (S rc)), (Math_random host (S (S rc))),
      (Math_random host (S (S (S rc)))).
    cbn [treeEmitters]. split; [exact He |].
    split; [exact U1 |]. split; [exact U2 |]. split; [exact U3 |]. reflexivity.
  - exists (Math_random host (S (S (S (S rc))))),
      (Math_random host (S (S (S (S (S rc)))))),
      (Math_random host (S (S (S (S (S (S rc))))))).
    repeat (split; [apply host_fair |]). reflexivity.
Qed.

Lemma createParticles_evaporation_step (k : nat) (p : Points) (s : Sim) :
  exists p' s',
    seedEvaporation host k p s = Normal p' s'
    /\ besidesDraws s' = besidesDraws s
    /\ (length (position p'), length (vel p'), opacity p')
       = (length (position p), length (vel p), opacity p)
    /\ (forall j, j <> k -> seeded p' j = seeded p j)
    /\ (inPoints p k /\ particle (position p) k = (0, 0, 0) ->
        evaporationSeed s (seeded p' k) /\ rising (seeded p' k)).
Proof.
  destruct p as [a v o]. destruct s as [pl ps wbs es tr ev st se rc].
  unfold seedEvaporation. unfold bind at 1. unfold gets at 1. cbn [waterBodies].
  pose proof (pick_fair host host_fair wbs rc) as Hpick.
  destruct (Nat.eqb (length wbs) 0) eqn:Hlen; cbn [negb].
  - pose proof (host_fair rc) as [? ?]. pose proof (host_fair (S rc)) as [? ?].
    pose proof (host_fair (S (S rc))) as [? ?].
    destruct (particle_put0 v k
                ((Math_random host rc - 0.5) * 0.05,
                 Math_random host (S rc) * 0.15 + 0.05,
                 (Math_random host (S (S rc)) - 0.5) * 0.05))
      as (Lv & Ov & Av).
    cbn [fst snd] in Lv, Ov, Av. cbv zeta in Lv, Ov, Av.
    unfold random, bind, gets, modify, ret.
    cbn [randomCalls withRandomCalls waterBodies position vel opacity].
    eexists. eexists. split; [reflexivity |]. split; [reflexivity |].
    unfold seeded. cbn [position vel opacity].
    split; [rewrite Lv; reflexivity |].
    split; [intros j Hne; rewrite (Ov j Hne); reflexivity |].
    intros [[Hp Hv] Hzero]. cbn [position vel] in Hp, Hv, Hzero.
    unfold evaporationSeed, rising. cbn [waterBodies]. rewrite Hlen, Hzero, (Av Hv).
    split; [| qlra]. split; [reflexivity |].
    exists (Math_random host rc), (Math_random host (S rc)), (Math_random host (S (S rc))).
    repeat (split; [apply host_fair |]). reflexivity.
  - unfold random, bind, gets, modify, ret.
    cbn [randomCalls withRandomCalls waterBodies position vel opacity].
    destruct (pick wbs (Math_random host rc)) as [wb |];
      [| congruence].
    cbv beta iota. cbn [randomCalls withRandomCalls position vel opacity].
    destruct Hpick as [Hin _].
    pose proof (host_fair (S rc)) as U1. pose proof (host_fair (S (S rc))) as U2.
    pose proof (host_fair (S (S (S rc)))) as [? ?].
    pose proof (host_fair (S (S (S (S rc))))) as [? ?].
    pose proof (host_fair (S (S (S (S (S rc)))))) as [? ?].
    destruct (particle_put0 a k
                (THREE.x (at_ wb) + (Math_random host (S rc) - 0.5) * w wb, 0.12,
                 THREE.z (at_ wb) + (Math_random host (S (S rc)) - 0.5) * h wb))
      as (La & Oa & Aa).
    destruct (particle_put0 v k
                ((Math_random host (S (S (S rc))) - 0.5) * 0.05,
                 Math_random host (S (S (S (S rc)))) * 0.15 + 0.05,
                 (Math_random host (S (S (S (S (S rc))))) - 0.5) * 0.05))
      as (Lv & Ov & Av).
    cbn [fst snd] in La, Oa, Aa, Lv, Ov, Av. cbv zeta in La, Oa, Aa, Lv, Ov, Av.
    eexists. eexists. split; [reflexivity |]. split; [reflexivity |].
    unfold seeded. cbn [position vel opacity].
    split; [rewrite La, Lv; reflexivity |].
    split; [intros j Hne; rewrite (Oa j Hne), (Ov j Hne); reflexivity |].
    intros [[Hp Hv] _]. cbn [position vel] in Hp, Hv.
    unfold evaporationSeed, rising. cbn [waterBodies]. rewrite Hlen, (Aa Hp), (Av Hv).
    split; [| qlra]. split.
    + exists wb, (Math_random host (S rc)), (Math_random host (S (S rc))).
      cbn [waterBodies]. split; [exact Hin |]. split; [exact U1 |]. split; [exact U2 |].
      reflexivity.
    + exists (Math_random host (S (S (S rc)))), (Math_random host (S (S (S (S rc))))),
        (Math_random host (S (S (S (S (S rc)))))).
      repeat (split; [apply host_fair |]). reflexivity.
Qed.

Lemma transpirationSeed_frame (s s' : Sim) (o : (Q * Q * Q) * (Q * Q * Q)) :
  besidesDraws s' = besidesDraws s ->
  transpirationSeed s' o /\ rising o -> transpirationSeed s o /\ rising o.
Proof.
  unfold besidesDraws. intros F. injection F as _ _ _ He _ _ _ _.
  unfold transpirationSeed, transpirationSpawn. rewrite He. exact (fun H => H).
Qed.

Lemma evaporationSeed_frame (s s' : Sim) (o : (Q * Q * Q) * (Q * Q * Q)) :
  besidesDraws s' = besidesDraws s ->
  evaporationSeed s' o /\ rising o -> evaporationSeed s o /\ rising o.
Proof.
  unfold besidesDraws. intros F. injection F as _ _ Hw _ _ _ _ _.
  unfold evaporationSeed, evaporationSpawn. rewrite Hw. exact (fun H => H).
Qed.

Lemma blankPoints_zero (count : nat) (o : Q) (j : nat) :
  (j < count)%nat -> particle (position (blankPoints count o)) j = (0, 0, 0).
Proof.
  intros Hj. unfold particle, THREE.getX, THREE.getY, THREE.getZ, THREE.read, blankPoints.
  cbn [position]. rewrite !lookup_replicate_2 by lia. reflexivity.
Qed.

(** X20. [createParticles], for any pool sizes: it completes and replaces
    both pools, with three coordinates per particle and material opacities
    0.55 and 0.5.  Every transpiration particle starts in the box of a tree
    emitter (of the origin when there is none), where a pass puts a recycled
    one back, with velocity
    ((r4 - 0.5) * 0.08, r5 * 0.2 + 0.1, (r6 - 0.5) * 0.08); every evaporation
    particle starts on a lake, or stays at the origin when there is no lake,
    with velocity ((r3 - 0.5) * 0.05, r4 * 0.15 + 0.05, (r5 - 0.5) * 0.05);
    the draws are the particle's own, and both velocities point upward. *)
Theorem createParticles_seeds (tCount eCount : nat) (s : Sim) :
  let s' := finalState (createParticlesN host tCount eCount s) in
  completes (createParticlesN host tCount eCount s) = true
  /\ (params s', waterBodies s', treeEmitters s') = (params s, waterBodies s, treeEmitters s)
  /\ (length (position (transpiration s')), length (vel (transpiration s')),
      opacity (transpiration s')) = ((tCount * 3)%nat, (tCount * 3)%nat, 0.55)
  /\ (length (position (evaporation s')), length (vel (evaporation s')),
      opacity (evaporation s')) = ((eCount * 3)%nat, (eCount * 3)%nat, 0.5)
  /\ (forall i, (i < tCount)%nat ->
        transpirationSeed s (seeded (transpiration s') i)
        /\ rising (seeded (transpiration s') i))
  /\ (forall i, (i < eCount)%nat ->
        evaporationSeed s (seeded (evaporation s') i)
        /\ rising (seeded (evaporation s') i)).
Proof.
  intros s'. subst s'.
  destruct (fillPoints_spec (seedTranspiration host) inPoints
              (fun u p => transpirationSeed u p /\ rising p))
    with (n := tCount) (k := 0%nat) (p := blankPoints tCount 0.55) (s := s)
    as (t & s1 & E1 & F1 & Z1 & _ & At1).
  { intros p p' j Z _ Hin. unfold inPoints in *. injection Z as Zp Zv _.
    rewrite Zp, Zv. exact Hin. }
  { exact transpirationSeed_frame. }
  { exact createParticles_transpiration_step. }
  set (s2 := withTranspiration t s1).
  unfold besidesDraws in F1. injection F1 as A1 A2 A3 A4 A5 A6 A7 A8.
  assert (G : params s2 = params s /\ waterBodies s2 = waterBodies s
              /\ treeEmitters s2 = treeEmitters s /\ transpiration s2 = t).
  { unfold s2. cbn [params waterBodies treeEmitters transpiration withTranspiration].
    repeat split; assumption. }
  destruct G as (G2 & G3 & G4 & G5).
  destruct (fillPoints_spec (seedEvaporation host)
              (fun p k => inPoints p k /\ particle (position p) k = (0, 0, 0))
              (fun u p => evaporationSeed u p /\ rising p))
    with (n := eCount) (k := 0%nat) (p := blankPoints eCount 0.5) (s := s2)
    as (e & s3 & E3 & F3 & Z3 & _ & At3).
  { intros p p' j Z Hs [Hin Hzero].
    assert (Hpos : particle (position p') j = particle (position p) j)
      by exact (f_equal fst Hs).
    unfold inPoints in *. injection Z as Zp Zv _. rewrite Zp, Zv, Hpos.
    split; assumption. }
  { exact evaporationSeed_frame. }
  { exact createParticles_evaporation_step. }
  assert (Hrun : createParticlesN host tCount eCount s = Normal tt (withEvaporation e s3)).
  { unfold createParticlesN, bind, modify. rewrite E1. cbv beta iota. fold s2.
    rewrite E3. reflexivity. }
  rewrite Hrun. cbn [completes finalState].
  clearbody s2. unfold besidesDraws in F3.
  injection F3 as H1 H2 H3 H4 H5 H6 H7 H8.
  cbn [params waterBodies treeEmitters transpiration evaporation withEvaporation].
  split; [reflexivity |]. split; [congruence |].
  split.
  { rewrite H5, G5, Z1. unfold blankPoints. cbn. rewrite !length_replicate.
    reflexivity. }
  split.
  { rewrite Z3. unfold blankPoints. cbn. rewrite !length_replicate. reflexivity. }
  split.
  - intros i Hi. rewrite H5, G5. apply At1; [lia | apply blankPoints_holds; exact Hi].
  - intros i Hi.
    assert (Hev : evaporationSeed s2 (seeded e i) /\ rising (seeded e i)).
    { apply At3; [lia |]. split; [apply blankPoints_holds | apply blankPoints_zero]; exact Hi. }
    revert Hev. unfold evaporationSeed, evaporationSpawn. rewrite G3. exact (fun H => H).
Qed.

End Part000Creation.

(** ** part_000: what a frame shows *)

Section Part000Readouts.

Import Part000.

Variable host : Host.
Hypothesis host_fair : fair host.

Lemma rates_in_range (p : Params) :
  onSliders p ->
  0 <= transp p <= 2.5 /\ 0 <= evap p <= 3 /\ 0 <= humidF p <= 1.
Proof.
  unfold onSliders, transp, evap, tempF, humidF, windF.
  intros ([? ?] & [? ?] & [? ?]).
  assert (Ht : 0 <= (temperature p - 10) / 30 <= 1)
    by (split; [apply Qle_shift_div_l | apply Qle_shift_div_r]; qlra).
  assert (Hh : 0 <= (humidity p - 20) / 70 <= 1)
    by (split; [apply Qle_shift_div_l | apply Qle_shift_div_r]; qlra).
  assert (Hw : 0 <= windSpeed p / 20 <= 1)
    by (split; [apply Qle_shift_div_l | apply Qle_shift_div_r]; qlra).
  revert Ht Hh Hw.
  generalize ((temperature p - 10) / 30) ((humidity p - 20) / 70) (windSpeed p / 20).
  intros a b c [? ?] [? ?] [? ?]. repeat split; qlra.
Qed.

Lemma updateTranspiration_keeps_shown (dt : Q) :
  keeps (fun t => (shownTranspiration t, shownEvaporation t))
        (updateTranspiration host dt).
Proof.
  unfold updateTranspiration, respawnAtEmitter, onTranspiration, random. cbv zeta.
  frame_split; reflexivity.
Qed.

Lemma updateEvaporation_keeps_shown (dt : Q) :
  keeps (fun t => (shownTranspiration t, shownEvaporation t))
        (updateEvaporation host dt).
Proof.
  unfold updateEvaporation, respawnOnWater, onEvaporation, random.
  frame_split; reflexivity.
Qed.

(** X21. What a frame of part_000 shows.  With the parameters in the ranges
    the comments of [updateParticles] assume (temperature 10 to 40, humidity
    20 to 90, wind 0 to 20), the frame writes to the page the rates of the
    parameters it started with, the transpiration rate between 0 and 2.5 and
    the evaporation rate between 0 and 3, and leaves the transpiration
    material with an opacity between 0.3 and 0.6 and the evaporation
    material with one between 0.2 and 0.5. *)
Theorem frame_readouts_in_range (dt : Q) (s : Sim) :
  onSliders (params s) ->
  let s' := finalState (updateParticles host dt s) in
  shownTranspiration s' = transp (params s)
  /\ shownEvaporation s' = evap (params s)
  /\ 0 <= shownTranspiration s' <= 2.5
  /\ 0 <= shownEvaporation s' <= 3
  /\ 0.3 <= opacity (transpiration s') <= 0.6
  /\ 0.2 <= opacity (evaporation s') <= 0.5.
Proof.
  intros Hp s'. subst s'.
  destruct (rates_in_range (params s) Hp) as ([? ?] & [? ?] & [? ?]).
  unfold updateParticles.
  set (s1 := withShown (transp (params s)) (evap (params s)) s).
  set (s2 := finalState (updateTranspiration host dt s1)).
  set (s3 := withTranspiration
               (withOpacity (0.3 + humidF (params s2) * 0.3) (transpiration s2)) s2).
  set (s4 := finalState (updateEvaporation host dt s3)).
  set (s5 := withEvaporation
               (withOpacity (0.2 + humidF (params s4) * 0.3) (evaporation s4)) s4).
  destruct (updateEvaporation_pass host host_fair dt s3) as [Hret4 _].
  assert (Hrun : (modify (fun t => withShown (transp (params t)) (evap (params t)) t) ;;
                  updateTranspiration host dt ;;
                  modify (fun t =>
                    withTranspiration
                      (withOpacity (0.3 + humidF (params t) * 0.3) (transpiration t)) t) ;;
                  updateEvaporation host dt ;;
                  modify (fun t =>
                    withEvaporation
                      (withOpacity (0.2 + humidF (params t) * 0.3) (evaporation t)) t)) s
                 = Normal tt s5).
  { unfold bind at 1. unfold modify at 1. fold s1.
    rewrite bind_returns by apply updateTranspiration_returns. fold s2.
    unfold bind at 1. unfold modify at 1. fold s3.
    rewrite bind_returns by exact Hret4. reflexivity. }
  rewrite Hrun. cbn [finalState].
  pose proof (updateTranspiration_frame host dt s1) as F2. fold s2 in F2.
  pose proof (updateEvaporation_frame host dt s3) as F4. fold s4 in F4.
  pose proof (updateTranspiration_keeps_shown dt s1) as K2. fold s2 in K2.
  pose proof (updateEvaporation_keeps_shown dt s3) as K4. fold s4 in K4.
  unfold besidesTranspiration in F2. unfold besidesEvaporation in F4.
  injection F2 as P2 _ _ _ _ _ _.
  injection F4 as P4 _ _ T4 _ _ _.
  cbv beta in K2, K4. injection K2 as K2a K2b. injection K4 as K4a K4b.
  assert (Q5 : shownTranspiration s5 = shownTranspiration s4
               /\ shownEvaporation s5 = shownEvaporation s4
               /\ opacity (transpiration s5) = opacity (transpiration s4)
               /\ opacity (evaporation s5) = 0.2 + humidF (params s4) * 0.3)
    by (repeat split; reflexivity).
  destruct Q5 as (A5 & B5 & C5 & D5).
  clearbody s1 s2 s3 s4 s5.
  assert (E1 : shownTranspiration s5 = transp (params s)) by congruence.
  assert (E2 : shownEvaporation s5 = evap (params s)) by congruence.
  assert (E3 : opacity (transpiration s5) = 0.3 + humidF (params s) * 0.3).
  { rewrite C5, T4. cbn [opacity withOpacity]. rewrite P2. reflexivity. }
  assert (E4 : opacity (evaporation s5) = 0.2 + humidF (params s) * 0.3).
  { rewrite D5, P4, P2. reflexivity. }
  rewrite E1, E2, E3, E4.
  repeat split; try assumption; qlra.
Qed.

End Part000Readouts.

(** *** The properties of part_000 on [flatHost] and [stillSim] *)

Lemma createParticles_seeds_witness :
  let s := Part000.stillSim in
  let s' := finalState (Part000.createParticlesN flatHost 2 2 s) in
  fair flatHost
  /\ (completes (Part000.createParticlesN flatHost 2 2 s) = true
      /\ (Part000.params s', Part000.waterBodies s', Part000.treeEmitters s')
         = (Part000.params s, Part000.waterBodies s, Part000.treeEmitters s)
      /\ (length (Part000.position (Part000.transpiration s')),
          length (Part000.vel (Part000.transpiration s')),
          Part000.opacity (Part000.transpiration s')) = ((2 * 3)%nat, (2 * 3)%nat, 0.55)
      /\ (length (Part000.position (Part000.evaporation s')),
          length (Part000.vel (Part000.evaporation s')),
          Part000.opacity (Part000.evaporation s')) = ((2 * 3)%nat, (2 * 3)%nat, 0.5)
      /\ (forall i, (i < 2)%nat ->
            Part000.transpirationSeed s (Part000.seeded (Part000.transpiration s') i)
            /\ Part000.rising (Part000.seeded (Part000.transpiration s') i))
      /\ (forall i, (i < 2)%nat ->
            Part000.evaporationSeed s (Part000.seeded (Part000.evaporation s') i)
            /\ Part000.rising (Part000.seeded (Part000.evaporation s') i))).
Proof.
  intros s s'. split; [exact flatHost_fair |].
  exact (createParticles_seeds flatHost flatHost_fair 2 2 s).
Defined.

Lemma frame_readouts_in_range_witness :
  let s := Part000.stillSim in
  let s' := finalState (Part000.updateParticles flatHost Part000.frameTime s) in
  (fair flatHost /\ Part000.onSliders (Part000.params s))
  /\ (Part000.shownTranspiration s' = Part000.transp (Part000.params s)
      /\ Part000.shownEvaporation s' = Part000.evap (Part000.params s)
      /\ 0 <= Part000.shownTranspiration s' <= 2.5
      /\ 0 <= Part000.shownEvaporation s' <= 3
      /\ 0.3 <= Part000.opacity (Part000.transpiration s') <= 0.6
      /\ 0.2 <= Part000.opacity (Part000.evaporation s') <= 0.5).
Proof.
  intros s s'.
  assert (Hp : Part000.onSliders (Part000.params s))
    by (unfold Part000.onSliders; repeat split; qcompute).
  split; [split; [exact flatHost_fair | exact Hp] |].
  exact (frame_readouts_in_range flatHost flatHost_fair Part000.frameTime s Hp).
Defined.
